(** * Product search and EPD risk screener: a shallow embedding

    The Python sources embedded here are [rule_engine.py], [epd_api.py],
    [product_indexer.py], [search_engine.py] and the pagination of the
    search endpoint of [app.py].

    Conventions of the embedding.
    - A Python [str] is a [string] whose characters are the code points
      below 256; [strip] and [lower] follow Python on that range.
    - A JSON value is a [pyval]; a JSON object is an association list read
      at the first binding of a key.  JSON numbers that are not integers
      are not part of the value universe.
    - A call that may raise returns a [result]; the exception names are the
      Python ones.
    - A similarity score is a rational number; the similarity of an
      embedding of norm zero, which is not a number, is not covered.
    - The database is SQLite behind SQLAlchemy: a commit inserts the rows
      added to the session, and raises, storing nothing, at the first
      value the driver cannot bind. *)

From Stdlib Require Import ZArith QArith String Ascii List Bool Lia DecimalString.
From Stdlib Require Import Sorted Permutation.
From Stdlib Require DecimalPos.
Import ListNotations.
Open Scope string_scope.
Open Scope Z_scope.
Set Warnings "-register-all,-abstract-large-number".

(** ** Python strings *)
Module PyStr.

(** [str.isspace] on one character with code point below 256. *)
Definition is_space (c : ascii) : bool :=
  let n := N_of_ascii c in
  (((9 <=? n) && (n <=? 13)) || ((28 <=? n) && (n <=? 32))
   || (n =? 133) || (n =? 160))%N.

Fixpoint lstrip (s : string) : string :=
  match s with
  | EmptyString => EmptyString
  | String c s' => if is_space c then lstrip s' else s
  end.

Fixpoint rstrip (s : string) : string :=
  match s with
  | EmptyString => EmptyString
  | String c s' =>
      match rstrip s' with
      | EmptyString => if is_space c then EmptyString else String c EmptyString
      | r => String c r
      end
  end.

(** [s.strip()] *)
Definition strip (s : string) : string := rstrip (lstrip s).

Definition lower_char (c : ascii) : ascii :=
  let n := N_of_ascii c in
  if (((65 <=? n) && (n <=? 90)) || ((192 <=? n) && (n <=? 214))
      || ((216 <=? n) && (n <=? 222)))%N
  then ascii_of_N (n + 32) else c.

(** [s.lower()] *)
Fixpoint lower (s : string) : string :=
  match s with
  | EmptyString => EmptyString
  | String c s' => String (lower_char c) (lower s')
  end.

(** [s.startswith(p)] *)
Definition startswith (s p : string) : bool := String.prefix p s.

(** [s.endswith(p)] *)
Definition endswith (s p : string) : bool :=
  let n := String.length s in
  let m := String.length p in
  (m <=? n)%nat && String.eqb (String.substring (n - m) m s) p.

(** [sub in s] *)
Fixpoint contains (s sub : string) : bool :=
  String.prefix sub s
  || match s with
     | EmptyString => false
     | String _ s' => contains s' sub
     end.

(** [not s]: the empty string is the only falsy string. *)
Definition is_empty (s : string) : bool :=
  match s with EmptyString => true | _ => false end.

(** Every character of [s] is whitespace (true of the empty string). *)
Fixpoint all_space (s : string) : bool :=
  match s with
  | EmptyString => true
  | String c s' => is_space c && all_space s'
  end.

(** [s[n:]] for [n >= 0] *)
Fixpoint drop (n : nat) (s : string) : string :=
  match n, s with
  | O, _ => s
  | S n', String _ s' => drop n' s'
  | S _, EmptyString => EmptyString
  end.

(** The text of [s] before the first occurrence of [sep]; all of [s] when
    [sep] does not occur.  For a non-empty [sep] this is
    [s.split(sep)[0]]. *)
Fixpoint before_sep (sep s : string) : string :=
  if String.prefix sep s then EmptyString
  else match s with
       | EmptyString => EmptyString
       | String c s' => String c (before_sep sep s')
       end.

(** [sep.join(parts)] *)
Fixpoint join (sep : string) (parts : list string) : string :=
  match parts with
  | [] => EmptyString
  | [p] => p
  | p :: rest => p ++ sep ++ join sep rest
  end.

Definition hex_digit (n : N) : ascii :=
  ascii_of_N (if (n <? 10)%N then 48 + n else 87 + n).

End PyStr.

(** ** Python values and exceptions *)
Module Py.
Import PyStr.

Inductive exn : Type :=
| AttributeError
| TypeError
| KeyError
| IndexError
| ValueError
| UnboundLocalError
| JSONDecodeError
| ProviderError
| OverflowError
| DBAPIError.

Inductive result (A : Type) : Type :=
| Ok (a : A)
| Raise (e : exn).
Arguments Ok {A} a.
Arguments Raise {A} e.

Definition bind {A B : Type} (r : result A) (k : A -> result B) : result B :=
  match r with
  | Ok a => k a
  | Raise e => Raise e
  end.

Notation "x <- c ;; k" := (bind c (fun x => k))
  (at level 61, c at next level, right associativity).

(** Run [f] on every element, left to right, stopping at the first raise. *)
Fixpoint mapM {A B : Type} (f : A -> result B) (l : list A) : result (list B) :=
  match l with
  | [] => Ok []
  | x :: l' => y <- f x ;; ys <- mapM f l' ;; Ok (y :: ys)
  end.

Inductive pyval : Type :=
| PNone
| PBool (b : bool)
| PInt (z : Z)
| PStr (s : string)
| PList (l : list pyval)
| PDict (d : list (string * pyval)).

(** A JSON object, and so a product record. *)
Definition dict : Type := list (string * pyval).

Fixpoint lookup (k : string) (d : dict) : option pyval :=
  match d with
  | [] => None
  | (k', v) :: d' => if String.eqb k k' then Some v else lookup k d'
  end.

(** [k in d] *)
Definition has_key (k : string) (d : dict) : bool :=
  match lookup k d with Some _ => true | None => false end.

(** [d.get(k)] *)
Definition get (d : dict) (k : string) : pyval :=
  match lookup k d with Some v => v | None => PNone end.

(** [d.get(k, default)] *)
Definition get_default (d : dict) (k : string) (default : pyval) : pyval :=
  match lookup k d with Some v => v | None => default end.

(** [d[k]] *)
Definition subscript (d : dict) (k : string) : result pyval :=
  match lookup k d with Some v => Ok v | None => Raise KeyError end.

(** [bool(v)] *)
Definition truthy (v : pyval) : bool :=
  match v with
  | PNone => false
  | PBool b => b
  | PInt z => negb (z =? 0)
  | PStr s => negb (is_empty s)
  | PList l => match l with [] => false | _ => true end
  | PDict d => match d with [] => false | _ => true end
  end.

(** [a or b] *)
Definition py_or (a b : pyval) : pyval := if truthy a then a else b.

(** [v.get(k)]: only a dict has the method. *)
Definition method_get (v : pyval) (k : string) : result pyval :=
  match v with
  | PDict d => Ok (get d k)
  | _ => Raise AttributeError
  end.

(** The elements [for x in v] visits: the items of a list, the characters
    of a string, the keys of a dict; anything else is not iterable. *)
Definition chars (s : string) : list pyval :=
  map (fun c => PStr (String c EmptyString)) (list_ascii_of_string s).

Definition iterate (v : pyval) : result (list pyval) :=
  match v with
  | PList l => Ok l
  | PStr s => Ok (chars s)
  | PDict d => Ok (map (fun kv => PStr (fst kv)) d)
  | _ => Raise TypeError
  end.

(** [str(z)] for an integer. *)
Definition str_of_Z (z : Z) : string := NilZero.string_of_int (Z.to_int z).

(** [repr(s)] for a string: the quote is the double quote only when [s] has
    a single quote and no double quote; the quote and the backslash are
    escaped, tab, newline and return are written [\t], [\n], [\r], and any
    other character that is not printable is written [\xNN]. *)
Definition printable (n : N) : bool :=
  (((32 <=? n) && (n <=? 126)) || ((161 <=? n) && negb (n =? 173)))%N.

Definition backslash : ascii := ascii_of_N 92.
Definition double_quote : ascii := ascii_of_N 34.

Definition repr_char (quote : ascii) (c : ascii) : string :=
  let n := N_of_ascii c in
  if Ascii.eqb c quote || Ascii.eqb c backslash
  then String backslash (String c EmptyString)
  else if (n =? 9)%N then String backslash "t"
  else if (n =? 10)%N then String backslash "n"
  else if (n =? 13)%N then String backslash "r"
  else if printable n then String c EmptyString
  else String backslash (String "x"%char
         (String (hex_digit (n / 16)) (String (hex_digit (n mod 16)) EmptyString))).

Definition repr_str (s : string) : string :=
  let quote :=
    if contains s "'" && negb (contains s (String double_quote EmptyString))
    then double_quote else "'"%char in
  String quote
    (String.concat EmptyString (map (repr_char quote) (list_ascii_of_string s))
     ++ String quote EmptyString).

(** [repr(v)] *)
Fixpoint repr (v : pyval) : string :=
  match v with
  | PNone => "None"
  | PBool true => "True"
  | PBool false => "False"
  | PInt z => str_of_Z z
  | PStr s => repr_str s
  | PList l => "[" ++ join ", " (map repr l) ++ "]"
  | PDict d =>
      "{" ++ join ", " (map (fun kv => repr_str (fst kv) ++ ": " ++ repr (snd kv)) d)
      ++ "}"
  end.

(** [str(v)] *)
Definition str (v : pyval) : string :=
  match v with
  | PStr s => s
  | _ => repr v
  end.

(** [a == b].  A bool compares as the integer 0 or 1; two dicts are equal
    when they bind the same keys to equal values. *)
Fixpoint py_eq (a b : pyval) : bool :=
  match a with
  | PNone => match b with PNone => true | _ => false end
  | PBool x =>
      match b with
      | PBool y => Bool.eqb x y
      | PInt y => (if x then 1 else 0) =? y
      | _ => false
      end
  | PInt x =>
      match b with
      | PBool y => x =? (if y then 1 else 0)
      | PInt y => x =? y
      | _ => false
      end
  | PStr x => match b with PStr y => String.eqb x y | _ => false end
  | PList xs =>
      match b with
      | PList ys =>
          (fix go (xs ys : list pyval) : bool :=
             match xs, ys with
             | [], [] => true
             | x :: xs', y :: ys' => py_eq x y && go xs' ys'
             | _, _ => false
             end) xs ys
      | _ => false
      end
  | PDict d1 =>
      match b with
      | PDict d2 =>
          (length d1 =? length d2)%nat
          && (fix go (d : list (string * pyval)) : bool :=
                match d with
                | [] => true
                | (k, v) :: d' =>
                    match lookup k d2 with
                    | Some v' => py_eq v v'
                    | None => false
                    end && go d'
                end) d1
      | _ => false
      end
  end.

(** A list or a dict cannot be hashed. *)
Definition hashable (v : pyval) : bool :=
  match v with
  | PList _ | PDict _ => false
  | _ => true
  end.

(** [x in c]: equality against the items of a list, substring for two
    strings, key membership for a dict. *)
Definition py_in (x c : pyval) : result bool :=
  match c with
  | PList l => Ok (existsb (py_eq x) l)
  | PStr s =>
      match x with
      | PStr sub => Ok (contains s sub)
      | _ => Raise TypeError
      end
  | PDict d =>
      if hashable x
      then Ok (match x with PStr k => has_key k d | _ => false end)
      else Raise TypeError
  | _ => Raise TypeError
  end.

End Py.

(** ** rule_engine.py *)
Module RuleEngine.
Import PyStr Py.

Definition _is_absolute_url (url : pyval) : result bool :=
  match url with
  | PStr s =>
      let lowered := lower (strip s) in
      Ok (startswith lowered "http://" || startswith lowered "https://")
  | _ => Raise AttributeError
  end.

Definition manual_note : string :=
  "Please manually verify the validity period of all EPDs".

(** [isinstance(epd_url, str) and not epd_url.strip()] *)
Definition blank_str (v : pyval) : bool :=
  match v with
  | PStr s => is_empty (strip s)
  | _ => false
  end.

Definition evaluate_product (product : dict)
  : result (string * list string * list string) :=
  let epd_url := py_or (get product "epd_url") PNone in
  let epd_issue_date := py_or (get product "epd_issue_date") PNone in
  if negb (truthy epd_url) || blank_str epd_url then
    Ok ("Red", ["Missing EPD file link"], [manual_note])
  else
    is_abs <- _is_absolute_url epd_url ;;
    let has_issue_date :=
      truthy epd_issue_date && negb (is_empty (strip (str epd_issue_date))) in
    if negb is_abs && negb has_issue_date then
      Ok ("Yellow", ["EPD link is relative and issue date is missing"],
          [manual_note])
    else if negb is_abs then
      Ok ("Yellow", ["EPD link is a relative path and may be inaccessible"],
          [manual_note])
    else if negb has_issue_date then
      Ok ("Yellow", ["EPD issue date is missing; validity cannot be verified"],
          [manual_note])
    else
      Ok ("Green",
          ["EPD link is accessible; please verify the issue date manually"],
          [manual_note]).

End RuleEngine.

(** ** product_indexer.py *)
Module ProductIndexer.
Import PyStr Py.

(** [get_product_by_id]: [None] of Python is [Ok None]; a product without
    the key ['id'] raises [KeyError] when the scan reaches it. *)
Fixpoint get_product_by_id (products : list dict) (product_id : pyval)
  : result (option dict) :=
  match products with
  | [] => Ok None
  | product :: rest =>
      id <- subscript product "id" ;;
      if py_eq id product_id then Ok (Some product)
      else get_product_by_id rest product_id
  end.

End ProductIndexer.

(** ** app.py: pagination of the search endpoint *)
Module App.

Record page_response (A : Type) : Type := {
  results : list A;
  count : Z;
  total : Z;
  page : Z;
  per_page : Z;
  total_pages : Z
}.
Arguments results {A} _.
Arguments count {A} _.
Arguments total {A} _.
Arguments page {A} _.
Arguments per_page {A} _.
Arguments total_pages {A} _.

(** [l[start:stop]] for [0 <= start]. *)
Definition slice {A : Type} (l : list A) (start stop : Z) : list A :=
  firstn (Z.to_nat (stop - start)) (skipn (Z.to_nat start) l).

(** The pagination block of [search], shared by the filtered listing and the
    AI search: [page] and [per_page] are the integers of the request body. *)
Definition search_paginate {A : Type} (all_results : list A) (req_page req_per_page : Z)
  : page_response A :=
  let page := Z.max 1 req_page in
  let per_page := Z.min 100 (Z.max 10 req_per_page) in
  let total := Z.of_nat (length all_results) in
  let total_pages := (total + per_page - 1) / per_page in
  let start_idx := (page - 1) * per_page in
  let end_idx := start_idx + per_page in
  let paginated := slice all_results start_idx end_idx in
  {| results := paginated;
     count := Z.of_nat (length paginated);
     total := total;
     page := page;
     per_page := per_page;
     total_pages := total_pages |}.

End App.

(** ** config.py *)
Module Config.

Definition TOP_K_SEMANTIC : Z := 30.
Definition TOP_K_FINAL : nat := 15.
Definition SIMILARITY_THRESHOLD : Q := 3 # 10.

End Config.

(** ** search_engine.py *)
Module SearchEngine.
Import PyStr Py.

(** A product copy carrying its ['similarity_score']. *)
Record scored : Type := {
  sp_product : dict;
  similarity_score : Q
}.

(** [a < b] on scores. *)
Definition Qltb (a b : Q) : bool := negb (Qle_bool b a).

(** [any(x in c for x in xs)]: the membership tests run left to right and
    stop at the first hit. *)
Fixpoint any_in (xs : list pyval) (c : pyval) : result bool :=
  match xs with
  | [] => Ok false
  | x :: xs' => b <- py_in x c ;; if b then Ok true else any_in xs' c
  end.

(** One list-valued filter: the names under [name_key] of the records in
    the product's [list_key] field, any of which must be in [wanted]. *)
Definition passes_any (product : dict) (list_key name_key : string) (wanted : pyval)
  : result bool :=
  records <- iterate (get_default product list_key (PList [])) ;;
  names <- mapM (fun c => method_get c name_key) records ;;
  any_in names wanted.

Definition _passes_filters (product : dict) (filters : pyval) : result bool :=
  categories <- method_get filters "categories" ;;
  ok_cat <- (if truthy categories
             then passes_any product "product_categories" "category_name" categories
             else Ok true) ;;
  if negb ok_cat then Ok false else
  manufacturers <- method_get filters "manufacturers" ;;
  ok_man <- (if truthy manufacturers
             then py_in (get product "manufacturer_name") manufacturers
             else Ok true) ;;
  if negb ok_man then Ok false else
  certifications <- method_get filters "certifications" ;;
  ok_cert <- (if truthy certifications
              then passes_any product "certifications" "certification" certifications
              else Ok true) ;;
  if negb ok_cert then Ok false else
  has_certifications <- method_get filters "has_certifications" ;;
  if truthy has_certifications && negb (truthy (get product "certifications"))
  then Ok false else
  has_carbon_data <- method_get filters "has_carbon_data" ;;
  if truthy has_carbon_data && negb (truthy (get product "net_carbon_emissions"))
  then Ok false else
  Ok true.

(** [enumerate(l)] from index [i]. *)
Fixpoint enumerate_from {A : Type} (i : nat) (l : list A) : list (nat * A) :=
  match l with
  | [] => []
  | x :: l' => (i, x) :: enumerate_from (S i) l'
  end.

(** [similarities.sort(key=lambda x: x[1], reverse=True)]: a stable sort,
    so entries of equal score keep their catalog order. *)
Fixpoint insert_desc (x : nat * Q) (l : list (nat * Q)) : list (nat * Q) :=
  match l with
  | [] => [x]
  | y :: l' =>
      if Qle_bool (snd y) (snd x) then x :: l else y :: insert_desc x l'
  end.

Fixpoint sort_desc (l : list (nat * Q)) : list (nat * Q) :=
  match l with
  | [] => []
  | x :: l' => insert_desc x (sort_desc l')
  end.

(** [top_k = top_k or Config.TOP_K_SEMANTIC] *)
Definition effective_top_k (top_k : option Z) : Z :=
  match top_k with
  | Some k => if k =? 0 then Config.TOP_K_SEMANTIC else k
  | None => Config.TOP_K_SEMANTIC
  end.

(** The loop over the sorted similarities. *)
Fixpoint collect (products : list dict) (filters : pyval) (top_k : Z)
    (similarities : list (nat * Q)) (filtered_products : list scored)
  : result (list scored) :=
  match similarities with
  | [] => Ok filtered_products
  | (idx, similarity) :: rest =>
      if Qltb similarity Config.SIMILARITY_THRESHOLD
      then collect products filters top_k rest filtered_products
      else
        match nth_error products idx with
        | None => Raise IndexError
        | Some product =>
            pass <- (if truthy filters then _passes_filters product filters
                     else Ok true) ;;
            if negb pass
            then collect products filters top_k rest filtered_products
            else
              let filtered_products' :=
                (filtered_products
                 ++ [{| sp_product := product; similarity_score := similarity |}])%list in
              if Z.of_nat (length filtered_products') >=? top_k
              then Ok filtered_products'
              else collect products filters top_k rest filtered_products'
        end
  end.

(** [semantic_search]: [scores] is the cosine similarity of the query to
    each catalog embedding, in catalog order, each a number (an embedding
    of norm zero, whose similarity is not a number, is not covered);
    [has_client] tells whether the provider client was built. *)
Definition semantic_search (has_client : bool) (products : list dict)
    (scores : list Q) (top_k : option Z) (filters : pyval)
  : result (list scored) :=
  let top_k := effective_top_k top_k in
  if negb has_client then Raise ValueError else
  let similarities := sort_desc (enumerate_from 0 scores) in
  collect products filters top_k similarities [].

(** The fields the refinement adds to a product copy. *)
Record llm_fields : Type := {
  llm_rank : pyval;
  llm_relevance : pyval;
  llm_explanation : pyval
}.

(** An element of the list [llm_refine_results] returns: a candidate,
    with the refinement's fields when it was refined. *)
Record ranked : Type := {
  r_product : scored;
  r_llm : option llm_fields
}.

Definition plain (p : scored) : ranked := {| r_product := p; r_llm := None |}.

(** [products[:Config.TOP_K_FINAL]] *)
Definition fallback (products : list scored) : list ranked :=
  map plain (firstn Config.TOP_K_FINAL products).

Definition fence : string := "```".

(** The markdown unwrapping.  [content] starts with the fence, so
    [content.split(fence)] has at least two parts and [parts[1]] is the
    text between the opening fence and the next one. *)
Definition unwrap_markdown (content : string) : string :=
  if startswith content fence then
    let part := before_sep fence (drop 3 content) in
    let part := if startswith part "json" then drop 4 part else part in
    strip part
  else content.

(** [{p['id']: p for p in products}] as the list of its bindings in
    insertion order; a later binding of an equal key replaces the value
    of an earlier one. *)
Definition product_map (products : list scored) : result (list (pyval * scored)) :=
  mapM (fun p =>
          id <- subscript (sp_product p) "id" ;;
          if hashable id then Ok (id, p) else Raise TypeError)
       products.

Definition map_lookup (key : pyval) (pm : list (pyval * scored)) : option scored :=
  match find (fun kv => py_eq (fst kv) key) (rev pm) with
  | Some kv => Some (snd kv)
  | None => None
  end.

(** [rec['product_id']]: a dict is read at the key; no other JSON value
    accepts a string subscript. *)
Definition item (rec : pyval) (k : string) : result pyval :=
  match rec with
  | PDict d => subscript d k
  | _ => Raise TypeError
  end.

(** The copy of the candidate with [rec.get('rank', 0)],
    [rec.get('relevance_score', 0)] and [rec.get('explanation', '')]. *)
Definition annotate (p : scored) (rec : pyval) : result ranked :=
  match rec with
  | PDict d =>
      Ok {| r_product := p;
            r_llm := Some {| llm_rank := get_default d "rank" (PInt 0);
                             llm_relevance := get_default d "relevance_score" (PInt 0);
                             llm_explanation := get_default d "explanation" (PStr "") |} |}
  | _ => Raise AttributeError
  end.

(** The loop mapping recommendations back to candidates; a recommendation
    whose id is not a key of the map only prints a warning. *)
Fixpoint map_recommendations (pm : list (pyval * scored)) (recs : list pyval)
  : result (list ranked) :=
  match recs with
  | [] => Ok []
  | rec :: rest =>
      product_id <- item rec "product_id" ;;
      if negb (hashable product_id) then Raise TypeError else
      match map_lookup product_id pm with
      | Some p =>
          r <- annotate p rec ;;
          tail <- map_recommendations pm rest ;;
          Ok (r :: tail)
      | None => map_recommendations pm rest
      end
  end.

Section Refine.

(** [json.loads]: [None] stands for [json.JSONDecodeError]. *)
Variable json_loads : string -> option pyval.

(** The part of the [try] block that runs once [content] is bound. *)
Definition refine_parsed (content : string) (products : list scored)
  : result (list ranked) :=
  match json_loads (unwrap_markdown content) with
  | None => Raise JSONDecodeError
  | Some recommendations =>
      pm <- product_map products ;;
      recs <- iterate recommendations ;;
      refined_products <- map_recommendations pm recs ;;
      match refined_products with
      | [] => Ok (fallback products)
      | _ => Ok (firstn Config.TOP_K_FINAL refined_products)
      end
  end.

(** [llm_refine_results].  [completion] is what building the prompt and
    calling the provider gives: [Raise e] when either raises [e], else the
    [content] field of the first choice ([None] when it is null).

    The two handlers: [except json.JSONDecodeError] prints [content[:200]]
    before it returns the fallback, so it raises [UnboundLocalError] when
    the exception came before [content] was assigned; [except Exception]
    returns the fallback. *)
Definition llm_refine_results (has_client : bool)
    (completion : result (option string)) (products : list scored)
  : result (list ranked) :=
  match products with
  | [] => Ok []
  | _ =>
      if negb has_client then Ok (fallback products) else
      match completion with
      | Raise JSONDecodeError => Raise UnboundLocalError
      | Raise _ => Ok (fallback products)
      | Ok None => Ok (fallback products)
      | Ok (Some raw) =>
          match refine_parsed (strip raw) products with
          | Ok refined => Ok refined
          | Raise _ => Ok (fallback products)
          end
      end
  end.

End Refine.

End SearchEngine.

(** ** epd_api.py *)
Module EpdApi.
Import PyStr Py.

Definition _is_http_url (s : string) : bool :=
  let l := lower s in startswith l "http://" || startswith l "https://".

Definition _is_image_url (s : string) : bool :=
  let lowered := lower s in
  existsb (endswith lowered)
    [".png"; ".jpg"; ".jpeg"; ".webp"; ".gif"; ".bmp"; ".svg"].

(** [push]: a non-blank string is appended stripped. *)
Definition push (val : pyval) : list string :=
  match val with
  | PStr s => if is_empty (strip s) then [] else [strip s]
  | _ => []
  end.

Definition extract_from_array (arr : pyval) : list string :=
  match arr with
  | PList l =>
      flat_map
        (fun x =>
           match x with
           | PStr _ => push x
           | PDict d =>
               flat_map (fun k => push (get d k))
                 ["url"; "href"; "src"; "file"; "image"]
           | _ => []
           end) l
  | _ => []
  end.

Fixpoint first_usable (candidates : list string) : option string :=
  match candidates with
  | [] => None
  | url :: rest =>
      if _is_http_url url && _is_image_url url then Some url
      else if existsb (startswith url)
                ["/products/"; "products/"; "/media/products/"; "media/products/"]
              && _is_image_url url
      then Some ("/api/proxy-image?path="
                 ++ (if startswith url "/" then url else "/" ++ url))
      else first_usable rest
  end.

Definition _extract_first_image_url (product : dict) : result (option string) :=
  match product with
  | [] => Ok None
  | _ =>
      let singles :=
        flat_map (fun key => push (get product key))
          ["image"; "image_url"; "product_image"; "main_image"; "thumbnail"; "photo"] in
      let arrays :=
        flat_map (fun key => extract_from_array (get product key))
          ["images"; "product_images"; "gallery"; "photos"] in
      media_images <- method_get (py_or (get product "media") (PDict [])) "images" ;;
      assets_images <- method_get (py_or (get product "assets") (PDict [])) "images" ;;
      let candidates :=
        (singles ++ arrays ++ extract_from_array media_images
         ++ extract_from_array assets_images
         ++ extract_from_array (get product "attachments"))%list in
      Ok (first_usable candidates)
  end.

Definition _text_contains_any (text : string) (keywords : list string) : bool :=
  let t := lower text in
  existsb (contains t) keywords.

Definition general_keywords : list string :=
  ["greentag"; "green tag"; "geca"; "greenguard"; "bifma"; "afrdi";
   "cradle to cradle"; "c2c"; "declare"; "hpd"; "health product declaration";
   "fsc"; "pefc"; "responsible wood"; "responsible steel"; "oeko-tex";
   "scs indoor advantage"; "certificate"; "certified"; "certification";
   "ecolabel"; "green rate"; "health rate"; "lca rate"].

Definition epd_keywords : list string :=
  ["epd"; "environmental product declaration"; "iso 14025"; "en 15804"; "ibu";
   "epd australasia"; "epd international"; "environdec"].

(** [c.get(k1) or c.get(k2)] on an element of a list field. *)
Definition get_either (c : pyval) (k1 k2 : string) : result pyval :=
  a <- method_get c k1 ;;
  b <- method_get c k2 ;;
  Ok (py_or a b).

(** Returns [(has_any_certificate, has_epd_certificate)]. *)
Definition _detect_cert_state (product : dict) : result (bool * bool) :=
  match product with
  | [] => Ok (false, false)
  | _ =>
      let has_flag := truthy (get product "has_certifications") in
      let certs := py_or (get product "certifications") (PList []) in
      let has_array := truthy certs in
      let has_url :=
        existsb (fun f => truthy (get product f))
          ["certificate_url"; "certification_url"; "green_tag_url";
           "greentag_url"; "hpd_url"] in
      let combined_text :=
        join " "
          (map (fun f => str (py_or (get product f) (PStr "")))
             ["product_name"; "product_description"; "long_description";
              "description"; "title"; "certifications_text"; "notes"]) in
      cs <- iterate certs ;;
      cert_names <-
        mapM (fun c =>
                name <- get_either c "certification" "name" ;;
                Ok (str (py_or name (PStr "")))) cs ;;
      let names_text := join " " cert_names in
      let has_general_by_text :=
        _text_contains_any combined_text general_keywords
        || _text_contains_any names_text general_keywords in
      let has_epd_by_text :=
        _text_contains_any combined_text epd_keywords
        || _text_contains_any names_text epd_keywords in
      let has_any := has_flag || has_array || has_url || has_general_by_text in
      let has_epd := truthy (get product "epd_url") || has_epd_by_text in
      Ok (has_any, has_epd)
  end.

(** [_find_product_by_id]: [indexer] is the product list of the global
    indexer, [None] when there is no indexer. *)
Definition _find_product_by_id (indexer : option (list dict)) (product_id : string)
  : option dict :=
  match indexer with
  | None => None
  | Some products =>
      let target := product_id in
      find (fun p =>
              existsb (fun k => has_key k p && String.eqb (str (get p k)) target)
                ["id"; "product_id"; "sku"; "code"])
           products
  end.

(** A row of the table [scan_results]; the two JSON-encoded columns are
    kept as the lists they encode. *)
Record ScanResult : Type := {
  input_product_id : string;
  product_name : pyval;
  manufacturer_name : pyval;
  epd_url : pyval;
  epd_issue_date : pyval;
  risk_level : string;
  reasons : list string;
  advisories : list string
}.

(** An entry of the [results] list of the response. *)
Record payload_row : Type := {
  p_row : ScanResult;
  p_has_epd : bool;
  p_has_certifications : bool;
  p_has_epd_certificate : bool;
  p_certifications : list string;
  p_certificate_urls : list string;
  p_categories : list string;
  p_thumbnail_url : option string
}.

(** [if v and str(v).strip(): out.append(str(v).strip())] *)
Definition stripped_if_any (v : pyval) : list string :=
  if truthy v && negb (is_empty (strip (str v))) then [strip (str v)] else [].

(** [nm = c.get(k1) or c.get(k2); if nm: names.append(str(nm))] *)
Definition name_of (k1 k2 : string) (c : pyval) : result (list string) :=
  nm <- get_either c k1 k2 ;;
  Ok (if truthy nm then [str nm] else []).

(** The body of the loop of [create_scan] for one identifier: the row, the
    response entry and the counter it increments. *)
Definition scan_one (indexer : option (list dict)) (pid : string)
  : result payload_row :=
  let product :=
    match _find_product_by_id indexer pid with
    | Some p => p
    | None => []
    end in
  let epd_url := get product "epd_url" in
  let epd_issue_date := get product "epd_issue_date" in
  state <- _detect_cert_state product ;;
  let '(has_certs, has_epd_cert) := state in
  let certs := py_or (get product "certifications") (PList []) in
  cs <- iterate certs ;;
  cert_names <- mapM (name_of "certification" "name") cs ;;
  let field_urls :=
    flat_map (fun f => stripped_if_any (get product f))
      ["certificate_url"; "certification_url"; "green_tag_url"; "greentag_url";
       "hpd_url"; "hpd_certificate_url"] in
  cert_urls <-
    mapM (fun c =>
            u1 <- method_get c "url" ;;
            u2 <- method_get c "link" ;;
            u3 <- method_get c "certificate_url" ;;
            Ok (stripped_if_any u1 ++ stripped_if_any u2 ++ stripped_if_any u3)%list)
         cs ;;
  cats <- iterate (py_or (get product "product_categories") (PList [])) ;;
  cat_names <- mapM (name_of "category_name" "name") cats ;;
  thumb <- _extract_first_image_url product ;;
  evaluation <- RuleEngine.evaluate_product product ;;
  let '(base_risk, reasons, advisories) := evaluation in
  let risk_for_display :=
    if has_epd_cert then "Green" else if has_certs then "Yellow" else "Red" in
  let sr :=
    {| input_product_id := pid;
       product_name := py_or (get product "product_name") (get product "name");
       manufacturer_name :=
         py_or (get product "manufacturer_name") (get product "manufacturer");
       epd_url := epd_url;
       epd_issue_date := epd_issue_date;
       risk_level := risk_for_display;
       reasons := reasons;
       advisories := advisories |} in
  Ok {| p_row := sr;
        p_has_epd := truthy epd_url && negb (is_empty (strip (str epd_url)));
        p_has_certifications := has_certs;
        p_has_epd_certificate := has_epd_cert;
        p_certifications := concat cert_names;
        p_certificate_urls := (field_urls ++ concat cert_urls)%list;
        p_categories := concat cat_names;
        p_thumbnail_url := thumb |}.

(** The counters and the rows gathered so far. *)
Record scan_state : Type := {
  high : Z;
  med : Z;
  low : Z;
  results_payload : list payload_row
}.

Definition count_row (st : scan_state) (r : payload_row) : scan_state :=
  let tier := risk_level (p_row r) in
  {| high := if String.eqb tier "Red" then high st + 1 else high st;
     med := if String.eqb tier "Yellow" then med st + 1 else med st;
     low := if String.eqb tier "Green" then low st + 1 else low st;
     results_payload := (results_payload st ++ [r])%list |}.

Fixpoint scan_loop (indexer : option (list dict)) (product_ids : list string)
    (st : scan_state) : result scan_state :=
  match product_ids with
  | [] => Ok st
  | pid :: rest =>
      r <- scan_one indexer pid ;;
      scan_loop indexer rest (count_row st r)
  end.

(** What a committed scan leaves: the [Scan] header and its rows, which
    are also the entries of the response. *)
Record scan_outcome : Type := {
  input_count : Z;
  high_risk_count : Z;
  medium_risk_count : Z;
  low_risk_count : Z;
  entries : list payload_row
}.

Inductive bad_request : Type :=
| MissingFile
| CsvParseFailed (e : exn)
| MissingProductIds.

Inductive response : Type :=
| Status400 (error : bad_request)
| ScanCreated (outcome : scan_outcome).

(** The two request forms.  For an upload, [file] is the field ['file']
    when present, with what [_normalize_ids_from_csv] returns or raises on
    it; for a JSON request, [body] is what [get_json(silent=True)] returns. *)
Inductive request : Type :=
| Multipart (file : option (result (list string)))
| JsonBody (body : option pyval).

Definition MAX_IDS : nat := 5000.

(** The identifiers a request submits, before the bound is applied. *)
Definition submitted_ids (req : request) : result (list string + bad_request) :=
  match req with
  | Multipart None => Ok (inr MissingFile)
  | Multipart (Some (Raise e)) => Ok (inr (CsvParseFailed e))
  | Multipart (Some (Ok ids)) => Ok (inl ids)
  | JsonBody body =>
      let data :=
        py_or (match body with Some v => v | None => PNone end) (PDict []) in
      match data with
      | PDict d =>
          xs <- iterate (get_default d "product_ids" (PList [])) ;;
          Ok (inl (filter (fun s => negb (is_empty s))
                     (map (fun x => strip (str x)) xs)))
      | _ => Raise AttributeError
      end
  end.

(** A value handed to SQLite for a [String] or [Text] column, which
    SQLAlchemy passes on as it is: [None], a bool, a string and an int of
    64 bits are bound; a larger int raises [OverflowError]; a list or a
    dict is refused by the driver ([DBAPIError] stands for the
    [sqlalchemy.exc] error that wraps the refusal). *)
Definition bind_param (v : pyval) : result unit :=
  match v with
  | PNone | PBool _ | PStr _ => Ok tt
  | PInt z =>
      if (- 2 ^ 63 <=? z) && (z <? 2 ^ 63) then Ok tt else Raise OverflowError
  | PList _ | PDict _ => Raise DBAPIError
  end.

(** The INSERT of one row: the four columns that hold product values are
    bound in the order of the table; the other columns hold strings built
    by the handler. *)
Definition insert_row (sr : ScanResult) : result unit :=
  _ <- bind_param (product_name sr) ;;
  _ <- bind_param (manufacturer_name sr) ;;
  _ <- bind_param (epd_url sr) ;;
  bind_param (epd_issue_date sr).

(** [db.session.commit()]: the rows added to the session during the loop
    are inserted in the order they were added; the first value that cannot
    be bound raises, and nothing is stored. *)
Definition commit (session : list ScanResult) : result unit :=
  _ <- mapM insert_row session ;;
  Ok tt.

Definition run_scan (indexer : option (list dict)) (product_ids : list string)
  : result response :=
  st <- scan_loop indexer product_ids
          {| high := 0; med := 0; low := 0; results_payload := [] |} ;;
  _ <- commit (map p_row (results_payload st)) ;;
  Ok (ScanCreated
        {| input_count := Z.of_nat (length product_ids);
           high_risk_count := high st;
           medium_risk_count := med st;
           low_risk_count := low st;
           entries := results_payload st |}).

(** [create_scan]: [Raise] is an exception that leaves the handler, in the
    loop or at the commit, after which nothing is stored. *)
Definition create_scan (indexer : option (list dict)) (req : request)
  : result response :=
  ids <- submitted_ids req ;;
  match ids with
  | inr err => Ok (Status400 err)
  | inl all_ids =>
      let product_ids := firstn MAX_IDS all_ids in
      match req, product_ids with
      | JsonBody _, [] => Ok (Status400 MissingProductIds)
      | _, _ => run_scan indexer product_ids
      end
  end.

End EpdApi.

(** * Properties *)

(** ** Facts about Python strings and values *)
Module PyFacts.
Import PyStr Py.

Lemma rstrip_empty (s : string) : is_empty (rstrip s) = all_space s.
Proof.
  induction s as [|c s IH]; simpl; [reflexivity|].
  destruct (rstrip s) eqn:E; simpl in IH; rewrite <- IH.
  - destruct (is_space c); reflexivity.
  - rewrite andb_false_r. reflexivity.
Qed.

Lemma lstrip_all_space (s : string) : all_space (lstrip s) = all_space s.
Proof.
  induction s as [|c s IH]; simpl; [reflexivity|].
  destruct (is_space c) eqn:E; simpl.
  - exact IH.
  - rewrite E. reflexivity.
Qed.

(** A string strips to the empty string exactly when it holds nothing but
    whitespace. *)
Lemma strip_empty (s : string) : is_empty (strip s) = all_space s.
Proof.
  unfold strip. rewrite rstrip_empty. apply lstrip_all_space.
Qed.

Lemma truthy_str (s : string) : truthy (PStr s) = negb (is_empty s).
Proof. reflexivity. Qed.

Lemma all_space_nonempty_truthy (s : string) :
  all_space s = false -> truthy (PStr s) = true.
Proof. destruct s; simpl; [discriminate | reflexivity]. Qed.

Lemma py_or_truthy (a b : pyval) : truthy a = true -> py_or a b = a.
Proof. unfold py_or. intros ->. reflexivity. Qed.

Lemma py_or_falsy (a b : pyval) : truthy a = false -> py_or a b = b.
Proof. unfold py_or. intros ->. reflexivity. Qed.

End PyFacts.

(** ** rule_engine.py *)
Module RuleEngineProps.
Import PyStr Py RuleEngine PyFacts.

(** The URL test in the words of the specification: the URL itself starts
    with [http://] or [https://], compared without regard to case. *)
Definition starts_with_scheme (url : string) : bool :=
  startswith (lower url) "http://" || startswith (lower url) "https://".

(** The URL test of the code: the same test on the stripped URL. *)
Definition is_absolute (url : string) : bool := starts_with_scheme (strip url).

(** The issue date counts when it is truthy and its text is not blank. *)
Definition has_issue_date (product : dict) : bool :=
  let d := get product "epd_issue_date" in
  truthy d && negb (all_space (str d)).

(** The four outcomes for a present URL. *)
Definition verdict (is_abs has_date : bool) : string * list string * list string :=
  match is_abs, has_date with
  | false, false =>
      ("Yellow", ["EPD link is relative and issue date is missing"], [manual_note])
  | false, true =>
      ("Yellow", ["EPD link is a relative path and may be inaccessible"], [manual_note])
  | true, false =>
      ("Yellow", ["EPD issue date is missing; validity cannot be verified"], [manual_note])
  | true, true =>
      ("Green", ["EPD link is accessible; please verify the issue date manually"],
       [manual_note])
  end.

Definition missing_link : string * list string * list string :=
  ("Red", ["Missing EPD file link"], [manual_note]).

(** The URL is absent, [None], empty or whitespace-only. *)
Definition url_missing (product : dict) : bool :=
  match lookup "epd_url" product with
  | None => true
  | Some PNone => true
  | Some (PStr s) => all_space s
  | Some _ => false
  end.

(** The claim in its own words, for a product whose URL, when present, is
    a string. *)
Definition table_as_stated (product : dict) : string * list string * list string :=
  if url_missing product then missing_link
  else match get product "epd_url" with
       | PStr s => verdict (starts_with_scheme s) (has_issue_date product)
       | _ => missing_link
       end.

Lemma has_issue_date_code (product : dict) :
  (let d := py_or (get product "epd_issue_date") PNone in
   truthy d && negb (is_empty (strip (str d)))) = has_issue_date product.
Proof.
  unfold has_issue_date. cbv zeta.
  destruct (truthy (get product "epd_issue_date")) eqn:E.
  - rewrite (py_or_truthy _ _ E), E, strip_empty. reflexivity.
  - rewrite (py_or_falsy _ _ E). reflexivity.
Qed.

Lemma evaluate_missing (product : dict) :
  truthy (get product "epd_url") = false \/
  (exists s, get product "epd_url" = PStr s /\ all_space s = true) ->
  evaluate_product product = Ok missing_link.
Proof.
  intros [H | [s [Hs Hb]]]; unfold evaluate_product; cbv zeta.
  - rewrite (py_or_falsy _ _ H). reflexivity.
  - rewrite Hs. destruct (truthy (PStr s)) eqn:E.
    + rewrite (py_or_truthy _ _ E). unfold blank_str.
      rewrite strip_empty, Hb, orb_true_r. reflexivity.
    + rewrite (py_or_falsy _ _ E). reflexivity.
Qed.

Lemma evaluate_present (product : dict) (s : string) :
  get product "epd_url" = PStr s -> all_space s = false ->
  evaluate_product product = Ok (verdict (is_absolute s) (has_issue_date product)).
Proof.
  intros Hs Hb. pose proof (has_issue_date_code product) as Hd.
  unfold evaluate_product; cbv zeta in *.
  rewrite Hd, Hs, (py_or_truthy _ _ (all_space_nonempty_truthy s Hb)).
  rewrite (all_space_nonempty_truthy s Hb). unfold blank_str.
  rewrite strip_empty, Hb. cbn [negb orb].
  unfold _is_absolute_url, bind.
  change (startswith (lower (strip s)) "http://" || startswith (lower (strip s)) "https://")
    with (is_absolute s).
  destruct (is_absolute s), (has_issue_date product); reflexivity.
Qed.

(** C1, as amended.  A product whose ['epd_url'] is absent, falsy or a
    whitespace-only string is Red with the reason "Missing EPD file link";
    a product whose ['epd_url'] is any other string gets the tier and the
    single reason of the four-way table, where the link is absolute when
    the URL with its surrounding whitespace stripped starts with [http://]
    or [https://] in any letter case, and the issue date counts when it is
    truthy and not blank.  The advisories are the standing note in every
    case. *)
Theorem evaluate_product_table (product : dict) :
  (truthy (get product "epd_url") = false ->
   evaluate_product product = Ok missing_link)
  /\ (forall s, get product "epd_url" = PStr s ->
        evaluate_product product =
        Ok (if all_space s then missing_link
            else verdict (is_absolute s) (has_issue_date product))).
Proof.
  split.
  - intros H. apply evaluate_missing. left. exact H.
  - intros s Hs. destruct (all_space s) eqn:Hb.
    + apply evaluate_missing. right. exists s. split; assumption.
    + apply evaluate_present; assumption.
Qed.

(** The table applied to a product with no URL and to one with an
    absolute link and a date. *)
Lemma evaluate_product_table_witness :
  evaluate_product [("product_name", PStr "Plank")] = Ok missing_link
  /\ evaluate_product
       [("epd_url", PStr "HTTPS://epd.example/plank.pdf");
        ("epd_issue_date", PStr "2021-05-01")]
     = Ok ("Green",
           ["EPD link is accessible; please verify the issue date manually"],
           [manual_note]).
Proof.
  split.
  - apply (proj1 (evaluate_product_table [("product_name", PStr "Plank")])).
    reflexivity.
  - apply (proj2 (evaluate_product_table
                    [("epd_url", PStr "HTTPS://epd.example/plank.pdf");
                     ("epd_issue_date", PStr "2021-05-01")])
             "HTTPS://epd.example/plank.pdf").
    reflexivity.
Defined.

Definition padded_url_product : dict :=
  [("epd_url", PStr " http://epd.example/plank.pdf");
   ("epd_issue_date", PStr "2021-05-01")].

(** C1 as stated fails: a URL with a leading blank before [http://] does
    not start with the scheme, so the stated table gives Yellow with the
    relative-path reason, while the code strips the URL and answers
    Green. *)
Lemma evaluate_product_table_counterexample :
  table_as_stated padded_url_product =
    ("Yellow", ["EPD link is a relative path and may be inaccessible"], [manual_note])
  /\ evaluate_product padded_url_product =
       Ok ("Green",
           ["EPD link is accessible; please verify the issue date manually"],
           [manual_note])
  /\ evaluate_product padded_url_product <> Ok (table_as_stated padded_url_product).
Proof.
  split; [reflexivity|]. split; [reflexivity|].
  vm_compute. discriminate.
Qed.

(** C6 at a failing input: a product whose ['epd_url'] is the number 123
    passes the existence test and reaches [_is_absolute_url], where
    [url.strip()] raises [AttributeError]. *)
Theorem evaluate_product_raises_on_numeric_url :
  evaluate_product [("epd_url", PInt 123)] = Raise AttributeError.
Proof. reflexivity. Qed.

(** The raise is the only way to fail, and only a truthy URL that is not a
    string triggers it. *)
Lemma evaluate_product_raises_iff (product : dict) :
  (exists e, evaluate_product product = Raise e) <->
  (truthy (get product "epd_url") = true /\
   forall s, get product "epd_url" <> PStr s).
Proof.
  split.
  - intros [e He]. destruct (truthy (get product "epd_url")) eqn:T.
    + split; [reflexivity|]. intros s Hs. destruct (all_space s) eqn:Hb.
      * rewrite evaluate_missing in He; [discriminate|].
        right. exists s. split; assumption.
      * rewrite (evaluate_present product s Hs Hb) in He. discriminate.
    + rewrite evaluate_missing in He; [discriminate | left; exact T].
  - intros [T Hn]. exists AttributeError. unfold evaluate_product; cbv zeta.
    rewrite (py_or_truthy _ _ T), T.
    destruct (get product "epd_url"); try reflexivity.
    exfalso. apply (Hn s). reflexivity.
Qed.

End RuleEngineProps.

(** ** product_indexer.py *)
Module ProductIndexerProps.
Import PyStr Py ProductIndexer.

(** The product's ['id'] is present and differs from [pid] under [==]. *)
Definition id_differs (pid : pyval) (q : dict) : Prop :=
  exists v, lookup "id" q = Some v /\ py_eq v pid = false.

(** The product's ['id'] is present and equals [pid] under [==]. *)
Definition id_equals (pid : pyval) (q : dict) : Prop :=
  exists v, lookup "id" q = Some v /\ py_eq v pid = true.

(** The lookup in the words of the specification: identifiers are
    compared by their string form. *)
Definition get_by_normalized_id (products : list dict) (product_id : pyval)
  : option dict :=
  find (fun p => String.eqb (str (get p "id")) (str product_id)) products.

Lemma get_product_by_id_found (products : list dict) (pid : pyval) (p : dict) :
  get_product_by_id products pid = Ok (Some p) <->
  exists before after,
    products = (before ++ p :: after)%list
    /\ Forall (id_differs pid) before
    /\ id_equals pid p.
Proof.
  induction products as [|q rest IH]; simpl.
  - split; [discriminate|]. intros (b & a & H & _). destruct b; discriminate.
  - unfold subscript. destruct (lookup "id" q) as [v|] eqn:L; simpl.
    + destruct (py_eq v pid) eqn:E.
      * split.
        -- intros H. injection H as <-. exists [], rest.
           repeat split; [constructor | exists v; auto].
        -- intros (b & a & H & Hb & He). destruct b as [|q' b].
           ++ simpl in H. injection H as -> _. reflexivity.
           ++ simpl in H. injection H as <- _. inversion Hb as [|? ? [v' [L' E']] _]; subst.
              rewrite L in L'. injection L' as <-. congruence.
      * rewrite IH. split.
        -- intros (b & a & H & Hb & He). exists (q :: b), a. subst rest.
           repeat split; [constructor; [exists v; auto | exact Hb] | exact He].
        -- intros (b & a & H & Hb & He). destruct b as [|q' b].
           ++ simpl in H. injection H as -> _. destruct He as [v' [L' E']].
              rewrite L in L'. injection L' as <-. congruence.
           ++ simpl in H. injection H as <- ->. exists b, a.
              inversion Hb; subst. repeat split; assumption.
    + split; [discriminate|]. intros (b & a & H & Hb & He). destruct b as [|q' b].
      * simpl in H. injection H as -> _. destruct He as [v' [L' _]]. congruence.
      * simpl in H. injection H as <- _. inversion Hb as [|? ? [v' [L' _]] _]; subst.
        congruence.
Qed.

(** C5, as amended.  [get_product_by_id] returns a product exactly when it
    is the first one of the catalog whose ['id'] equals the requested
    identifier under Python's [==], every earlier product carrying an
    ['id'] that differs; the identifiers are not brought to a string form,
    and a number never equals a string, so the string form of a
    numerically stored id finds nothing. *)
Theorem get_product_by_id_exact_match (products : list dict) (pid : pyval) (p : dict) :
  (get_product_by_id products pid = Ok (Some p) <->
   exists before after,
     products = (before ++ p :: after)%list
     /\ Forall (id_differs pid) before
     /\ id_equals pid p)
  /\ (forall z s, py_eq (PInt z) (PStr s) = false /\ py_eq (PStr s) (PInt z) = false).
Proof.
  split; [apply get_product_by_id_found|]. intros z s. split; reflexivity.
Qed.

Definition plank_catalog : list dict :=
  [[("id", PInt 7); ("product_name", PStr "Tile")];
   [("id", PInt 1221); ("product_name", PStr "Plank")]].

(** C5 as stated fails: the product stored under the number 1221 is found
    by the number and by a comparison of string forms, and not by
    [get_product_by_id] at the string form of the number. *)
Lemma get_product_by_id_counterexample :
  str (PInt 1221) = "1221"
  /\ get_product_by_id plank_catalog (PInt 1221)
     = Ok (Some [("id", PInt 1221); ("product_name", PStr "Plank")])
  /\ get_by_normalized_id plank_catalog (PStr "1221")
     = Some [("id", PInt 1221); ("product_name", PStr "Plank")]
  /\ get_product_by_id plank_catalog (PStr "1221") = Ok None.
Proof. repeat split; reflexivity. Qed.

End ProductIndexerProps.

(** ** app.py *)
Module AppProps.
Import App.

Lemma per_page_50 : Z.min 100 (Z.max 10 50) = 50.
Proof. reflexivity. Qed.

(** C9.  For a result list of 97 items and [per_page = 50]: there are 2
    pages; page 2 holds the items after the first 50, which are 47, the
    item at offset [i] of the page being item [50 + i] of the list; and
    every page beyond the second is empty, with count 0. *)
Theorem search_pagination_97 (A : Type) (all_results : list A) :
  length all_results = 97%nat ->
  total_pages (search_paginate all_results 2 50) = 2
  /\ results (search_paginate all_results 2 50) = skipn 50 all_results
  /\ length (results (search_paginate all_results 2 50)) = 47%nat
  /\ (forall i, nth_error (results (search_paginate all_results 2 50)) i
                = nth_error all_results (50 + i))
  /\ (forall page, 2 < page ->
        results (search_paginate all_results page 50) = []
        /\ count (search_paginate all_results page 50) = 0
        /\ total_pages (search_paginate all_results page 50) = 2).
Proof.
  intros Hlen.
  assert (Hp2 : results (search_paginate all_results 2 50) = skipn 50 all_results).
  { unfold search_paginate, slice. cbn [results].
    change (Z.min 100 (Z.max 10 50)) with 50. change (Z.max 1 2) with 2.
    change (Z.to_nat ((2 - 1) * 50 + 50 - (2 - 1) * 50)) with 50%nat.
    change (Z.to_nat ((2 - 1) * 50)) with 50%nat.
    apply firstn_all2. rewrite length_skipn, Hlen. lia. }
  split; [|split; [exact Hp2|split; [|split]]].
  - unfold search_paginate. cbn [total_pages]. rewrite Hlen. reflexivity.
  - rewrite Hp2, length_skipn, Hlen. reflexivity.
  - intros i. rewrite Hp2. apply nth_error_skipn.
  - intros page Hpage. unfold search_paginate, slice. cbn [results count total_pages].
    change (Z.min 100 (Z.max 10 50)) with 50.
    rewrite (Z.max_r 1 page) by lia.
    assert (Hskip : skipn (Z.to_nat ((page - 1) * 50)) all_results = []).
    { apply skipn_all2. rewrite Hlen. lia. }
    rewrite Hskip, firstn_nil, Hlen. repeat split; reflexivity.
Qed.

(** The 97 items numbered 1 to 97: page 2 is the items 51 to 97. *)
Lemma search_pagination_97_witness :
  total_pages (search_paginate (seq 1 97) 2 50) = 2
  /\ results (search_paginate (seq 1 97) 2 50) = seq 51 47.
Proof.
  destruct (search_pagination_97 nat (seq 1 97) eq_refl) as (H1 & H2 & _).
  split; [exact H1 | rewrite H2; reflexivity].
Defined.

End AppProps.

(** ** search_engine.py: the semantic retriever *)
Module SemanticSearchProps.
Import PyStr Py SearchEngine.

(** Descending order of the similarity, on catalog entries and on
    results. *)
Definition desc (a b : nat * Q) : Prop := (snd b <= snd a)%Q.

(** The filter test of the loop on one product. *)
Definition filter_test (filters : pyval) (product : dict) : result bool :=
  if truthy filters then _passes_filters product filters else Ok true.

(** A catalog entry is eligible when its score is not below the threshold,
    its product exists and the filters accept it. *)
Definition eligible (products : list dict) (filters : pyval) (e : nat * Q) : bool :=
  negb (Qltb (snd e) Config.SIMILARITY_THRESHOLD)
  && match nth_error products (fst e) with
     | Some product =>
         match filter_test filters product with
         | Ok true => true
         | _ => false
         end
     | None => false
     end.

(** The result built from an entry. *)
Definition scored_at (products : list dict) (e : nat * Q) : scored :=
  {| sp_product := nth (fst e) products []; similarity_score := snd e |}.

Lemma in_firstn {A : Type} (n : nat) (l : list A) (x : A) :
  In x (firstn n l) -> In x l.
Proof.
  intros H. rewrite <- (firstn_skipn n l). apply in_or_app. left. exact H.
Qed.


Lemma insert_desc_perm (x : nat * Q) (l : list (nat * Q)) :
  Permutation (insert_desc x l) (x :: l).
Proof.
  induction l as [|y l IH]; simpl; [reflexivity|].
  destruct (Qle_bool (snd y) (snd x)); [reflexivity|].
  rewrite IH. apply perm_swap.
Qed.

Lemma sort_desc_perm (l : list (nat * Q)) : Permutation (sort_desc l) l.
Proof.
  induction l as [|x l IH]; simpl; [reflexivity|].
  rewrite insert_desc_perm, IH. reflexivity.
Qed.

Lemma desc_trans (a b c : nat * Q) : desc a b -> desc b c -> desc a c.
Proof. unfold desc. intros H1 H2. eapply Qle_trans; eassumption. Qed.







(** One turn of the loop. *)
Lemma collect_cons (products : list dict) (filters : pyval) (K : Z) (idx : nat) (s : Q)
    (rest : list (nat * Q)) (acc : list scored) :
  collect products filters K ((idx, s) :: rest) acc =
  if Qltb s Config.SIMILARITY_THRESHOLD then collect products filters K rest acc
  else match nth_error products idx with
       | None => Raise IndexError
       | Some product =>
           pass <- filter_test filters product ;;
           if negb pass then collect products filters K rest acc
           else
             let acc' :=
               (acc ++ [{| sp_product := product; similarity_score := s |}])%list in
             if Z.of_nat (length acc') >=? K then Ok acc'
             else collect products filters K rest acc'
       end.
Proof. reflexivity. Qed.

Lemma eligible_cons (products : list dict) (filters : pyval) (idx : nat) (s : Q) :
  eligible products filters (idx, s) =
  negb (Qltb s Config.SIMILARITY_THRESHOLD)
  && match nth_error products idx with
     | Some product =>
         match filter_test filters product with Ok true => true | _ => false end
     | None => false
     end.
Proof. reflexivity. Qed.

(** What the loop returns: the results gathered so far, followed by the
    first eligible entries that remain, as many as are still wanted and at
    least one. *)
Lemma collect_spec (products : list dict) (filters : pyval) (K : Z)
    (sims : list (nat * Q)) :
  forall (acc r : list scored),
    collect products filters K sims acc = Ok r ->
    r = (acc ++ map (scored_at products)
                  (firstn (Z.to_nat (Z.max 1 (K - Z.of_nat (length acc))))
                     (filter (eligible products filters) sims)))%list.
Proof.
  induction sims as [|[idx s] rest IH]; intros acc r H.
  - simpl in H. injection H as <-. simpl. rewrite firstn_nil. simpl.
    rewrite app_nil_r. reflexivity.
  - rewrite collect_cons in H. cbn [filter]. rewrite eligible_cons.
    destruct (Qltb s Config.SIMILARITY_THRESHOLD) eqn:Et.
    + cbn [negb andb]. apply IH. exact H.
    + destruct (nth_error products idx) as [product|] eqn:En; [|discriminate].
      cbn [negb andb].
      destruct (filter_test filters product) as [[|]|e] eqn:Ef;
        cbn [bind negb] in H; [| apply IH; exact H | discriminate].
      cbv zeta in H. rewrite length_app in H. cbn [length] in H.
      assert (Hat : scored_at products (idx, s)
                    = {| sp_product := product; similarity_score := s |}).
      { unfold scored_at. cbn [fst snd]. f_equal.
        apply nth_error_nth. exact En. }
      pose proof (Zge_cases (Z.of_nat (length acc + 1)) K) as Hc.
      destruct (Z.of_nat (length acc + 1) >=? K) eqn:Ek.
      * injection H as <-.
        replace (Z.max 1 (K - Z.of_nat (length acc))) with 1 by lia.
        change (Z.to_nat 1) with 1%nat. cbn [firstn map]. rewrite Hat. reflexivity.
      * apply IH in H. rewrite H, length_app. cbn [length].
        replace (Z.to_nat (Z.max 1 (K - Z.of_nat (length acc))))
          with (S (Z.to_nat (Z.max 1 (K - Z.of_nat (length acc + 1))))) by lia.
        cbn [firstn map]. rewrite Hat, <- app_assoc. reflexivity.
Qed.

Lemma eligible_above_threshold (products : list dict) (filters : pyval) (e : nat * Q) :
  eligible products filters e = true -> (Config.SIMILARITY_THRESHOLD <= snd e)%Q.
Proof.
  unfold eligible, Qltb. intros H. apply andb_prop in H. destruct H as [H _].
  rewrite negb_involutive in H. apply Qle_bool_iff. exact H.
Qed.

(** *** When the search returns *)

Definition is_dict (v : pyval) : bool :=
  match v with PDict _ => true | _ => false end.

Definition list_of_dicts (v : pyval) : bool :=
  match v with PList l => forallb is_dict l | _ => false end.

(** The two list fields the filters read hold lists of records (an absent
    field counts as the empty list). *)
Definition wf_product (p : dict) : bool :=
  list_of_dicts (get_default p "product_categories" (PList []))
  && list_of_dicts (get_default p "certifications" (PList [])).

Definition list_or_falsy (v : pyval) : bool :=
  negb (truthy v) || match v with PList _ => true | _ => false end.

(** No filters, or a dict whose three list-valued filters are lists when
    they are set. *)
Definition wf_filters (f : pyval) : bool :=
  negb (truthy f)
  || match f with
     | PDict d =>
         list_or_falsy (get d "categories")
         && list_or_falsy (get d "manufacturers")
         && list_or_falsy (get d "certifications")
     | _ => false
     end.

Lemma any_in_list (xs w : list pyval) :
  any_in xs (PList w) = Ok (existsb (fun x => existsb (py_eq x) w) xs).
Proof.
  induction xs as [|x xs IH]; simpl; [reflexivity|].
  destruct (existsb (py_eq x) w); [reflexivity | exact IH].
Qed.

Lemma mapM_method_get (k : string) (l : list pyval) :
  forallb is_dict l = true -> exists names, mapM (fun c => method_get c k) l = Ok names.
Proof.
  induction l as [|c l IH]; simpl; intros H.
  - eexists; reflexivity.
  - apply andb_prop in H. destruct H as [Hc Hl].
    destruct (IH Hl) as [names ->]. destruct c; try discriminate.
    simpl. eexists; reflexivity.
Qed.

Lemma list_filter_section (p : dict) (list_key name_key : string) (v : pyval) :
  list_of_dicts (get_default p list_key (PList [])) = true ->
  list_or_falsy v = true ->
  exists b, (if truthy v then passes_any p list_key name_key v else Ok true) = Ok b.
Proof.
  intros Hp Hv. destruct (truthy v) eqn:T; [|eexists; reflexivity].
  unfold list_or_falsy in Hv. rewrite T in Hv. destruct v; try discriminate.
  unfold passes_any. destruct (get_default p list_key (PList [])); try discriminate.
  cbn [iterate bind]. destruct (mapM_method_get name_key _ Hp) as [names ->].
  cbn [bind]. rewrite any_in_list. eexists; reflexivity.
Qed.

Lemma manufacturer_section (x v : pyval) :
  list_or_falsy v = true ->
  exists b, (if truthy v then py_in x v else Ok true) = Ok b.
Proof.
  intros Hv. destruct (truthy v) eqn:T; [|eexists; reflexivity].
  unfold list_or_falsy in Hv. rewrite T in Hv. destruct v; try discriminate.
  eexists; reflexivity.
Qed.

Lemma filter_test_total (filters : pyval) (p : dict) :
  wf_filters filters = true -> wf_product p = true ->
  exists b, filter_test filters p = Ok b.
Proof.
  unfold filter_test, wf_filters, wf_product. intros Hf Hp.
  destruct (truthy filters) eqn:T; [|eexists; reflexivity].
  destruct filters; try discriminate. cbn [negb orb] in Hf.
  apply andb_prop in Hf. destruct Hf as [Hf H3].
  apply andb_prop in Hf. destruct Hf as [H1 H2].
  apply andb_prop in Hp. destruct Hp as [Hc Hz].
  unfold _passes_filters. cbn [method_get bind].
  destruct (list_filter_section p "product_categories" "category_name" _ Hc H1)
    as [b1 ->].
  cbn [bind]. destruct b1; cbn [negb]; [|eexists; reflexivity].
  destruct (manufacturer_section (get p "manufacturer_name") _ H2) as [b2 ->].
  cbn [bind]. destruct b2; cbn [negb]; [|eexists; reflexivity].
  destruct (list_filter_section p "certifications" "certification" _ Hz H3)
    as [b3 ->].
  cbn [bind]. destruct b3; cbn [negb]; [|eexists; reflexivity].
  destruct (truthy (get d "has_certifications") && negb (truthy (get p "certifications")));
    [eexists; reflexivity|].
  destruct (truthy (get d "has_carbon_data") && negb (truthy (get p "net_carbon_emissions")));
    eexists; reflexivity.
Qed.

Lemma collect_total (products : list dict) (filters : pyval) (K : Z)
    (sims : list (nat * Q)) :
  wf_filters filters = true ->
  forallb wf_product products = true ->
  Forall (fun e => (fst e < length products)%nat) sims ->
  forall acc, exists r, collect products filters K sims acc = Ok r.
Proof.
  intros Hf Hp Hs. induction Hs as [|[idx s] rest Hidx Hrest IH]; intros acc.
  - eexists; reflexivity.
  - rewrite collect_cons.
    destruct (Qltb s Config.SIMILARITY_THRESHOLD); [apply IH|].
    cbn [fst] in Hidx. destruct (nth_error products idx) as [product|] eqn:En.
    + assert (Hw : wf_product product = true).
      { rewrite forallb_forall in Hp. apply Hp. eapply nth_error_In; eassumption. }
      destruct (filter_test_total filters product Hf Hw) as [b ->].
      cbn [bind]. destruct b; cbn [negb]; [|apply IH].
      cbv zeta. destruct (_ >=? K); [eexists; reflexivity | apply IH].
    + apply nth_error_None in En. lia.
Qed.

Lemma enumerate_from_bound {A : Type} (l : list A) :
  forall i, Forall (fun e => (i <= fst e < i + length l)%nat) (enumerate_from i l).
Proof.
  induction l as [|x l IH]; intros i; simpl; constructor.
  - simpl. lia.
  - eapply Forall_impl; [|apply (IH (S i))]. intros e He. simpl in He. lia.
Qed.

Lemma semantic_search_total (products : list dict) (scores : list Q)
    (top_k : option Z) (filters : pyval) :
  wf_filters filters = true ->
  forallb wf_product products = true ->
  (length scores <= length products)%nat ->
  exists r, semantic_search true products scores top_k filters = Ok r.
Proof.
  intros Hf Hp Hlen. unfold semantic_search. cbn [negb].
  apply collect_total; try assumption.
  eapply Permutation_Forall; [symmetry; apply sort_desc_perm|].
  eapply Forall_impl; [|apply (enumerate_from_bound scores 0)].
  intros e He. simpl in He. lia.
Qed.






Definition demo_products : list dict :=
  [[("id", PInt 1); ("manufacturer_name", PStr "Acme")];
   [("id", PInt 2); ("manufacturer_name", PStr "Birch")];
   [("id", PInt 3); ("manufacturer_name", PStr "Acme")]].

Definition demo_scores : list Q := [1 # 2; 1 # 5; 9 # 10].



End SemanticSearchProps.

(** ** search_engine.py: adding a filter *)
Module FilterProps.
Import PyStr Py SearchEngine SemanticSearchProps.

(** [wider] is [narrower] with filters added: either [narrower] is no
    filter at all, or both are dicts and every binding of [narrower] is a
    binding of [wider]. *)
Definition filters_extend (narrower wider : pyval) : Prop :=
  truthy narrower = false
  \/ exists d d',
       narrower = PDict d /\ wider = PDict d'
       /\ forall k v, lookup k d = Some v -> lookup k d' = Some v.

(** The body of [_passes_filters] on the five filter values. *)
Definition passes_values (product : dict)
    (categories manufacturers certifications has_certifications has_carbon_data : pyval)
  : result bool :=
  ok_cat <- (if truthy categories
             then passes_any product "product_categories" "category_name" categories
             else Ok true) ;;
  if negb ok_cat then Ok false else
  ok_man <- (if truthy manufacturers
             then py_in (get product "manufacturer_name") manufacturers
             else Ok true) ;;
  if negb ok_man then Ok false else
  ok_cert <- (if truthy certifications
              then passes_any product "certifications" "certification" certifications
              else Ok true) ;;
  if negb ok_cert then Ok false else
  if truthy has_certifications && negb (truthy (get product "certifications"))
  then Ok false else
  if truthy has_carbon_data && negb (truthy (get product "net_carbon_emissions"))
  then Ok false else
  Ok true.

Lemma passes_filters_values (product : dict) (d : dict) :
  _passes_filters product (PDict d) =
  passes_values product (get d "categories") (get d "manufacturers")
    (get d "certifications") (get d "has_certifications") (get d "has_carbon_data").
Proof.
  reflexivity.
Qed.

(** Unsetting a filter value keeps an accepted product accepted. *)
Lemma passes_values_unset (product : dict) (c m z hc hd c' m' z' hc' hd' : pyval) :
  (c = c' \/ c = PNone) -> (m = m' \/ m = PNone) -> (z = z' \/ z = PNone) ->
  (hc = hc' \/ hc = PNone) -> (hd = hd' \/ hd = PNone) ->
  passes_values product c' m' z' hc' hd' = Ok true ->
  passes_values product c m z hc hd = Ok true.
Proof.
  intros Hc Hm Hz Hhc Hhd H. unfold passes_values in *.
  destruct (if truthy c' then _ else _) as [[|]|] eqn:E1; cbn [bind negb] in H;
    try discriminate.
  destruct (if truthy m' then _ else _) as [[|]|] eqn:E2; cbn [bind negb] in H;
    try discriminate.
  destruct (if truthy z' then _ else _) as [[|]|] eqn:E3; cbn [bind negb] in H;
    try discriminate.
  destruct (truthy hc' && _) eqn:E4; try discriminate.
  destruct (truthy hd' && _) eqn:E5; try discriminate.
  assert (G1 : (if truthy c
                then passes_any product "product_categories" "category_name" c
                else Ok true) = Ok true).
  { destruct Hc as [-> | ->]; [exact E1 | reflexivity]. }
  assert (G2 : (if truthy m then py_in (get product "manufacturer_name") m
                else Ok true) = Ok true).
  { destruct Hm as [-> | ->]; [exact E2 | reflexivity]. }
  assert (G3 : (if truthy z
                then passes_any product "certifications" "certification" z
                else Ok true) = Ok true).
  { destruct Hz as [-> | ->]; [exact E3 | reflexivity]. }
  assert (G4 : truthy hc && negb (truthy (get product "certifications")) = false).
  { destruct Hhc as [-> | ->]; [exact E4 | reflexivity]. }
  assert (G5 : truthy hd && negb (truthy (get product "net_carbon_emissions")) = false).
  { destruct Hhd as [-> | ->]; [exact E5 | reflexivity]. }
  rewrite G1. cbn [bind negb]. rewrite G2. cbn [bind negb]. rewrite G3.
  cbn [bind negb]. rewrite G4, G5. reflexivity.
Qed.

Lemma get_extend (d d' : dict) (k : string) :
  (forall k v, lookup k d = Some v -> lookup k d' = Some v) ->
  get d k = get d' k \/ get d k = PNone.
Proof.
  intros H. unfold get. destruct (lookup k d) as [v|] eqn:L.
  - left. rewrite (H k v L). reflexivity.
  - right. reflexivity.
Qed.

(** A product the wider filters accept is accepted by the narrower. *)
Lemma filter_test_extend (narrower wider : pyval) (product : dict) :
  filters_extend narrower wider ->
  filter_test wider product = Ok true ->
  filter_test narrower product = Ok true.
Proof.
  intros [Hn | (d & d' & -> & -> & Hsub)] H; unfold filter_test in *.
  - rewrite Hn. reflexivity.
  - destruct (truthy (PDict d)) eqn:T; [|reflexivity].
    assert (T' : truthy (PDict d') = true).
    { destruct d as [|[k v] d]; [discriminate|].
      specialize (Hsub k v). simpl in Hsub. rewrite String.eqb_refl in Hsub.
      specialize (Hsub eq_refl). destruct d'; [discriminate | reflexivity]. }
    rewrite T' in H. rewrite passes_filters_values in *.
    eapply passes_values_unset; [..|exact H]; apply get_extend; exact Hsub.
Qed.

(** The loop never returns more than it was asked for, unless it started
    above that. *)
Lemma collect_length (products : list dict) (filters : pyval) (K : Z)
    (sims : list (nat * Q)) :
  forall acc r,
    collect products filters K sims acc = Ok r ->
    Z.of_nat (length acc) <= Z.of_nat (length r)
    /\ Z.of_nat (length r) <= Z.max (Z.of_nat (length acc) + 1) K.
Proof.
  intros acc r H. apply collect_spec in H. subst r.
  rewrite length_app, length_map, length_firstn. lia.
Qed.

Lemma collect_extend (products : list dict) (narrower wider : pyval) (K : Z)
    (sims : list (nat * Q)) :
  filters_extend narrower wider ->
  forall acc acc' r r',
    (length acc' <= length acc)%nat ->
    collect products narrower K sims acc = Ok r ->
    collect products wider K sims acc' = Ok r' ->
    (length r' <= length r)%nat.
Proof.
  intros Hext. induction sims as [|[idx s] rest IH]; intros acc acc' r r' Hacc H H'.
  - simpl in H, H'. injection H as <-. injection H' as <-. exact Hacc.
  - rewrite collect_cons in H, H'.
    destruct (Qltb s Config.SIMILARITY_THRESHOLD); [eapply IH; eassumption|].
    destruct (nth_error products idx) as [product|]; [|discriminate].
    pose proof (filter_test_extend narrower wider product Hext) as Hmono.
    destruct (filter_test wider product) as [[|]|] eqn:E'; cbn [bind negb] in H';
      [| |discriminate].
    + rewrite (Hmono eq_refl) in H. cbn [bind negb] in H. cbv zeta in H, H'.
      rewrite length_app in H, H'. cbn [length] in H, H'.
      pose proof (Zge_cases (Z.of_nat (length acc + 1)) K) as Hc.
      pose proof (Zge_cases (Z.of_nat (length acc' + 1)) K) as Hc'.
      destruct (Z.of_nat (length acc + 1) >=? K);
        destruct (Z.of_nat (length acc' + 1) >=? K).
      * injection H as <-. injection H' as <-. rewrite !length_app. simpl. lia.
      * injection H as <-. apply collect_length in H'.
        rewrite length_app in *. cbn [length] in *. lia.
      * lia.
      * eapply IH; [|exact H|exact H']. rewrite !length_app. simpl. lia.
    + destruct (filter_test narrower product) as [[|]|]; cbn [bind negb] in H;
        [| |discriminate].
      * cbv zeta in H. rewrite length_app in H. cbn [length] in H.
        pose proof (Zge_cases (Z.of_nat (length acc + 1)) K) as Hc.
        destruct (Z.of_nat (length acc + 1) >=? K).
        -- injection H as <-. apply collect_length in H'.
           rewrite length_app. cbn [length]. lia.
        -- eapply IH; [|exact H|exact H']. rewrite length_app. simpl. lia.
      * eapply IH; eassumption.
Qed.

Lemma additional_filter_length (has_client : bool) (products : list dict)
    (scores : list Q) (top_k : option Z) (narrower wider : pyval)
    (r r' : list scored) :
  filters_extend narrower wider ->
  semantic_search has_client products scores top_k narrower = Ok r ->
  semantic_search has_client products scores top_k wider = Ok r' ->
  (length r' <= length r)%nat.
Proof.
  intros Hext H H'. unfold semantic_search in *.
  destruct has_client; [|discriminate]. cbn [negb] in *.
  eapply collect_extend; [exact Hext| |exact H|exact H']. reflexivity.
Qed.

(** C7.  With the same catalog, scores and [top_k], and [wider] being
    [narrower] with filters added (or [narrower] being no filter at all):
    whenever the two searches return, the one with [wider] gives at most
    as many results as the one with [narrower]; and both do return when
    the client is there, the catalog and both filter sets are well formed
    and no embedding lacks its product. *)
Theorem additional_filter_never_adds (has_client : bool) (products : list dict)
    (scores : list Q) (top_k : option Z) (narrower wider : pyval) :
  filters_extend narrower wider ->
  (forall r r',
     semantic_search has_client products scores top_k narrower = Ok r ->
     semantic_search has_client products scores top_k wider = Ok r' ->
     (length r' <= length r)%nat)
  /\ (has_client = true ->
      wf_filters narrower = true -> wf_filters wider = true ->
      forallb wf_product products = true ->
      (length scores <= length products)%nat ->
      exists r r',
        semantic_search has_client products scores top_k narrower = Ok r
        /\ semantic_search has_client products scores top_k wider = Ok r'
        /\ (length r' <= length r)%nat).
Proof.
  intros Hext. split.
  - intros r r'. apply additional_filter_length. exact Hext.
  - intros -> Hn Hw Hp Hlen.
    destruct (semantic_search_total products scores top_k narrower Hn Hp Hlen) as [r Hr].
    destruct (semantic_search_total products scores top_k wider Hw Hp Hlen) as [r' Hr'].
    exists r, r'. split; [exact Hr|]. split; [exact Hr'|].
    eapply additional_filter_length; eassumption.
Qed.

Definition acme_only : pyval :=
  PDict [("manufacturers", PList [PStr "Acme"])].

Definition acme_with_carbon_data : pyval :=
  PDict [("manufacturers", PList [PStr "Acme"]); ("has_carbon_data", PBool true)].

Lemma acme_filters_extend : filters_extend acme_only acme_with_carbon_data.
Proof.
  right. exists [("manufacturers", PList [PStr "Acme"])].
  exists [("manufacturers", PList [PStr "Acme"]); ("has_carbon_data", PBool true)].
  split; [reflexivity|]. split; [reflexivity|].
  intros k v H. simpl in *.
  destruct (String.eqb k "manufacturers"); [exact H | discriminate].
Defined.

(** Restricting the search for the manufacturer Acme to products with
    carbon data takes its two results down to none. *)
Lemma additional_filter_never_adds_witness :
  exists r r',
    semantic_search true demo_products demo_scores (Some 2) acme_only = Ok r
    /\ semantic_search true demo_products demo_scores (Some 2) acme_with_carbon_data
       = Ok r'
    /\ length r = 2%nat /\ length r' = 0%nat
    /\ (length r' <= length r)%nat.
Proof.
  eexists. eexists.
  split; [reflexivity|]. split; [reflexivity|].
  split; [reflexivity|]. split; [reflexivity|].
  apply (proj1 (additional_filter_never_adds true demo_products demo_scores (Some 2)
                  acme_only acme_with_carbon_data acme_filters_extend));
    reflexivity.
Defined.

End FilterProps.

(** ** search_engine.py: the rank refiner *)
Module RefineProps.
Import PyStr Py SearchEngine.

Section WithParser.

Variable json_loads : string -> option pyval.

(** C3 at a failing input: the provider call raises [json.JSONDecodeError]
    before [content] is assigned.  The first handler is selected and its
    [print] of [content[:200]] raises [UnboundLocalError], which leaves
    [llm_refine_results] instead of the fallback being returned. *)
Theorem llm_refine_results_unbound_content (p : scored) (ps : list scored) :
  llm_refine_results json_loads true (Raise JSONDecodeError) (p :: ps)
  = Raise UnboundLocalError.
Proof. reflexivity. Qed.

(** Apart from that input the refiner never raises. *)
Lemma llm_refine_results_returns (has_client : bool)
    (completion : result (option string)) (products : list scored) :
  completion <> Raise JSONDecodeError ->
  exists r, llm_refine_results json_loads has_client completion products = Ok r.
Proof.
  intros Hc. unfold llm_refine_results.
  destruct products as [|p ps]; [eexists; reflexivity|].
  destruct has_client; cbn [negb]; [|eexists; reflexivity].
  destruct completion as [[raw|]|e].
  - destruct (refine_parsed json_loads (strip raw) (p :: ps)); eexists; reflexivity.
  - eexists; reflexivity.
  - destruct e; try (eexists; reflexivity). contradiction.
Qed.

(** The refiner falls back to the first [TOP_K_FINAL] candidates when
    there is no client, when the provider call raises anything but
    [json.JSONDecodeError], when the reply has no content, and whenever the
    work on the reply raises. *)
Lemma llm_refine_results_fallback (has_client : bool)
    (completion : result (option string)) (products : list scored) :
  products <> [] ->
  has_client = false
  \/ (exists e, completion = Raise e /\ e <> JSONDecodeError)
  \/ completion = Ok None
  \/ (exists raw e, completion = Ok (Some raw)
                    /\ refine_parsed json_loads (strip raw) products = Raise e)
  \/ (exists raw, completion = Ok (Some raw)
                  /\ refine_parsed json_loads (strip raw) products = Ok (fallback products)) ->
  llm_refine_results json_loads has_client completion products = Ok (fallback products).
Proof.
  intros Hne H. unfold llm_refine_results.
  destruct products as [|p ps]; [contradiction|].
  destruct has_client; cbn [negb]; [|reflexivity].
  destruct H as [H | [(e & -> & He) | [-> | [(raw & e & -> & Hr) | (raw & -> & Hr)]]]].
  - discriminate.
  - destruct e; try reflexivity. contradiction.
  - reflexivity.
  - rewrite Hr. reflexivity.
  - rewrite Hr. reflexivity.
Qed.

(** A reply that is not JSON makes the work on it raise. *)
Lemma refine_parsed_not_json (content : string) (products : list scored) :
  json_loads (unwrap_markdown content) = None ->
  refine_parsed json_loads content products = Raise JSONDecodeError.
Proof. unfold refine_parsed. intros ->. reflexivity. Qed.

(** A reply that parses to the empty array, or none of whose ids maps to a
    candidate, gives the fallback or raises, and so ends in the fallback. *)
Lemma refine_parsed_nothing_mapped (content : string) (products : list scored)
    (recommendations : pyval) (pm : list (pyval * scored)) (recs : list pyval) :
  json_loads (unwrap_markdown content) = Some recommendations ->
  product_map products = Ok pm ->
  iterate recommendations = Ok recs ->
  map_recommendations pm recs = Ok [] ->
  refine_parsed json_loads content products = Ok (fallback products).
Proof.
  unfold refine_parsed. intros H1 H2 H3 H4.
  rewrite H1, H2. cbn [bind]. rewrite H3. cbn [bind]. rewrite H4. reflexivity.
Qed.

(** A recommendation whose id is hashable and is no key of the map is
    dropped, and the loop goes on. *)
Lemma map_recommendations_unknown_id (pm : list (pyval * scored)) (rec : pyval)
    (rest : list pyval) (product_id : pyval) :
  item rec "product_id" = Ok product_id ->
  hashable product_id = true ->
  map_lookup product_id pm = None ->
  map_recommendations pm (rec :: rest) = map_recommendations pm rest.
Proof.
  intros Hid Hh Hl. cbn [map_recommendations]. rewrite Hid. cbn [bind].
  rewrite Hh, Hl. reflexivity.
Qed.

End WithParser.

End RefineProps.

(** ** epd_api.py *)
Module EpdApiProps.
Import PyStr Py EpdApi.

(** The product a scan evaluates for an identifier: the catalog product
    found, or the empty record. *)
Definition scanned_product (indexer : option (list dict)) (pid : string) : dict :=
  match _find_product_by_id indexer pid with
  | Some p => p
  | None => []
  end.

(** The tier of the certificate heuristic. *)
Definition cert_tier (state : bool * bool) : string :=
  if snd state then "Green" else if fst state then "Yellow" else "Red".

(** What [scan_one] returns is made of the certificate state and of the
    rule engine's reasons and advisories. *)
Lemma scan_one_row (indexer : option (list dict)) (pid : string) (e : payload_row) :
  scan_one indexer pid = Ok e ->
  input_product_id (p_row e) = pid
  /\ exists state base,
       _detect_cert_state (scanned_product indexer pid) = Ok state
       /\ risk_level (p_row e) = cert_tier state
       /\ RuleEngine.evaluate_product (scanned_product indexer pid)
          = Ok (base, reasons (p_row e), advisories (p_row e)).
Proof.
  unfold scan_one. fold (scanned_product indexer pid).
  set (product := scanned_product indexer pid). cbv zeta. intros H.
  destruct (_detect_cert_state product) as [[has_certs has_epd_cert]|] eqn:Ed;
    cbn [bind] in H; [|discriminate].
  destruct (iterate (py_or (get product "certifications") (PList []))) as [cs|];
    cbn [bind] in H; [|discriminate].
  destruct (mapM (name_of "certification" "name") cs); cbn [bind] in H; [|discriminate].
  destruct (mapM _ cs); cbn [bind] in H; [|discriminate].
  destruct (iterate (py_or (get product "product_categories") (PList [])));
    cbn [bind] in H; [|discriminate].
  destruct (mapM (name_of "category_name" "name") _); cbn [bind] in H; [|discriminate].
  destruct (_extract_first_image_url product); cbn [bind] in H; [|discriminate].
  destruct (RuleEngine.evaluate_product product) as [[[base rs] ads]|] eqn:Ee;
    cbn [bind] in H; [|discriminate].
  injection H as <-. cbn [p_row input_product_id risk_level reasons advisories].
  split; [reflexivity|]. exists (has_certs, has_epd_cert), base.
  split; [|split]; reflexivity.
Qed.

Lemma bind_ok {A B : Type} (c : result A) (k : A -> result B) (b : B) :
  bind c k = Ok b -> exists a, c = Ok a /\ k a = Ok b.
Proof. destruct c; simpl; [eauto | discriminate]. Qed.

(** The loop is the row-by-row scan, followed by the counting. *)
Lemma scan_loop_rows (indexer : option (list dict)) (ids : list string) :
  forall st,
    scan_loop indexer ids st =
    (rows <- mapM (scan_one indexer) ids ;; Ok (fold_left count_row rows st)).
Proof.
  induction ids as [|pid rest IH]; intros st; [reflexivity|].
  cbn [scan_loop mapM]. destruct (scan_one indexer pid) as [r|]; cbn [bind];
    [|reflexivity].
  rewrite IH. destruct (mapM (scan_one indexer) rest); reflexivity.
Qed.

Lemma fold_count_payload (rows : list payload_row) :
  forall st,
    results_payload (fold_left count_row rows st) = (results_payload st ++ rows)%list.
Proof.
  induction rows as [|r rows IH]; intros st; simpl.
  - rewrite app_nil_r. reflexivity.
  - rewrite IH. cbn [count_row results_payload]. rewrite <- app_assoc. reflexivity.
Qed.

Lemma mapM_each {A B : Type} (f : A -> result B) (l : list A) :
  forall out, mapM f l = Ok out -> Forall2 (fun x y => f x = Ok y) l out.
Proof.
  induction l as [|x l IH]; intros out H; simpl in H.
  - injection H as <-. constructor.
  - destruct (f x) as [y|] eqn:E; cbn [bind] in H; [|discriminate].
    destruct (mapM f l) as [ys|]; cbn [bind] in H; [|discriminate].
    injection H as <-. constructor; [exact E | apply IH; reflexivity].
Qed.

(** The counters and the rows before the loop. *)
Definition fresh_state : scan_state :=
  {| high := 0; med := 0; low := 0; results_payload := [] |}.

(** What a scan leaves when its rows are [rows]. *)
Definition outcome_of (ids : list string) (rows : list payload_row) : scan_outcome :=
  let st := fold_left count_row rows fresh_state in
  {| input_count := Z.of_nat (length ids);
     high_risk_count := high st;
     medium_risk_count := med st;
     low_risk_count := low st;
     entries := rows |}.

(** A scan is created exactly when every identifier is scanned without
    error and the commit binds every row. *)
Lemma run_scan_created (indexer : option (list dict)) (ids : list string)
    (outcome : scan_outcome) :
  run_scan indexer ids = Ok (ScanCreated outcome) <->
  exists rows,
    mapM (scan_one indexer) ids = Ok rows
    /\ commit (map p_row rows) = Ok tt
    /\ outcome = outcome_of ids rows.
Proof.
  unfold run_scan, outcome_of. rewrite scan_loop_rows. fold fresh_state.
  destruct (mapM (scan_one indexer) ids) as [rows|e]; cbn [bind].
  - rewrite fold_count_payload. cbn [fresh_state results_payload app].
    fold fresh_state.
    destruct (commit (map p_row rows)) as [[]|e] eqn:Ec; cbn [bind].
    + split.
      * intros H. injection H as <-. exists rows. repeat split. exact Ec.
      * intros (rows' & Hr & _ & ->). injection Hr as <-. reflexivity.
    + split; [discriminate|].
      intros (rows' & Hr & Hc & _). injection Hr as <-. congruence.
  - split; [discriminate | intros (rows' & Hr & _); discriminate].
Qed.

(** A scan that succeeds holds one entry per identifier, each the row of
    its identifier. *)
Lemma run_scan_entries (indexer : option (list dict)) (ids : list string)
    (outcome : scan_outcome) :
  run_scan indexer ids = Ok (ScanCreated outcome) ->
  mapM (scan_one indexer) ids = Ok (entries outcome)
  /\ input_count outcome = Z.of_nat (length ids).
Proof.
  intros H. apply run_scan_created in H. destruct H as (rows & Hr & _ & ->).
  split; [exact Hr | reflexivity].
Qed.

Lemma create_scan_runs (indexer : option (list dict)) (req : request)
    (outcome : scan_outcome) :
  create_scan indexer req = Ok (ScanCreated outcome) ->
  exists ids, run_scan indexer ids = Ok (ScanCreated outcome).
Proof.
  unfold create_scan. intros H. apply bind_ok in H. destruct H as [[all_ids|err] [_ H]].
  - destruct req.
    + eexists; exact H.
    + destruct (firstn MAX_IDS all_ids) eqn:E; [discriminate|].
      eexists; exact H.
  - discriminate.
Qed.

(** C4.  In every scan that is created, each entry's [risk_level] is the
    tier of the certificate heuristic on the scanned product (Green when
    an EPD certificate is detected, else Yellow when any certificate is,
    else Red), whereas its reasons and advisories are those of
    [evaluate_product] on the same product, whatever tier [evaluate_product]
    gives. *)
Theorem scan_tier_from_certificates (indexer : option (list dict)) (req : request)
    (outcome : scan_outcome) :
  create_scan indexer req = Ok (ScanCreated outcome) ->
  Forall
    (fun e =>
       let product := scanned_product indexer (input_product_id (p_row e)) in
       exists has_any has_epd base,
         _detect_cert_state product = Ok (has_any, has_epd)
         /\ risk_level (p_row e)
            = (if has_epd then "Green" else if has_any then "Yellow" else "Red")
         /\ RuleEngine.evaluate_product product
            = Ok (base, reasons (p_row e), advisories (p_row e)))
    (entries outcome).
Proof.
  intros H. apply create_scan_runs in H. destruct H as [ids H].
  apply run_scan_entries in H. destruct H as [H _].
  apply mapM_each in H. induction H as [|pid e ids es He _ IH]; constructor; [|exact IH].
  apply scan_one_row in He. destruct He as [Hid ([has_any has_epd] & base & Hd & Hr & He)].
  cbv zeta. rewrite Hid. exists has_any, has_epd, base. repeat split; assumption.
Qed.

Definition mixed_catalog : option (list dict) :=
  Some [[("id", PInt 1); ("product_name", PStr "Plank"); ("epd_url", PStr "   ")];
        [("id", PInt 2); ("product_name", PStr "Tile");
         ("certifications", PList [PDict [("certification", PStr "FSC")]])]].

Definition mixed_request : request :=
  JsonBody (Some (PDict [("product_ids", PList [PInt 1; PInt 2; PInt 99])])).

(** A scan of three identifiers: a product with a blank EPD link, one with
    a forestry certificate, and an unknown identifier.  The first row is
    Green although its reasons say the link is missing. *)
Lemma scan_tier_from_certificates_witness :
  exists outcome,
    create_scan mixed_catalog mixed_request = Ok (ScanCreated outcome)
    /\ map (fun e => (risk_level (p_row e), reasons (p_row e))) (entries outcome)
       = [("Green", ["Missing EPD file link"]);
          ("Yellow", ["Missing EPD file link"]);
          ("Red", ["Missing EPD file link"])]
    /\ Forall
         (fun e =>
            let product := scanned_product mixed_catalog (input_product_id (p_row e)) in
            exists has_any has_epd base,
              _detect_cert_state product = Ok (has_any, has_epd)
              /\ risk_level (p_row e)
                 = (if has_epd then "Green" else if has_any then "Yellow" else "Red")
              /\ RuleEngine.evaluate_product product
                 = Ok (base, reasons (p_row e), advisories (p_row e)))
         (entries outcome).
Proof.
  eexists. split; [vm_compute; reflexivity|]. split; [reflexivity|].
  apply (scan_tier_from_certificates mixed_catalog mixed_request).
  vm_compute. reflexivity.
Defined.

Definition is_red (e : payload_row) : bool := String.eqb (risk_level (p_row e)) "Red".

Lemma fold_count_high (rows : list payload_row) :
  forall st,
    high (fold_left count_row rows st)
    = high st + Z.of_nat (length (filter is_red rows)).
Proof.
  induction rows as [|r rows IH]; intros st; simpl.
  - lia.
  - rewrite IH. cbn [count_row high]. unfold is_red.
    destruct (String.eqb (risk_level (p_row r)) "Red"); cbn [length]; lia.
Qed.

(** The high-risk total of a scan is the number of its Red rows. *)
Lemma high_risk_count_counts_red (indexer : option (list dict)) (req : request)
    (outcome : scan_outcome) :
  create_scan indexer req = Ok (ScanCreated outcome) ->
  high_risk_count outcome = Z.of_nat (length (filter is_red (entries outcome))).
Proof.
  intros H. apply create_scan_runs in H. destruct H as [ids H].
  apply run_scan_created in H. destruct H as (rows & _ & _ & ->).
  unfold outcome_of. cbn [high_risk_count entries].
  rewrite fold_count_high. reflexivity.
Qed.

Lemma mapM_length {A B : Type} (f : A -> result B) (l : list A) (out : list B) :
  mapM f l = Ok out -> length out = length l.
Proof.
  intros H. apply mapM_each in H. symmetry. eapply Forall2_length. exact H.
Qed.

Lemma mapM_scan_ids (indexer : option (list dict)) (ids : list string) :
  forall rows,
    mapM (scan_one indexer) ids = Ok rows ->
    map (fun e => input_product_id (p_row e)) rows = ids.
Proof.
  intros rows H. apply mapM_each in H.
  induction H as [|pid e ids es He _ IH]; [reflexivity|].
  simpl. rewrite IH. apply scan_one_row in He. destruct He as [-> _]. reflexivity.
Qed.

(** When every element is handled without error, so is the list. *)
Lemma mapM_all_ok {A B : Type} (f : A -> result B) (P : B -> Prop) (l : list A) :
  (forall x, In x l -> exists y, f x = Ok y /\ P y) ->
  exists ys, mapM f l = Ok ys /\ Forall P ys.
Proof.
  induction l as [|x l IH]; intros H.
  - exists []. split; [reflexivity | constructor].
  - destruct (H x (or_introl eq_refl)) as (y & Hy & Py).
    destruct IH as (ys & Hys & Pys); [intros z Hz; apply H; right; exact Hz|].
    exists (y :: ys). cbn [mapM]. rewrite Hy, Hys. split; [reflexivity|].
    constructor; assumption.
Qed.

(** The commit goes through when each row can be inserted. *)
Lemma commit_rows (rows : list payload_row) :
  Forall (fun r => insert_row (p_row r) = Ok tt) rows ->
  commit (map p_row rows) = Ok tt.
Proof.
  intros H. unfold commit.
  assert (Hm : mapM insert_row (map p_row rows) = Ok (map (fun _ => tt) rows)).
  { induction H as [|r rows Hr _ IH]; [reflexivity|].
    cbn [map mapM]. rewrite Hr, IH. reflexivity. }
  rewrite Hm. reflexivity.
Qed.

(** The handler on a request whose identifiers are [ids], one of the first
    5000 at least being there. *)
Lemma create_scan_of_ids (indexer : option (list dict)) (req : request)
    (ids : list string) :
  submitted_ids req = Ok (inl ids) ->
  firstn MAX_IDS ids <> [] ->
  create_scan indexer req = run_scan indexer (firstn MAX_IDS ids).
Proof.
  intros Hids Hne. unfold create_scan. rewrite Hids. cbn [bind].
  destruct req; [reflexivity|].
  destruct (firstn MAX_IDS ids); [contradiction | reflexivity].
Qed.

Lemma create_scan_created_ids (indexer : option (list dict)) (req : request)
    (ids : list string) (outcome : scan_outcome) :
  submitted_ids req = Ok (inl ids) ->
  create_scan indexer req = Ok (ScanCreated outcome) ->
  run_scan indexer (firstn MAX_IDS ids) = Ok (ScanCreated outcome).
Proof.
  intros Hids. unfold create_scan. rewrite Hids. cbn [bind].
  destruct req; [auto|].
  destruct (firstn MAX_IDS ids); [discriminate | auto].
Qed.

(** The turn of the loop for an identifier that matches no product: the
    empty record is scanned, which raises nothing, and the row it gives
    holds nothing the database refuses. *)
Lemma scan_one_unmatched (indexer : option (list dict)) (pid : string) :
  _find_product_by_id indexer pid = None ->
  exists e,
    scan_one indexer pid = Ok e
    /\ insert_row (p_row e) = Ok tt
    /\ risk_level (p_row e) = "Red"
    /\ reasons (p_row e) = ["Missing EPD file link"]
    /\ product_name (p_row e) = PNone
    /\ manufacturer_name (p_row e) = PNone
    /\ epd_url (p_row e) = PNone
    /\ epd_issue_date (p_row e) = PNone.
Proof.
  intros Hnone. eexists. split.
  - unfold scan_one. rewrite Hnone. reflexivity.
  - cbn [p_row risk_level reasons product_name manufacturer_name epd_url
         epd_issue_date]. repeat split.
Qed.

(** [pid] matches no catalog product. *)
Definition is_unmatched (indexer : option (list dict)) (pid : string) : bool :=
  match _find_product_by_id indexer pid with
  | Some _ => false
  | None => true
  end.

Lemma unmatched_rows_red (indexer : option (list dict)) (ids : list string)
    (rows : list payload_row) :
  Forall2 (fun pid e => scan_one indexer pid = Ok e) ids rows ->
  (length (filter (is_unmatched indexer) ids) <= length (filter is_red rows))%nat.
Proof.
  induction 1 as [|pid e ids rows He _ IH]; [apply le_n|].
  cbn [filter]. unfold is_unmatched at 1.
  destruct (_find_product_by_id indexer pid) eqn:F.
  - destruct (is_red e); cbn [length]; lia.
  - destruct (scan_one_unmatched indexer pid F) as (e' & He' & _ & Hred & _).
    rewrite He in He'. injection He' as <-.
    unfold is_red at 1. rewrite Hred. cbn [String.eqb Ascii.eqb Bool.eqb length].
    cbn [length]. lia.
Qed.

(** A product whose issue date is a list is scanned without error, and
    refused at the commit: the request raises and no scan is stored. *)
Example list_valued_date_not_stored :
  let catalog := Some [[("id", PInt 1); ("epd_issue_date", PList [PInt 2021])]] in
  (exists e, scan_one catalog "1" = Ok e)
  /\ create_scan catalog (JsonBody (Some (PDict [("product_ids", PList [PInt 1])])))
     = Raise DBAPIError.
Proof.
  split; [eexists; vm_compute; reflexivity | vm_compute; reflexivity].
Qed.

(** C10.  For a request that submits the identifiers [ids], of which the
    first 5000 are processed:
    - identifiers that match no catalog product cannot make the request
      fail: when at least one identifier is processed and every processed
      identifier that does match a product is scanned and stored without
      error, the scan is created;
    - in the scan created, the rows follow the processed identifiers one
      for one, and the row of an identifier that matches no product is
      that of the empty record: [risk_level] Red, reasons exactly
      ["Missing EPD file link"], no name, link or date;
    - the high-risk total of the scan is the number of its Red rows, and
      so counts every processed identifier that matches no product. *)
Theorem unmatched_id_scans_red (indexer : option (list dict)) (req : request)
    (ids : list string) :
  submitted_ids req = Ok (inl ids) ->
  let processed := firstn MAX_IDS ids in
  (processed <> [] ->
   (forall pid,
      In pid processed -> _find_product_by_id indexer pid <> None ->
      exists r, scan_one indexer pid = Ok r /\ insert_row (p_row r) = Ok tt) ->
   exists outcome, create_scan indexer req = Ok (ScanCreated outcome))
  /\ forall outcome,
       create_scan indexer req = Ok (ScanCreated outcome) ->
       Forall2
         (fun pid e =>
            input_product_id (p_row e) = pid
            /\ (_find_product_by_id indexer pid = None ->
                risk_level (p_row e) = "Red"
                /\ reasons (p_row e) = ["Missing EPD file link"]
                /\ product_name (p_row e) = PNone
                /\ manufacturer_name (p_row e) = PNone
                /\ epd_url (p_row e) = PNone
                /\ epd_issue_date (p_row e) = PNone))
         processed (entries outcome)
       /\ high_risk_count outcome
          = Z.of_nat (length (filter is_red (entries outcome)))
       /\ Z.of_nat (length (filter (is_unmatched indexer) processed))
          <= high_risk_count outcome.
Proof.
  intros Hids processed. split.
  - intros Hne Hmatched.
    rewrite (create_scan_of_ids indexer req ids Hids Hne). fold processed.
    destruct (mapM_all_ok (scan_one indexer)
                (fun r => insert_row (p_row r) = Ok tt) processed)
      as (rows & Hrows & Hins).
    { intros pid Hin. destruct (_find_product_by_id indexer pid) eqn:F.
      - apply Hmatched; [exact Hin | congruence].
      - destruct (scan_one_unmatched indexer pid F) as (e & He & Hi & _).
        exists e. split; assumption. }
    exists (outcome_of processed rows). apply run_scan_created.
    exists rows. split; [exact Hrows|]. split; [apply commit_rows; exact Hins|].
    reflexivity.
  - intros outcome H.
    pose proof (high_risk_count_counts_red indexer req outcome H) as Hhigh.
    apply (create_scan_created_ids indexer req ids outcome Hids) in H.
    fold processed in H. apply run_scan_created in H.
    destruct H as (rows & Hrows & _ & Hout).
    assert (Hentries : entries outcome = rows) by (rewrite Hout; reflexivity).
    rewrite Hentries in *. apply mapM_each in Hrows.
    split; [|split; [exact Hhigh|]].
    + clear -Hrows. induction Hrows as [|pid e ps es He _ IH]; constructor; [|exact IH].
      split; [apply scan_one_row in He; apply He|].
      intros F. destruct (scan_one_unmatched indexer pid F) as (e' & He' & _ & Hf).
      rewrite He in He'. injection He' as <-. exact Hf.
    + rewrite Hhigh. apply inj_le. apply unmatched_rows_red. exact Hrows.
Qed.

(** The scan of the mixed request: the identifier 99 matches nothing. *)
Lemma unmatched_id_scans_red_witness :
  exists outcome,
    create_scan mixed_catalog mixed_request = Ok (ScanCreated outcome)
    /\ Forall2
         (fun pid e =>
            input_product_id (p_row e) = pid
            /\ (_find_product_by_id mixed_catalog pid = None ->
                risk_level (p_row e) = "Red"
                /\ reasons (p_row e) = ["Missing EPD file link"]
                /\ product_name (p_row e) = PNone
                /\ manufacturer_name (p_row e) = PNone
                /\ epd_url (p_row e) = PNone
                /\ epd_issue_date (p_row e) = PNone))
         ["1"; "2"; "99"] (entries outcome)
    /\ 1 <= high_risk_count outcome.
Proof.
  destruct (unmatched_id_scans_red mixed_catalog mixed_request ["1"; "2"; "99"] eq_refl)
    as [Hcreated Hrows].
  destruct Hcreated as [outcome Hc].
  - discriminate.
  - intros pid [<- | [<- | [<- | []]]] Hm.
    + eexists. split; [vm_compute; reflexivity | reflexivity].
    + eexists. split; [vm_compute; reflexivity | reflexivity].
    + exfalso. apply Hm. reflexivity.
  - exists outcome. split; [exact Hc|].
    destruct (Hrows outcome Hc) as (H1 & _ & H3).
    split; [exact H1 | exact H3].
Defined.

(** C8.  When a request submits more than 5000 identifiers, the scan is
    the scan of the first 5000:
    - the answer, a raise included, is the one any request with the same
      first 5000 identifiers gets, so the identifiers beyond them raise
      nothing and leave no trace;
    - when each of the first 5000 is scanned without error and the commit
      binds their rows, the scan is created with these 5000 rows, one per
      identifier, in order;
    - a scan that is created has exactly 5000 rows, those of the first
      5000 identifiers in order, and its input count is 5000. *)
Theorem scan_bounded_to_5000 (indexer : option (list dict)) (req : request)
    (ids : list string) :
  submitted_ids req = Ok (inl ids) ->
  (5000 < length ids)%nat ->
  (forall req' ids',
     submitted_ids req' = Ok (inl ids') ->
     firstn 5000 ids' = firstn 5000 ids ->
     create_scan indexer req' = create_scan indexer req)
  /\ (forall rows,
        mapM (scan_one indexer) (firstn 5000 ids) = Ok rows ->
        commit (map p_row rows) = Ok tt ->
        exists outcome,
          create_scan indexer req = Ok (ScanCreated outcome)
          /\ entries outcome = rows
          /\ length rows = 5000%nat
          /\ map (fun e => input_product_id (p_row e)) rows = firstn 5000 ids
          /\ input_count outcome = 5000)
  /\ (forall outcome,
        create_scan indexer req = Ok (ScanCreated outcome) ->
        mapM (scan_one indexer) (firstn 5000 ids) = Ok (entries outcome)
        /\ commit (map p_row (entries outcome)) = Ok tt
        /\ length (entries outcome) = 5000%nat
        /\ map (fun e => input_product_id (p_row e)) (entries outcome)
           = firstn 5000 ids
        /\ input_count outcome = 5000).
Proof.
  intros Hids Hlen.
  assert (Hfirst : length (firstn 5000 ids) = 5000%nat).
  { rewrite length_firstn. apply Nat.min_l. lia. }
  assert (Hne : firstn MAX_IDS ids <> []).
  { change MAX_IDS with 5000%nat. intros E. rewrite E in Hfirst. discriminate Hfirst. }
  pose proof (create_scan_of_ids indexer req ids Hids Hne) as Hrun.
  change MAX_IDS with 5000%nat in Hrun.
  split; [|split].
  - intros req' ids' Hids' Hsame. rewrite Hrun, <- Hsame.
    apply (create_scan_of_ids indexer req' ids' Hids').
    change MAX_IDS with 5000%nat. rewrite Hsame.
    intros E. rewrite E in Hfirst. discriminate Hfirst.
  - intros rows Hrows Hcommit. rewrite Hrun.
    exists (outcome_of (firstn 5000 ids) rows). split.
    + apply run_scan_created. exists rows. repeat split; assumption.
    + split; [reflexivity|]. split; [|split].
      * rewrite (mapM_length _ _ _ Hrows). exact Hfirst.
      * apply mapM_scan_ids in Hrows. exact Hrows.
      * unfold outcome_of. cbn [input_count]. rewrite Hfirst. reflexivity.
  - intros outcome H. rewrite Hrun in H. apply run_scan_created in H.
    destruct H as (rows & Hrows & Hcommit & ->).
    unfold outcome_of. cbn [entries input_count].
    split; [exact Hrows|]. split; [exact Hcommit|]. split; [|split].
    + rewrite (mapM_length _ _ _ Hrows). exact Hfirst.
    + apply mapM_scan_ids in Hrows. exact Hrows.
    + rewrite Hfirst. reflexivity.
Qed.

Definition overflow_request : request :=
  JsonBody (Some (PDict [("product_ids", PList (repeat (PInt 7) 5001))])).

Lemma mapM_repeat {A B : Type} (f : A -> result B) (x : A) (y : B) (n : nat) :
  f x = Ok y -> mapM f (repeat x n) = Ok (repeat y n).
Proof.
  intros H. induction n as [|n IH]; [reflexivity|].
  cbn [repeat mapM]. rewrite H, IH. reflexivity.
Qed.

Lemma firstn_repeat_succ {A : Type} (x : A) (n : nat) :
  firstn n (repeat x (S n)) = repeat x n.
Proof.
  induction n as [|n IH]; [reflexivity|].
  change (repeat x (S (S n))) with (x :: repeat x (S n)).
  cbn [firstn]. rewrite IH. reflexivity.
Qed.

(** 5001 identifiers submitted with no catalog loaded: the scan is created
    with 5000 rows. *)
Lemma scan_bounded_to_5000_witness :
  exists outcome,
    create_scan None overflow_request = Ok (ScanCreated outcome)
    /\ length (entries outcome) = 5000%nat
    /\ input_count outcome = 5000.
Proof.
  assert (Hids : submitted_ids overflow_request = Ok (inl (repeat "7" 5001)))
    by (vm_compute; reflexivity).
  assert (Hlen : (5000 < length (repeat "7" 5001))%nat)
    by (rewrite repeat_length; apply Nat.lt_succ_diag_r).
  destruct (scan_one_unmatched None "7" eq_refl) as (e & He & Hi & _).
  assert (Hcut : firstn 5000 (repeat "7" 5001) = repeat "7" 5000)
    by apply (firstn_repeat_succ "7" 5000).
  assert (Hrows : mapM (scan_one None) (firstn 5000 (repeat "7" 5001))
                  = Ok (repeat e 5000)).
  { rewrite Hcut. apply mapM_repeat. exact He. }
  assert (Hcommit : commit (map p_row (repeat e 5000)) = Ok tt).
  { apply commit_rows. apply Forall_forall. intros r Hr.
    apply repeat_spec in Hr. rewrite Hr. exact Hi. }
  destruct (scan_bounded_to_5000 None overflow_request _ Hids Hlen)
    as (_ & Hcreate & _).
  destruct (Hcreate _ Hrows Hcommit) as (outcome & H1 & H2 & H3 & _ & H5).
  exists outcome. split; [exact H1|]. rewrite H2. split; [exact H3 | exact H5].
Defined.

End EpdApiProps.

(** * Further properties of the code *)

(** ** rule_engine.py: failure and tiers *)
Module RuleEngineMore.
Import PyStr Py RuleEngine PyFacts RuleEngineProps.

Lemma evaluate_nonstring_raises (product : dict) :
  truthy (get product "epd_url") = true ->
  (forall s, get product "epd_url" <> PStr s) ->
  evaluate_product product = Raise AttributeError.
Proof.
  intros T Hn. unfold evaluate_product; cbv zeta.
  rewrite (py_or_truthy _ _ T), T.
  destruct (get product "epd_url"); try reflexivity.
  exfalso. apply (Hn s). reflexivity.
Qed.

Lemma all_space_strip (s : string) : all_space s = true -> strip s = EmptyString.
Proof.
  intros H. rewrite <- strip_empty in H. destruct (strip s); [reflexivity | discriminate].
Qed.

Lemma blank_not_absolute (s : string) : all_space s = true -> is_absolute s = false.
Proof.
  intros H. unfold is_absolute. rewrite (all_space_strip s H). reflexivity.
Qed.

(** [evaluate_product] fails exactly on a product whose ['epd_url'] is
    truthy and is not a string, and then with [AttributeError]; the issue
    date never makes it fail. *)
Theorem evaluate_product_fails_exactly (product : dict) :
  (forall e, evaluate_product product = Raise e -> e = AttributeError)
  /\ ((exists e, evaluate_product product = Raise e) <->
      (truthy (get product "epd_url") = true
       /\ forall s, get product "epd_url" <> PStr s)).
Proof.
  assert (Hcases :
    (truthy (get product "epd_url") = true /\ forall s, get product "epd_url" <> PStr s)
    \/ exists r, evaluate_product product = Ok r).
  { destruct (truthy (get product "epd_url")) eqn:T.
    - destruct (get product "epd_url") eqn:U;
        try (left; split; [reflexivity | intros; discriminate]).
      right. destruct (all_space s) eqn:Hb.
      + eexists. apply evaluate_missing. right. exists s. split; [exact U | exact Hb].
      + eexists. apply (evaluate_present product s U Hb).
    - right. eexists. apply evaluate_missing. left. exact T. }
  split.
  - intros e He. destruct Hcases as [[T Hn] | [r Hr]].
    + rewrite (evaluate_nonstring_raises product T Hn) in He. congruence.
    + congruence.
  - split.
    + intros [e He]. destruct Hcases as [H | [r Hr]]; [exact H | congruence].
    + intros [T Hn]. exists AttributeError. apply evaluate_nonstring_raises; assumption.
Qed.

(** Whenever [evaluate_product] returns: the tier is Red exactly when the
    link is falsy or blank, Green exactly when the link is an absolute
    string URL and the issue date counts, and Yellow otherwise; there is
    exactly one reason, and the advisories are the standing note. *)
Theorem evaluate_product_tiers (product : dict) (tier : string)
    (rs ads : list string) :
  evaluate_product product = Ok (tier, rs, ads) ->
  (tier = "Red" <->
   (truthy (get product "epd_url") = false
    \/ exists s, get product "epd_url" = PStr s /\ all_space s = true))
  /\ (tier = "Green" <->
      exists s, get product "epd_url" = PStr s
                /\ is_absolute s = true /\ has_issue_date product = true)
  /\ (tier = "Red" \/ tier = "Yellow" \/ tier = "Green")
  /\ length rs = 1%nat
  /\ ads = [manual_note].
Proof.
  intros H. destruct (truthy (get product "epd_url")) eqn:T.
  - destruct (get product "epd_url") as [| | |s| |] eqn:U;
      try (rewrite evaluate_nonstring_raises in H;
           [discriminate | rewrite U; exact T | rewrite U; intros; discriminate]).
    destruct (all_space s) eqn:Hb.
    + rewrite evaluate_missing in H by (right; exists s; split; [exact U | exact Hb]).
      injection H as <- <- <-. repeat split; auto.
      * intros _. right. exists s. split; [reflexivity | exact Hb].
      * discriminate.
      * intros (s' & Hs' & Ha & _). injection Hs' as <-.
        rewrite (blank_not_absolute s Hb) in Ha. discriminate.
    + rewrite (evaluate_present product s U Hb) in H.
      destruct (is_absolute s) eqn:Ea, (has_issue_date product) eqn:Ed;
        cbn [verdict] in H; injection H as <- <- <-;
        (repeat split; auto;
         try discriminate;
         try (intros [Hf | (s' & Hs' & Hb')];
              [discriminate | injection Hs' as <-; congruence]);
         try (intros (s' & Hs' & Ha' & Hd'); injection Hs' as <-; congruence);
         try (intros _; exists s; repeat split; assumption)).
  - rewrite evaluate_missing in H by (left; exact T).
    injection H as <- <- <-. repeat split; auto.
    + discriminate.
    + intros (s & Hs & Ha & _). rewrite Hs in T.
      destruct s; [|discriminate T]. discriminate Ha.
Qed.

(** The tiers of a product with an absolute link and a date. *)
Lemma evaluate_product_tiers_witness :
  exists s,
    get [("epd_url", PStr "https://epd.example/a.pdf"); ("epd_issue_date", PInt 2021)]
        "epd_url" = PStr s
    /\ is_absolute s = true.
Proof.
  destruct (evaluate_product_tiers
              [("epd_url", PStr "https://epd.example/a.pdf"); ("epd_issue_date", PInt 2021)]
              "Green"
              ["EPD link is accessible; please verify the issue date manually"]
              [manual_note] eq_refl) as (_ & Hg & _).
  destruct (proj1 Hg eq_refl) as (s & Hs & Ha & _).
  exists s. split; assumption.
Defined.

End RuleEngineMore.

(** ** search_engine.py: the refiner's output *)
Module RefineMore.
Import PyStr Py SearchEngine.

Lemma product_map_values (products : list scored) :
  forall pm, product_map products = Ok pm -> map snd pm = products.
Proof.
  unfold product_map. induction products as [|p ps IH]; intros pm H; simpl in H.
  - injection H as <-. reflexivity.
  - destruct (subscript (sp_product p) "id") as [id|]; cbn [bind] in H; [|discriminate].
    destruct (hashable id); cbn [bind] in H; [|discriminate].
    destruct (mapM _ ps) as [pm'|]; cbn [bind] in H; [|discriminate].
    injection H as <-. simpl. rewrite (IH pm' eq_refl). reflexivity.
Qed.

Lemma map_lookup_in (key : pyval) (pm : list (pyval * scored)) (p : scored) :
  map_lookup key pm = Some p -> In p (map snd pm).
Proof.
  unfold map_lookup. destruct (find _ (rev pm)) as [kv|] eqn:F; [|discriminate].
  intros H. injection H as <-. apply find_some in F. destruct F as [F _].
  apply in_rev in F. apply in_map. exact F.
Qed.

Lemma map_recommendations_in (pm : list (pyval * scored)) (recs : list pyval) :
  forall out,
    map_recommendations pm recs = Ok out ->
    Forall (fun x => In (r_product x) (map snd pm) /\ r_llm x <> None) out.
Proof.
  induction recs as [|rec rest IH]; intros out H; simpl in H.
  - injection H as <-. constructor.
  - destruct (item rec "product_id") as [pid|]; cbn [bind] in H; [|discriminate].
    destruct (hashable pid); cbn [negb] in H; [|discriminate].
    destruct (map_lookup pid pm) as [p|] eqn:L; [|apply IH; exact H].
    destruct (annotate p rec) as [r|] eqn:A; cbn [bind] in H; [|discriminate].
    destruct (map_recommendations pm rest) as [tail|]; cbn [bind] in H; [|discriminate].
    injection H as <-. constructor; [|apply IH; reflexivity].
    unfold annotate in A. destruct rec; try discriminate. injection A as <-.
    cbn [r_product r_llm]. split; [eapply map_lookup_in; exact L | discriminate].
Qed.

Lemma in_firstn_list {A : Type} (n : nat) (l : list A) (x : A) :
  In x (firstn n l) -> In x l.
Proof.
  intros H. rewrite <- (firstn_skipn n l). apply in_or_app. left. exact H.
Qed.

Lemma fallback_shape (products : list scored) :
  (length (fallback products) <= Config.TOP_K_FINAL)%nat
  /\ Forall (fun x => In (r_product x) products) (fallback products).
Proof.
  unfold fallback. split.
  - rewrite length_map, length_firstn. apply Nat.le_min_l.
  - apply Forall_forall. intros x Hx. apply in_map_iff in Hx.
    destruct Hx as [p [<- Hp]]. cbn [plain r_product].
    eapply in_firstn_list. exact Hp.
Qed.

Section WithParser.

Variable json_loads : string -> option pyval.

Lemma refine_parsed_shape (content : string) (products : list scored)
    (out : list ranked) :
  refine_parsed json_loads content products = Ok out ->
  (length out <= Config.TOP_K_FINAL)%nat
  /\ Forall (fun x => In (r_product x) products) out.
Proof.
  unfold refine_parsed. intros H.
  destruct (json_loads (unwrap_markdown content)) as [recommendations|]; [|discriminate].
  destruct (product_map products) as [pm|] eqn:Pm; cbn [bind] in H; [|discriminate].
  destruct (iterate recommendations) as [recs|]; cbn [bind] in H; [|discriminate].
  destruct (map_recommendations pm recs) as [refined|] eqn:M; cbn [bind] in H;
    [|discriminate].
  destruct refined as [|r refined].
  - injection H as <-. apply fallback_shape.
  - remember (firstn Config.TOP_K_FINAL (r :: refined)) as cut eqn:Hcut.
    injection H as <-. subst cut. split.
    + apply firstn_le_length.
    + apply map_recommendations_in in M. rewrite (product_map_values _ _ Pm) in M.
      apply Forall_forall. intros x Hx. apply in_firstn_list in Hx.
      rewrite Forall_forall in M. apply (M x Hx).
Qed.

Lemma refine_results_shape (has_client : bool)
    (completion : result (option string)) (products : list scored)
    (out : list ranked) :
  llm_refine_results json_loads has_client completion products = Ok out ->
  (length out <= Config.TOP_K_FINAL)%nat
  /\ Forall (fun x => In (r_product x) products) out.
Proof.
  unfold llm_refine_results. intros H.
  destruct products as [|p ps].
  - injection H as <-. split; [apply Nat.le_0_l | constructor].
  - destruct has_client; cbn [negb] in H;
      [|injection H as <-; apply fallback_shape].
    destruct completion as [[raw|]|e].
    + destruct (refine_parsed json_loads (strip raw) (p :: ps)) as [refined|] eqn:R.
      * injection H as <-. eapply refine_parsed_shape. exact R.
      * injection H as <-. apply fallback_shape.
    + injection H as <-. apply fallback_shape.
    + destruct e; try (injection H as <-; apply fallback_shape). discriminate.
Qed.

(** Whatever the provider answers, a list that [llm_refine_results]
    returns has at most [TOP_K_FINAL] elements and each of them is one of
    the candidates it was given: an id the reply invents never adds a
    product. *)
Theorem llm_refine_results_within_candidates (has_client : bool)
    (completion : result (option string)) (products : list scored)
    (out : list ranked) :
  llm_refine_results json_loads has_client completion products = Ok out ->
  (length out <= Config.TOP_K_FINAL)%nat
  /\ Forall (fun x => In (r_product x) products) out.
Proof. apply refine_results_shape. Qed.

End WithParser.

Definition one_candidate : scored :=
  {| sp_product := [("id", PInt 7)]; similarity_score := 1 # 2 |}.

(** A reply naming an id that is no candidate's: the one candidate comes
    back. *)
Lemma llm_refine_results_within_candidates_witness :
  exists out,
    llm_refine_results
      (fun _ => Some (PList [PDict [("product_id", PInt 99)]]))
      true (Ok (Some "[]")) [one_candidate] = Ok out
    /\ (length out <= Config.TOP_K_FINAL)%nat.
Proof.
  eexists. split; [reflexivity|].
  apply (llm_refine_results_within_candidates
           (fun _ => Some (PList [PDict [("product_id", PInt 99)]]))
           true (Ok (Some "[]")) [one_candidate] _ eq_refl).
Defined.

End RefineMore.

(** ** search_engine.py: filters, ties and [top_k] *)
Module SemanticSearchMore.
Import PyStr Py SearchEngine SemanticSearchProps FilterProps.

(** The names under [name_key] of the records in a list field. *)
Definition names_in (product : dict) (list_key name_key : string) : list pyval :=
  match get_default product list_key (PList []) with
  | PList l =>
      map (fun c => match c with PDict d => get d name_key | _ => PNone end) l
  | _ => []
  end.

(** [x] equals one of the wanted values. *)
Definition one_of (wanted : pyval) (x : pyval) : bool :=
  match wanted with
  | PList w => existsb (py_eq x) w
  | _ => false
  end.

(** A list-valued filter is passed when it is unset or empty, or when one
    of the product's names is wanted. *)
Definition any_wanted (wanted : pyval) (names : list pyval) : bool :=
  negb (truthy wanted) || existsb (one_of wanted) names.

(** The conjunction of the five filters. *)
Definition accepts (product : dict) (d : dict) : bool :=
  any_wanted (get d "categories") (names_in product "product_categories" "category_name")
  && (negb (truthy (get d "manufacturers"))
      || one_of (get d "manufacturers") (get product "manufacturer_name"))
  && any_wanted (get d "certifications") (names_in product "certifications" "certification")
  && (negb (truthy (get d "has_certifications")) || truthy (get product "certifications"))
  && (negb (truthy (get d "has_carbon_data"))
      || truthy (get product "net_carbon_emissions")).

Lemma mapM_method_get_names (k : string) (l : list pyval) :
  forallb is_dict l = true ->
  mapM (fun c => method_get c k) l
  = Ok (map (fun c => match c with PDict d => get d k | _ => PNone end) l).
Proof.
  induction l as [|c l IH]; simpl; intros H; [reflexivity|].
  apply andb_prop in H. destruct H as [Hc Hl]. rewrite (IH Hl).
  destruct c; try discriminate. reflexivity.
Qed.

Lemma list_section_value (p : dict) (list_key name_key : string) (v : pyval) :
  list_of_dicts (get_default p list_key (PList [])) = true ->
  list_or_falsy v = true ->
  (if truthy v then passes_any p list_key name_key v else Ok true)
  = Ok (any_wanted v (names_in p list_key name_key)).
Proof.
  intros Hp Hv. unfold any_wanted. destruct (truthy v) eqn:T; [|reflexivity].
  unfold list_or_falsy in Hv. rewrite T in Hv. destruct v; try discriminate.
  unfold passes_any, names_in.
  destruct (get_default p list_key (PList [])); try discriminate.
  cbn [iterate bind]. rewrite (mapM_method_get_names name_key _ Hp).
  cbn [bind]. rewrite any_in_list. reflexivity.
Qed.

Lemma manufacturer_section_value (x v : pyval) :
  list_or_falsy v = true ->
  (if truthy v then py_in x v else Ok true)
  = Ok (negb (truthy v) || one_of v x).
Proof.
  intros Hv. destruct (truthy v) eqn:T; [|reflexivity].
  unfold list_or_falsy in Hv. rewrite T in Hv. destruct v; try discriminate.
  reflexivity.
Qed.

Lemma wf_filters_dict (d : dict) :
  wf_filters (PDict d) = true ->
  list_or_falsy (get d "categories") = true
  /\ list_or_falsy (get d "manufacturers") = true
  /\ list_or_falsy (get d "certifications") = true.
Proof.
  unfold wf_filters. destruct d as [|kv d].
  - intros _. repeat split; reflexivity.
  - cbn [truthy negb orb]. intros H.
    apply andb_prop in H. destruct H as [H H3].
    apply andb_prop in H. destruct H as [H1 H2]. repeat split; assumption.
Qed.

Lemma passes_filters_value (product : dict) (d : dict) :
  wf_product product = true ->
  wf_filters (PDict d) = true ->
  _passes_filters product (PDict d) = Ok (accepts product d).
Proof.
  intros Hp Hf. apply wf_filters_dict in Hf. destruct Hf as (H1 & H2 & H3).
  unfold wf_product in Hp. apply andb_prop in Hp. destruct Hp as [Hc Hz].
  rewrite passes_filters_values. unfold passes_values, accepts.
  rewrite (list_section_value product "product_categories" "category_name" _ Hc H1).
  cbn [bind].
  destruct (any_wanted (get d "categories") _); cbn [negb andb]; [|reflexivity].
  rewrite (manufacturer_section_value (get product "manufacturer_name") _ H2).
  cbn [bind].
  destruct (negb (truthy (get d "manufacturers")) || _); cbn [negb andb]; [|reflexivity].
  rewrite (list_section_value product "certifications" "certification" _ Hz H3).
  cbn [bind].
  destruct (any_wanted (get d "certifications") _); cbn [negb andb]; [|reflexivity].
  destruct (truthy (get d "has_certifications")),
           (truthy (get product "certifications")); cbn [negb andb orb];
    try reflexivity;
    destruct (truthy (get d "has_carbon_data")),
             (truthy (get product "net_carbon_emissions")); reflexivity.
Qed.

(** On a well-formed product and filter dict [_passes_filters] never
    raises and answers the conjunction of the five filters: each filter
    that is unset, empty or false accepts every product; a list-valued
    filter accepts a product one of whose names equals one of the wanted
    values; the two flags ask for a non-empty field. *)
Theorem passes_filters_is_conjunction (product : dict) (d : dict) :
  wf_product product = true ->
  wf_filters (PDict d) = true ->
  _passes_filters product (PDict d) = Ok (accepts product d).
Proof. apply passes_filters_value. Qed.

Definition birch_tile : dict :=
  [("id", PInt 2); ("manufacturer_name", PStr "Birch");
   ("product_categories", PList [PDict [("category_name", PStr "Tiles")]])].

(** A tile of the manufacturer Birch against a filter on two categories
    and another manufacturer: the category filter passes, the
    manufacturer filter does not. *)
Lemma passes_filters_is_conjunction_witness :
  _passes_filters birch_tile
    (PDict [("categories", PList [PStr "Floors"; PStr "Tiles"]);
            ("manufacturers", PList [PStr "Acme"])])
  = Ok false.
Proof.
  rewrite (passes_filters_is_conjunction birch_tile
             [("categories", PList [PStr "Floors"; PStr "Tiles"]);
              ("manufacturers", PList [PStr "Acme"])] eq_refl eq_refl).
  reflexivity.
Defined.

Lemma insert_desc_stable (q : Q) (x : nat * Q) (l : list (nat * Q)) :
  filter (fun e => Qeq_bool (snd e) q) (insert_desc x l)
  = filter (fun e => Qeq_bool (snd e) q) (x :: l).
Proof.
  induction l as [|y l IH]; [reflexivity|].
  cbn [insert_desc]. destruct (Qle_bool (snd y) (snd x)) eqn:E; [reflexivity|].
  cbn [filter] in *. rewrite IH.
  destruct (Qeq_bool (snd x) q) eqn:Ex; [|reflexivity].
  destruct (Qeq_bool (snd y) q) eqn:Ey; [|reflexivity].
  exfalso. apply Qeq_bool_iff in Ex, Ey.
  assert (Hle : Qle_bool (snd y) (snd x) = true).
  { apply Qle_bool_iff. rewrite Ex, Ey. apply Qle_refl. }
  congruence.
Qed.

(** The sort of the similarity list is stable: the entries of any one
    score come out in the order they had in the catalog. *)
Theorem sort_desc_stable (q : Q) (l : list (nat * Q)) :
  filter (fun e => Qeq_bool (snd e) q) (sort_desc l)
  = filter (fun e => Qeq_bool (snd e) q) l.
Proof.
  induction l as [|x l IH]; [reflexivity|].
  cbn [sort_desc]. rewrite insert_desc_stable. cbn [filter]. rewrite IH. reflexivity.
Qed.

(** [top_k] at its edges: zero is taken for the default 30, as is a
    [top_k] left out; a negative [top_k] does not give an empty result but
    the single best eligible entry, when there is one. *)
Theorem semantic_search_top_k_edges (has_client : bool) (products : list dict)
    (scores : list Q) (filters : pyval) :
  semantic_search has_client products scores (Some 0) filters
  = semantic_search has_client products scores (Some 30) filters
  /\ semantic_search has_client products scores None filters
     = semantic_search has_client products scores (Some 30) filters
  /\ forall k r,
       k < 0 ->
       semantic_search has_client products scores (Some k) filters = Ok r ->
       r = map (scored_at products)
             (firstn 1 (filter (eligible products filters)
                          (sort_desc (enumerate_from 0 scores)))).
Proof.
  split; [reflexivity|]. split; [reflexivity|].
  intros k r Hk H. unfold semantic_search in H.
  destruct has_client; [|discriminate]. cbn [negb] in H.
  apply collect_spec in H. cbn [length app] in H.
  replace (effective_top_k (Some k)) with k in H
    by (unfold effective_top_k; destruct (Z.eqb_spec k 0); [lia | reflexivity]).
  replace (Z.to_nat (Z.max 1 (k - Z.of_nat 0))) with 1%nat in H by lia.
  exact H.
Qed.

(** With the demo catalog and [top_k = -1] the search returns the one
    best entry. *)
Lemma semantic_search_top_k_edges_witness :
  exists r,
    semantic_search true demo_products demo_scores (Some (-1)) PNone = Ok r
    /\ map similarity_score r = [9 # 10].
Proof.
  eexists. split; [reflexivity|].
  destruct (semantic_search_top_k_edges true demo_products demo_scores PNone)
    as (_ & _ & H).
  rewrite (H (-1) _ eq_refl eq_refl). reflexivity.
Defined.

Lemma enumerate_from_nth {A : Type} (l : list A) :
  forall i j x, In (j, x) (enumerate_from i l) ->
                (i <= j)%nat /\ nth_error l (j - i) = Some x.
Proof.
  induction l as [|y l IH]; intros i j x H; simpl in H; [contradiction|].
  destruct H as [H | H].
  - injection H as <- <-. split; [lia|]. rewrite Nat.sub_diag. reflexivity.
  - apply IH in H. destruct H as [Hle Hn]. split; [lia|].
    replace (j - i)%nat with (S (j - S i)) by lia. exact Hn.
Qed.

Lemma enumerate_from_nodup {A : Type} (l : list A) :
  forall i, NoDup (map fst (enumerate_from i l)).
Proof.
  induction l as [|y l IH]; intros i; simpl; constructor; [|apply IH].
  intros H. apply in_map_iff in H. destruct H as [[j x] [Hj Hin]].
  simpl in Hj. subst j. apply enumerate_from_nth in Hin. lia.
Qed.

(* The entries a search keeps (eligible ones, cut to the limit) sit at
   distinct positions when the ranked entries do. *)
Lemma selected_positions_distinct (keep : nat * Q -> bool) :
  forall (entries : list (nat * Q)) (limit : nat),
    NoDup (map fst entries) ->
    NoDup (map fst (firstn limit (filter keep entries))).
Proof.
  assert (Hsub : forall entries limit i,
             In i (map fst (firstn limit (filter keep entries))) ->
             In i (map fst entries)).
  { intros entries limit i Hi. apply in_map_iff in Hi.
    destruct Hi as ([j s] & <- & Hin). apply in_firstn in Hin.
    apply filter_In in Hin. apply in_map_iff. exists (j, s).
    split; [reflexivity | apply Hin]. }
  intros entries. induction entries as [|e entries IH]; intros limit Hd.
  - destruct limit; constructor.
  - apply NoDup_cons_iff in Hd. destruct Hd as [Hfresh Hd]. cbn [filter].
    destruct (keep e); [|apply IH; exact Hd].
    destruct limit as [|limit]; [constructor|]. cbn [firstn map].
    apply NoDup_cons; [|apply IH; exact Hd].
    intros Hi. apply Hfresh. eapply Hsub. exact Hi.
Qed.

(** Every result of a search is a catalog product paired with the score
    of its own embedding: the results sit at pairwise distinct catalog
    positions, and each carries the product and the score found there. *)
Theorem semantic_search_results_from_catalog (has_client : bool)
    (products : list dict) (scores : list Q) (top_k : option Z) (filters : pyval)
    (r : list scored) :
  semantic_search has_client products scores top_k filters = Ok r ->
  exists positions,
    NoDup positions
    /\ Forall2 (fun i x => nth_error products i = Some (sp_product x)
                           /\ nth_error scores i = Some (similarity_score x))
         positions r.
Proof.
  intros H. unfold semantic_search in H.
  destruct has_client; [|discriminate]. cbn [negb] in H.
  apply collect_spec in H. cbn [length app] in H.
  set (n := Z.to_nat (Z.max 1 (effective_top_k top_k - Z.of_nat 0))) in H.
  set (ranking := sort_desc (enumerate_from 0 scores)) in H.
  set (selected := firstn n (filter (eligible products filters) ranking)) in H.
  exists (map fst selected). split.
  - apply selected_positions_distinct.
    eapply Permutation_NoDup; [|apply (enumerate_from_nodup scores 0)].
    apply Permutation_map. symmetry. apply sort_desc_perm.
  - subst r.
    assert (Hsel : Forall (fun e => In e (enumerate_from 0 scores)
                                    /\ eligible products filters e = true) selected).
    { apply Forall_forall. intros e He. apply in_firstn in He.
      apply filter_In in He. destruct He as [He Hel]. split; [|exact Hel].
      eapply Permutation_in; [apply sort_desc_perm | exact He]. }
    induction Hsel as [|[i s] rest [Hin Hel] _ IH]; simpl; constructor; [|exact IH].
    cbn [scored_at sp_product similarity_score fst snd]. split.
    + unfold eligible in Hel. cbn [fst snd] in Hel.
      apply andb_prop in Hel. destruct Hel as [_ Hel].
      destruct (nth_error products i) as [product|] eqn:En; [|discriminate].
      f_equal. symmetry. apply nth_error_nth. exact En.
    + apply enumerate_from_nth in Hin. rewrite Nat.sub_0_r in Hin. apply Hin.
Qed.

Lemma semantic_search_results_from_catalog_witness :
  exists positions,
    NoDup positions
    /\ Forall2 (fun i x => nth_error demo_products i = Some (sp_product x)
                           /\ nth_error demo_scores i = Some (similarity_score x))
         positions
         [{| sp_product := [("id", PInt 3); ("manufacturer_name", PStr "Acme")];
             similarity_score := 9 # 10 |};
          {| sp_product := [("id", PInt 1); ("manufacturer_name", PStr "Acme")];
             similarity_score := 1 # 2 |}].
Proof.
  apply (semantic_search_results_from_catalog true demo_products demo_scores
           (Some 2) PNone).
  reflexivity.
Defined.

End SemanticSearchMore.

(** ** epd_api.py: lookup, certificate signals and scan totals *)
Module EpdApiMore.
Import PyStr Py EpdApi EpdApiProps.

Definition id_keys : list string := ["id"; "product_id"; "sku"; "code"].

(** One of the four identifier fields of [p] is present and reads, as a
    string, [target]. *)
Definition carries_id (target : string) (p : dict) : Prop :=
  exists k v, In k id_keys /\ lookup k p = Some v /\ str v = target.

Lemma carries_id_test (target : string) (p : dict) :
  existsb (fun k => has_key k p && String.eqb (str (get p k)) target) id_keys = true
  <-> carries_id target p.
Proof.
  rewrite existsb_exists. unfold carries_id, has_key, get. split.
  - intros (k & Hk & H). apply andb_prop in H. destruct H as [H1 H2].
    destruct (lookup k p) as [v|] eqn:L; [|discriminate].
    apply String.eqb_eq in H2. exists k, v. repeat split; assumption.
  - intros (k & v & Hk & Hl & Hs). exists k. split; [exact Hk|].
    rewrite Hl. cbn [andb]. apply String.eqb_eq. exact Hs.
Qed.

(** [_find_product_by_id] compares string forms: it finds a product
    exactly when some catalog product carries the identifier, as a number
    or as text, under one of the keys [id], [product_id], [sku], [code];
    what it returns is the first such product of the catalog. *)
Theorem find_product_by_id_normalizes (products : list dict) (target : string) :
  ((exists p, In p products /\ carries_id target p) <->
   exists q, _find_product_by_id (Some products) target = Some q)
  /\ forall q,
       _find_product_by_id (Some products) target = Some q ->
       exists before after,
         products = (before ++ q :: after)%list
         /\ carries_id target q
         /\ Forall (fun p => ~ carries_id target p) before.
Proof.
  unfold _find_product_by_id. fold id_keys. split.
  - split.
    + intros (p & Hp & Hc).
      destruct (find _ products) as [q|] eqn:F; [eexists; reflexivity|].
      apply (find_none _ _ F) in Hp. apply carries_id_test in Hc. congruence.
    + intros [q F]. apply find_some in F. destruct F as [Hin Ht].
      exists q. split; [exact Hin | apply carries_id_test; exact Ht].
  - set (test := fun p : dict =>
                   existsb (fun k => has_key k p && String.eqb (str (get p k)) target)
                     id_keys).
    induction products as [|p ps IH]; intros q F; cbn [find] in F; [discriminate|].
    destruct (test p) eqn:E.
    + injection F as <-. exists [], ps. split; [reflexivity|].
      split; [apply carries_id_test; exact E | constructor].
    + destruct (IH q F) as (before & after & -> & Hq & Hb).
      exists (p :: before), after. split; [reflexivity|]. split; [exact Hq|].
      constructor; [|exact Hb]. intros Hc. apply carries_id_test in Hc.
      unfold test in E. congruence.
Qed.

Lemma find_product_by_id_normalizes_witness :
  exists q, _find_product_by_id
              (Some [[("id", PStr "A-1")]; [("sku", PInt 1221); ("name", PStr "Plank")]])
              "1221" = Some q.
Proof.
  apply (proj1 (proj1 (find_product_by_id_normalizes
                         [[("id", PStr "A-1")]; [("sku", PInt 1221); ("name", PStr "Plank")]]
                         "1221"))).
  exists [("sku", PInt 1221); ("name", PStr "Plank")]. split.
  - right. left. reflexivity.
  - exists "sku", (PInt 1221). split; [|split; reflexivity].
    right. right. left. reflexivity.
Defined.

(** What the heuristic concludes from the plain signals. *)
Lemma detect_signals (product : dict) (has_any has_epd : bool) :
  _detect_cert_state product = Ok (has_any, has_epd) ->
  (truthy (get product "epd_url") = true -> has_epd = true)
  /\ (truthy (get product "has_certifications") = true
      \/ truthy (get product "certifications") = true -> has_any = true).
Proof.
  unfold _detect_cert_state. destruct product as [|kv product].
  - intros H. injection H as <- <-. split; [discriminate|].
    intros [H | H]; discriminate.
  - set (p := kv :: product). cbv zeta. intros H.
    destruct (iterate (py_or (get p "certifications") (PList []))) as [cs|];
      cbn [bind] in H; [|discriminate].
    destruct (mapM _ cs) as [cert_names|]; cbn [bind] in H; [|discriminate].
    injection H as <- <-. split.
    + intros ->. reflexivity.
    + intros [-> | Hc]; [reflexivity|].
      rewrite (PyFacts.py_or_truthy _ _ Hc), Hc. rewrite orb_true_r. reflexivity.
Qed.

(** In a scan, a product that has any EPD link is Green, also when the
    link is blank and the stored reason says it is missing; and a product
    with the certification flag or a non-empty certification list is
    never Red. *)
Theorem scan_link_means_green (indexer : option (list dict)) (pid : string)
    (e : payload_row) :
  scan_one indexer pid = Ok e ->
  (truthy (get (scanned_product indexer pid) "epd_url") = true ->
   risk_level (p_row e) = "Green")
  /\ (truthy (get (scanned_product indexer pid) "has_certifications") = true
      \/ truthy (get (scanned_product indexer pid) "certifications") = true ->
      risk_level (p_row e) <> "Red").
Proof.
  intros H. apply scan_one_row in H.
  destruct H as (_ & [has_any has_epd] & base & Hd & Hr & _).
  apply detect_signals in Hd. destruct Hd as [He Ha].
  rewrite Hr. unfold cert_tier. cbn [fst snd]. split.
  - intros T. rewrite (He T). reflexivity.
  - intros T. rewrite (Ha T). destruct has_epd; discriminate.
Qed.

(** The product with a blank link of the mixed catalog. *)
Lemma scan_link_means_green_witness :
  exists e, scan_one mixed_catalog "1" = Ok e
            /\ risk_level (p_row e) = "Green"
            /\ reasons (p_row e) = ["Missing EPD file link"].
Proof.
  eexists. split; [vm_compute; reflexivity|]. split; [|reflexivity].
  apply (proj1 (scan_link_means_green mixed_catalog "1" _ eq_refl)).
  reflexivity.
Defined.

Definition valid_tier (e : payload_row) : Prop :=
  risk_level (p_row e) = "Red" \/ risk_level (p_row e) = "Yellow"
  \/ risk_level (p_row e) = "Green".

Definition has_tier (t : string) (e : payload_row) : bool :=
  String.eqb (risk_level (p_row e)) t.

Lemma fold_count_total (rows : list payload_row) :
  Forall valid_tier rows ->
  forall st,
    let st' := fold_left count_row rows st in
    high st' = high st + Z.of_nat (length (filter (has_tier "Red") rows))
    /\ med st' = med st + Z.of_nat (length (filter (has_tier "Yellow") rows))
    /\ low st' = low st + Z.of_nat (length (filter (has_tier "Green") rows))
    /\ high st' + med st' + low st'
       = high st + med st + low st + Z.of_nat (length rows).
Proof.
  induction 1 as [|r rows Hr _ IH]; intros st; cbv zeta.
  - simpl. repeat split; lia.
  - cbn [fold_left]. specialize (IH (count_row st r)). cbv zeta in IH.
    destruct IH as (H1 & H2 & H3 & H4). rewrite H1, H2, H3 in H4. rewrite H1, H2, H3.
    cbn [count_row high med low filter length] in *. unfold has_tier in *.
    revert H4.
    destruct Hr as [-> | [-> | ->]]; cbn -[Z.of_nat Z.add];
      intros H4; repeat split; lia.
Qed.

Lemma scan_one_valid_tier (indexer : option (list dict)) (pid : string) (e : payload_row) :
  scan_one indexer pid = Ok e -> valid_tier e.
Proof.
  intros H. apply scan_one_row in H.
  destruct H as (_ & [has_any has_epd] & base & _ & Hr & _).
  unfold valid_tier. rewrite Hr. unfold cert_tier. cbn [fst snd].
  destruct has_epd, has_any; auto.
Qed.

Lemma create_scan_created (indexer : option (list dict)) (req : request)
    (outcome : scan_outcome) :
  create_scan indexer req = Ok (ScanCreated outcome) ->
  exists all_ids,
    submitted_ids req = Ok (inl all_ids)
    /\ run_scan indexer (firstn MAX_IDS all_ids) = Ok (ScanCreated outcome).
Proof.
  unfold create_scan. intros H. apply bind_ok in H.
  destruct H as [[all_ids|err] [Hs H]]; [|discriminate].
  exists all_ids. split; [exact Hs|]. destruct req; [exact H|].
  destruct (firstn MAX_IDS all_ids); [discriminate | exact H].
Qed.

(** The totals of a created scan: the three counts are the numbers of
    Red, Yellow and Green rows, every row has one of the three tiers, the
    counts add up to the input count, which is the number of rows and at
    most 5000; and the rows are, in order, those of the first identifiers
    submitted. *)
Theorem created_scan_totals (indexer : option (list dict)) (req : request)
    (outcome : scan_outcome) :
  create_scan indexer req = Ok (ScanCreated outcome) ->
  high_risk_count outcome
  = Z.of_nat (length (filter (has_tier "Red") (entries outcome)))
  /\ medium_risk_count outcome
     = Z.of_nat (length (filter (has_tier "Yellow") (entries outcome)))
  /\ low_risk_count outcome
     = Z.of_nat (length (filter (has_tier "Green") (entries outcome)))
  /\ high_risk_count outcome + medium_risk_count outcome + low_risk_count outcome
     = input_count outcome
  /\ input_count outcome = Z.of_nat (length (entries outcome))
  /\ (length (entries outcome) <= 5000)%nat
  /\ exists all_ids,
       submitted_ids req = Ok (inl all_ids)
       /\ map (fun e => input_product_id (p_row e)) (entries outcome)
          = firstn 5000 all_ids.
Proof.
  intros H. apply create_scan_created in H. destruct H as (all_ids & Hs & H).
  change MAX_IDS with 5000%nat in H.
  assert (Hle : (length (firstn 5000 all_ids) <= 5000)%nat) by apply firstn_le_length.
  remember (firstn 5000 all_ids) as ids eqn:Hids.
  apply run_scan_created in H. destruct H as (rows & M & _ & ->).
  unfold outcome_of.
  cbn [high_risk_count medium_risk_count low_risk_count input_count entries].
  assert (Hvalid : Forall valid_tier rows).
  { pose proof (mapM_each _ _ _ M) as M'. clear -M'.
    induction M' as [|pid e ids es He _ IH]; constructor; [|exact IH].
    eapply scan_one_valid_tier. exact He. }
  pose proof (fold_count_total rows Hvalid fresh_state) as Ht.
  cbv zeta in Ht. cbn [high med low fresh_state] in Ht.
  destruct Ht as (H1 & H2 & H3 & H4).
  pose proof (mapM_length _ _ _ M) as Hlen.
  do 6 (split; [lia|]).
  exists all_ids. split; [exact Hs|]. apply mapM_scan_ids in M.
  rewrite M. exact Hids.
Qed.

Lemma created_scan_totals_witness :
  exists outcome,
    create_scan mixed_catalog mixed_request = Ok (ScanCreated outcome)
    /\ high_risk_count outcome + medium_risk_count outcome + low_risk_count outcome
       = input_count outcome
    /\ input_count outcome = 3.
Proof.
  eexists. split; [vm_compute; reflexivity|].
  destruct (created_scan_totals mixed_catalog mixed_request _ eq_refl)
    as (_ & _ & _ & H & _).
  split; [exact H | reflexivity].
Defined.

(** How a request without identifiers ends.  A JSON request is refused
    with status 400 exactly when none of its entries is usable, and is
    never refused for another reason; an upload whose file yields no
    identifier is not refused: a scan with no rows and zero counts is
    created. *)
Theorem empty_requests (indexer : option (list dict)) :
  (forall body err,
     create_scan indexer (JsonBody body) = Ok (Status400 err) <->
     (err = MissingProductIds /\ submitted_ids (JsonBody body) = Ok (inl [])))
  /\ create_scan indexer (Multipart (Some (Ok [])))
     = Ok (ScanCreated {| input_count := 0; high_risk_count := 0;
                          medium_risk_count := 0; low_risk_count := 0;
                          entries := [] |}).
Proof.
  split; [|reflexivity].
  intros body err. unfold create_scan.
  destruct (submitted_ids (JsonBody body)) as [[ids|bad]|e] eqn:S; cbn [bind].
  - destruct ids as [|pid ids].
    + cbn [firstn]. split.
      * intros H. injection H as <-. split; reflexivity.
      * intros [-> _]. reflexivity.
    + change (firstn MAX_IDS (pid :: ids)) with (pid :: firstn 4999 ids).
      split; [|intros [_ H]; discriminate].
      unfold run_scan. intros H. apply bind_ok in H. destruct H as [st [_ H]].
      apply bind_ok in H. destruct H as [u [_ H]]. discriminate.
  - exfalso. unfold submitted_ids in S.
    destruct (py_or _ _); try discriminate.
    destruct (iterate _); discriminate.
  - split; [discriminate | intros [_ H]; discriminate].
Qed.

End EpdApiMore.

(** ** app.py: the pages of a result list *)
Module PaginationMore.
Import App.

(** The page size the endpoint uses for a requested [per_page]. *)
Definition page_size (req_per_page : Z) : Z := Z.min 100 (Z.max 10 req_per_page).

(** The result lists of the pages 1 to [total_pages], in order. *)
Definition all_pages {A : Type} (l : list A) (req_per_page : Z) : list (list A) :=
  map (fun p => results (search_paginate l (Z.of_nat p) req_per_page))
    (seq 1 (Z.to_nat (total_pages (search_paginate l 1 req_per_page)))).

Lemma chunks_concat {A : Type} (n : nat) :
  forall (k : nat) (l : list A),
    (length l <= k * n)%nat ->
    concat (map (fun i => firstn n (skipn (i * n) l)) (seq 0 k)) = l.
Proof.
  induction k as [|k IH]; intros l Hlen.
  - destruct l; [reflexivity | simpl in Hlen; lia].
  - cbn [seq map concat]. rewrite <- seq_shift, map_map.
    cbn [Nat.mul skipn].
    rewrite (map_ext (fun i => firstn n (skipn (S i * n) l))
                     (fun i => firstn n (skipn (i * n) (skipn n l)))).
    + rewrite IH.
      * apply firstn_skipn.
      * rewrite length_skipn. simpl in Hlen. lia.
    + intros i. rewrite skipn_skipn. f_equal. f_equal. simpl. lia.
Qed.

Lemma page_results {A : Type} (l : list A) (req_per_page : Z) (i : nat) :
  results (search_paginate l (Z.of_nat (S i)) req_per_page)
  = firstn (Z.to_nat (page_size req_per_page))
      (skipn (i * Z.to_nat (page_size req_per_page)) l).
Proof.
  unfold search_paginate, slice. cbn [results]. fold (page_size req_per_page).
  assert (Hp : 10 <= page_size req_per_page <= 100) by (unfold page_size; lia).
  rewrite (Z.max_r 1 (Z.of_nat (S i))) by lia.
  f_equal; [lia|]. f_equal. nia.
Qed.

(** The pages partition the result list: page after page, from the first
    to the last, they give back the whole list in order, nothing lost and
    nothing twice; no page is longer than the page size, which is the
    requested [per_page] brought into the range 10 to 100; and a page
    number below 1 is read as page 1. *)
Theorem pages_partition_results (A : Type) (l : list A) (req_per_page : Z) :
  concat (all_pages l req_per_page) = l
  /\ Forall (fun pg => Z.of_nat (length pg) <= page_size req_per_page)
       (all_pages l req_per_page)
  /\ 10 <= page_size req_per_page <= 100
  /\ forall p, p <= 1 ->
       search_paginate l p req_per_page = search_paginate l 1 req_per_page.
Proof.
  assert (Hp : 10 <= page_size req_per_page <= 100) by (unfold page_size; lia).
  set (n := Z.to_nat (page_size req_per_page)).
  assert (Hpages : all_pages l req_per_page
                   = map (fun i => firstn n (skipn (i * n) l))
                       (seq 0 (Z.to_nat (total_pages (search_paginate l 1 req_per_page))))).
  { unfold all_pages. rewrite <- seq_shift, map_map. apply map_ext.
    intros i. apply page_results. }
  split; [|split; [|split]].
  - rewrite Hpages. apply chunks_concat.
    unfold search_paginate. cbn [total_pages]. fold (page_size req_per_page).
    set (len := Z.of_nat (length l)). set (pp := page_size req_per_page) in *.
    assert (Hq : len <= pp * ((len + pp - 1) / pp)).
    { pose proof (Z.div_mod (len + pp - 1) pp ltac:(lia)) as Hdm.
      pose proof (Z.mod_pos_bound (len + pp - 1) pp ltac:(lia)) as Hmod. lia. }
    assert (Hq0 : 0 <= (len + pp - 1) / pp) by (apply Z.div_pos; lia).
    subst n. nia.
  - rewrite Hpages. apply Forall_forall. intros pg Hpg. apply in_map_iff in Hpg.
    destruct Hpg as [i [<- _]]. pose proof (firstn_le_length n (skipn (i * n) l)).
    subst n. lia.
  - exact Hp.
  - intros p Hle. unfold search_paginate. rewrite (Z.max_l 1 p) by lia. reflexivity.
Qed.

End PaginationMore.

(** ** product_indexer.py: [get_products_by_ids] *)
Module ProductIndexerMore.
Import PyStr Py ProductIndexer.

(** The comprehension [[p for p in self.products if p['id'] in id_set]]. *)
Fixpoint keep_wanted (id_set : list pyval) (products : list dict) : result (list dict) :=
  match products with
  | [] => Ok []
  | p :: rest =>
      id <- subscript p "id" ;;
      if negb (hashable id) then Raise TypeError else
      tail <- keep_wanted id_set rest ;;
      Ok (if existsb (py_eq id) id_set then p :: tail else tail)
  end.

(** [get_products_by_ids]: [set(product_ids)] raises [TypeError] on an id
    that cannot be hashed; the set is kept as the list of its members. *)
Definition get_products_by_ids (products : list dict) (product_ids : list pyval)
  : result (list dict) :=
  if forallb hashable product_ids then keep_wanted product_ids products
  else Raise TypeError.

(** The product's ['id'] is one of [ids] under [==]. *)
Definition wanted (ids : list pyval) (p : dict) : bool :=
  match lookup "id" p with
  | Some id => existsb (py_eq id) ids
  | None => false
  end.

Lemma keep_wanted_filter (ids : list pyval) (products : list dict) :
  forall out, keep_wanted ids products = Ok out -> out = filter (wanted ids) products.
Proof.
  induction products as [|p rest IH]; intros out H; simpl in H.
  - injection H as <-. reflexivity.
  - unfold subscript in H. cbn [filter]. unfold wanted at 1.
    destruct (lookup "id" p) as [id|]; cbn [bind] in H; [|discriminate].
    destruct (hashable id); cbn [negb] in H; [|discriminate].
    destruct (keep_wanted ids rest) as [tail|]; cbn [bind] in H; [|discriminate].
    injection H as <-. rewrite (IH tail eq_refl). reflexivity.
Qed.

Lemma keep_wanted_ok (ids : list pyval) (products : list dict) :
  (exists out, keep_wanted ids products = Ok out) <->
  Forall (fun p => exists id, lookup "id" p = Some id /\ hashable id = true) products.
Proof.
  induction products as [|p rest IH]; simpl.
  - split; [constructor | eexists; reflexivity].
  - unfold subscript. destruct (lookup "id" p) as [id|] eqn:L; cbn [bind].
    + destruct (hashable id) eqn:Hh; cbn [negb].
      * split.
        -- intros [out H]. destruct (keep_wanted ids rest) as [tail|] eqn:K;
             cbn [bind] in H; [|discriminate].
           constructor; [exists id; auto | apply IH; eexists; reflexivity].
        -- intros H. inversion H as [|? ? _ Hrest]; subst.
           apply IH in Hrest. destruct Hrest as [tail ->]. eexists; reflexivity.
      * split; [intros [out H]; discriminate|].
        intros H. inversion H as [|? ? (id' & L' & Hh') _]; subst.
        rewrite L in L'. injection L' as <-. congruence.
    + split; [intros [out H]; discriminate|].
      intros H. inversion H as [|? ? (id' & L' & _) _]; subst. congruence.
Qed.

(** [get_products_by_ids] returns the catalog products whose ['id'] equals
    one of the requested ids, all of them and in catalog order: an id that
    no product carries is dropped without a trace, and neither the order
    of the request nor a repeated id changes the result.  It raises
    exactly when a requested id cannot be hashed, or some catalog product
    has no ['id'] or one that cannot be hashed. *)
Theorem get_products_by_ids_is_catalog_filter (products : list dict)
    (ids : list pyval) :
  (forall out, get_products_by_ids products ids = Ok out ->
               out = filter (wanted ids) products)
  /\ ((exists out, get_products_by_ids products ids = Ok out) <->
      (forallb hashable ids = true
       /\ Forall (fun p => exists id, lookup "id" p = Some id /\ hashable id = true)
            products))
  /\ (forall ids' out out',
        (forall x, In x ids <-> In x ids') ->
        get_products_by_ids products ids = Ok out ->
        get_products_by_ids products ids' = Ok out' ->
        out = out').
Proof.
  unfold get_products_by_ids. split; [|split].
  - intros out H. destruct (forallb hashable ids); [|discriminate].
    apply keep_wanted_filter. exact H.
  - destruct (forallb hashable ids).
    + rewrite keep_wanted_ok. split; [intros H; split; [reflexivity | exact H]|].
      intros [_ H]. exact H.
    + split; [intros [out H]; discriminate | intros [H _]; discriminate].
  - intros ids' out out' Hsame H H'.
    destruct (forallb hashable ids); [|discriminate].
    destruct (forallb hashable ids'); [|discriminate].
    apply keep_wanted_filter in H, H'. subst out out'.
    apply filter_ext. intros p. unfold wanted.
    destruct (lookup "id" p) as [id|]; [|reflexivity].
    apply eq_true_iff_eq. rewrite !existsb_exists.
    split; intros (x & Hx & He); exists x; split; try exact He; apply Hsame; exact Hx.
Qed.

(** The first product [get_products_by_ids] returns for a single id is
    the product [get_product_by_id] returns for it. *)
Theorem get_products_by_ids_head (products : list dict) (id : pyval)
    (out : list dict) :
  get_products_by_ids products [id] = Ok out ->
  get_product_by_id products id = Ok (hd_error out).
Proof.
  unfold get_products_by_ids. cbn [forallb].
  destruct (hashable id && true); [|discriminate].
  revert out. induction products as [|p rest IH]; intros out H; simpl in H.
  - injection H as <-. reflexivity.
  - cbn [get_product_by_id].
    destruct (subscript p "id") as [v|]; cbn [bind] in *; [|discriminate].
    destruct (hashable v); cbn [negb] in H; [|discriminate].
    destruct (keep_wanted [id] rest) as [tail|]; cbn [bind] in H; [|discriminate].
    injection H as <-. cbn [existsb]. rewrite orb_false_r.
    destruct (py_eq v id); [reflexivity|]. apply IH. reflexivity.
Qed.

(** Two products share the id 7; both come back, and the first is the one
    [get_product_by_id] gives. *)
Lemma get_products_by_ids_head_witness :
  get_product_by_id
    [[("id", PInt 3)]; [("id", PInt 7); ("n", PStr "a")]; [("id", PInt 7); ("n", PStr "b")]]
    (PInt 7)
  = Ok (Some [("id", PInt 7); ("n", PStr "a")]).
Proof.
  apply (get_products_by_ids_head
           [[("id", PInt 3)]; [("id", PInt 7); ("n", PStr "a")];
            [("id", PInt 7); ("n", PStr "b")]]
           (PInt 7)
           [[("id", PInt 7); ("n", PStr "a")]; [("id", PInt 7); ("n", PStr "b")]]).
  reflexivity.
Defined.

End ProductIndexerMore.

(** ** search_engine.py: the conversational context of [chat] and
    [stream_chat] *)
Module ChatContext.
Import PyStr Py SearchEngine ProductIndexerMore.

(** [\d] on a character with code point below 256. *)
Definition is_digit (c : ascii) : bool :=
  let n := N_of_ascii c in ((48 <=? n) && (n <=? 57))%N.

(** The longest run of digits at the head of [s], and what follows it. *)
Fixpoint take_digits (s : string) : string * string :=
  match s with
  | EmptyString => (EmptyString, EmptyString)
  | String c s' =>
      if is_digit c
      then let (d, r) := take_digits s' in (String c d, r)
      else (EmptyString, s)
  end.

(** A match of [\(ID:\s*(\d+)\)] at the head of [s]: its group. *)
Definition match_id_here (s : string) : option string :=
  if String.prefix "(ID:" s then
    let (digits, rest) := take_digits (lstrip (drop 4 s)) in
    if is_empty digits then None
    else if String.prefix ")" rest then Some digits else None
  else None.

(** [re.findall(r'\(ID:\s*(\d+)\)', content)].  A match holds one opening
    parenthesis, its first character, so no match starts inside another
    and trying every position finds the matches [findall] finds. *)
Fixpoint findall_ids (s : string) : list string :=
  match s with
  | EmptyString => []
  | String _ s' =>
      match match_id_here s with
      | Some digits => digits :: findall_ids s'
      | None => findall_ids s'
      end
  end.

(** [int(id_str)] on a string of digits. *)
Definition int_of_digits (s : string) : Z :=
  match NilEmpty.uint_of_string s with
  | Some d => Z.of_uint d
  | None => 0
  end.

(** [l[-6:]] *)
Definition last6 {A : Type} (l : list A) : list A := skipn (length l - 6) l.

(** The ids one message contributes. *)
Definition message_ids (msg : pyval) : result (list Z) :=
  role <- method_get msg "role" ;;
  if py_eq role (PStr "assistant") then
    match msg with
    | PDict d =>
        match get_default d "content" (PStr "") with
        | PStr content => Ok (map int_of_digits (findall_ids content))
        | _ => Raise TypeError
        end
    | _ => Raise AttributeError
    end
  else Ok [].

(** [previously_mentioned_ids], the set kept as the list of what was
    added to it. *)
Definition previously_mentioned_ids (chat_history : list pyval) : result (list Z) :=
  match chat_history with
  | [] => Ok []
  | _ => ids <- mapM message_ids (last6 chat_history) ;; Ok (concat ids)
  end.

Definition follow_up_keywords : list string :=
  ["pricing"; "price"; "cost"; "ballpark"; "tell me more"; "compare";
   "difference"; "which one"; "suggestions"; "recommendations";
   "you mentioned"; "you suggested"; "above"; "these"; "those"].

Definition is_follow_up (query : string) : bool :=
  existsb (contains (lower query)) follow_up_keywords.

(** An element of the list handed to the prompt: a fresh search result or
    a catalog product recalled from the history. *)
Inductive chat_item : Type :=
| Fresh (p : scored)
| Recalled (p : dict).

Definition item_product (c : chat_item) : dict :=
  match c with
  | Fresh p => sp_product p
  | Recalled p => p
  end.

(** [{p['id'] for p in products}] *)
Definition ids_of (products : list chat_item) : result (list pyval) :=
  mapM (fun c =>
          id <- subscript (item_product c) "id" ;;
          if hashable id then Ok id else Raise TypeError)
       products.

(** The loop that inserts at the front each previous product whose id is
    not among the ids of the results. *)
Fixpoint prepend_missing (ids_in_results : list pyval) (previous : list dict)
    (products : list chat_item) : result (list chat_item) :=
  match previous with
  | [] => Ok products
  | prev_prod :: rest =>
      id <- subscript prev_prod "id" ;;
      if negb (hashable id) then Raise TypeError else
      prepend_missing ids_in_results rest
        (if existsb (py_eq id) ids_in_results then products
         else Recalled prev_prod :: products)
  end.

(** [l[:n]], for [n] of either sign. *)
Definition slice_upto {A : Type} (l : list A) (n : Z) : list A :=
  if 0 <=? n then firstn (Z.to_nat n) l
  else firstn (length l - Z.to_nat (- n)) l.

(** The products [chat] and [stream_chat] hand to the prompt, from the
    fresh search results, the query and the history. *)
Definition chat_candidates (catalog : list dict) (fresh : list scored)
    (query : string) (chat_history : list pyval) (max_products : Z)
  : result (list chat_item) :=
  let products := map Fresh fresh in
  mentioned <- previously_mentioned_ids chat_history ;;
  match mentioned with
  | _ :: _ =>
      if is_follow_up query then
        previous_products <- get_products_by_ids catalog (map PInt mentioned) ;;
        product_ids_in_results <- ids_of products ;;
        merged <- prepend_missing product_ids_in_results previous_products products ;;
        Ok (slice_upto merged max_products)
      else Ok products
  | [] => Ok products
  end.

End ChatContext.

Module ChatContextProps.
Import PyStr Py SearchEngine ProductIndexerMore ChatContext.

Lemma digit_string_head (d : Decimal.uint) (rest : string) :
  d <> Decimal.Nil ->
  exists c s, (NilEmpty.string_of_uint d ++ rest)%string = String c s
              /\ is_digit c = true /\ is_space c = false.
Proof.
  intros Hd. destruct d; try contradiction; simpl; eexists; eexists;
    (split; [reflexivity | split; reflexivity]).
Qed.

Lemma take_digits_uint (d : Decimal.uint) (post : string) :
  take_digits (NilEmpty.string_of_uint d ++ String ")" post)
  = (NilEmpty.string_of_uint d, String ")" post).
Proof.
  induction d; simpl; try reflexivity;
    change (is_digit _) with true; cbn iota; rewrite IHd; reflexivity.
Qed.

Lemma match_id_rendered (d : Decimal.uint) (post : string) :
  d <> Decimal.Nil ->
  match_id_here ("(ID: " ++ NilEmpty.string_of_uint d ++ String ")" post)
  = Some (NilEmpty.string_of_uint d).
Proof.
  intros Hd. unfold match_id_here.
  change (String.prefix "(ID:" ("(ID: " ++ NilEmpty.string_of_uint d ++ String ")" post))
    with true. cbn iota.
  change (drop 4 ("(ID: " ++ NilEmpty.string_of_uint d ++ String ")" post))
    with (String " " (NilEmpty.string_of_uint d ++ String ")" post)).
  change (lstrip (String " " (NilEmpty.string_of_uint d ++ String ")" post)))
    with (lstrip (NilEmpty.string_of_uint d ++ String ")" post)).
  destruct (digit_string_head d (String ")" post) Hd) as (c & s & Hs & _ & Hsp).
  assert (Hl : lstrip (NilEmpty.string_of_uint d ++ String ")" post)
               = (NilEmpty.string_of_uint d ++ String ")" post)%string).
  { rewrite Hs. simpl. rewrite Hsp. reflexivity. }
  rewrite Hl, take_digits_uint.
  assert (Hp : String.prefix ")" (String ")" post) = true)
    by (simpl; destruct post; reflexivity).
  rewrite Hp. destruct d; try contradiction; reflexivity.
Qed.

Lemma findall_ids_later (pre s digits : string) :
  match_id_here s = Some digits -> In digits (findall_ids (pre ++ s)).
Proof.
  intros H. induction pre as [|c pre IH].
  - simpl. destruct s as [|c s]; [discriminate H|].
    cbn [findall_ids]. rewrite H. left. reflexivity.
  - cbn [append findall_ids].
    destruct (match_id_here (String c (pre ++ s))); [right|]; exact IH.
Qed.

Lemma str_of_nonneg (z : Z) :
  0 <= z ->
  exists d, d <> Decimal.Nil
            /\ str_of_Z z = NilEmpty.string_of_uint d
            /\ Z.of_uint d = z.
Proof.
  intros Hz. unfold str_of_Z. destruct z as [|p|p]; [| |lia].
  - exists (Decimal.D0 Decimal.Nil). repeat split. discriminate.
  - exists (Pos.to_uint p). split; [apply DecimalPos.Unsigned.to_uint_nonnil|].
    split.
    + cbn [Z.to_int NilZero.string_of_int]. unfold NilZero.string_of_uint.
      pose proof (DecimalPos.Unsigned.to_uint_nonnil p) as Hn.
      destruct (Pos.to_uint p); [contradiction | reflexivity ..].
    + unfold Z.of_uint. rewrite DecimalPos.Unsigned.of_to. reflexivity.
Qed.

(** Whatever surrounds it, a mention written as the chat prompt writes
    it, [(ID: n)] for a product number [n], is found by the extraction,
    with its number. *)
Theorem mention_is_extracted (z : Z) (pre post : string) :
  0 <= z ->
  In z (map int_of_digits
          (findall_ids (pre ++ "(ID: " ++ str_of_Z z ++ ")" ++ post))).
Proof.
  intros Hz. destruct (str_of_nonneg z Hz) as (d & Hd & Hs & Hv).
  apply in_map_iff. exists (NilEmpty.string_of_uint d). split.
  - unfold int_of_digits. rewrite NilEmpty.usu. exact Hv.
  - rewrite Hs. apply findall_ids_later.
    apply (match_id_rendered d post Hd).
Qed.

Lemma mention_is_extracted_witness :
  In 1221 (map int_of_digits
             (findall_ids ("Try Acme Plank " ++ "(ID: " ++ str_of_Z 1221 ++ ")" ++ "."))).
Proof.
  apply (mention_is_extracted 1221 "Try Acme Plank " "."). discriminate.
Defined.

Lemma prepend_missing_spec (ids : list pyval) (previous : list dict) :
  forall products out,
    prepend_missing ids previous products = Ok out ->
    out = (rev (map Recalled (filter (fun p => negb (wanted ids p)) previous))
           ++ products)%list.
Proof.
  induction previous as [|p rest IH]; intros products out H; simpl in H.
  - injection H as <-. reflexivity.
  - unfold subscript in H. cbn [filter]. unfold wanted at 1.
    destruct (lookup "id" p) as [id|]; cbn [bind] in H; [|discriminate].
    destruct (hashable id); cbn [negb] in H; [|discriminate].
    apply IH in H. destruct (existsb (py_eq id) ids); cbn [negb].
    + exact H.
    + rewrite H. cbn [map rev]. rewrite <- app_assoc. reflexivity.
Qed.

Lemma filter_filter {A : Type} (f g : A -> bool) (l : list A) :
  filter g (filter f l) = filter (fun x => f x && g x) l.
Proof.
  induction l as [|x l IH]; simpl; [reflexivity|].
  destruct (f x); simpl; [destruct (g x); rewrite IH; reflexivity | exact IH].
Qed.

Lemma slice_upto_length {A : Type} (l : list A) (n : Z) :
  0 <= n -> Z.of_nat (length (slice_upto l n)) <= n.
Proof.
  intros Hn. unfold slice_upto. destruct (Z.leb_spec 0 n); [|lia].
  pose proof (firstn_le_length (Z.to_nat n) l). lia.
Qed.

(** The list handed to the chat prompt.  Unless the query holds a
    follow-up keyword and the last six messages mention some product, it
    is the fresh results untouched.  Otherwise it is cut to
    [max_products] from: the catalog products that are mentioned and
    whose id is not a fresh result's, in reverse catalog order, followed
    by the fresh results; so a recalled product never repeats a fresh one,
    recalled products come first, and the cut can drop fresh results. *)
Theorem chat_candidates_merge (catalog : list dict) (fresh : list scored)
    (query : string) (chat_history : list pyval) (max_products : Z)
    (out : list chat_item) :
  chat_candidates catalog fresh query chat_history max_products = Ok out ->
  exists mentioned,
    previously_mentioned_ids chat_history = Ok mentioned
    /\ (is_follow_up query = false \/ mentioned = [] -> out = map Fresh fresh)
    /\ (is_follow_up query = true -> mentioned <> [] ->
        exists fresh_ids,
          ids_of (map Fresh fresh) = Ok fresh_ids
          /\ out = slice_upto
                     (rev (map Recalled
                             (filter (fun p => wanted (map PInt mentioned) p
                                               && negb (wanted fresh_ids p))
                                catalog))
                      ++ map Fresh fresh)%list
                     max_products
          /\ (0 <= max_products -> Z.of_nat (length out) <= max_products)).
Proof.
  unfold chat_candidates. cbv zeta. intros H.
  destruct (previously_mentioned_ids chat_history) as [mentioned|]; cbn [bind] in H;
    [|discriminate].
  exists mentioned. split; [reflexivity|].
  destruct mentioned as [|m ms].
  - injection H as <-. split; [reflexivity|]. intros _ Hne. contradiction.
  - destruct (is_follow_up query).
    + split; [intros [Hf | Hm]; discriminate|]. intros _ _.
      destruct (get_products_by_ids catalog (map PInt (m :: ms))) as [previous|] eqn:G;
        cbn [bind] in H; [|discriminate].
      destruct (ids_of (map Fresh fresh)) as [fresh_ids|]; cbn [bind] in H;
        [|discriminate].
      destruct (prepend_missing fresh_ids previous (map Fresh fresh)) as [merged|] eqn:P;
        cbn [bind] in H; [|discriminate].
      injection H as <-. exists fresh_ids. split; [reflexivity|].
      apply prepend_missing_spec in P.
      unfold get_products_by_ids in G.
      destruct (forallb hashable (map PInt (m :: ms))); [|discriminate].
      apply keep_wanted_filter in G. subst previous merged.
      rewrite filter_filter. split; [reflexivity|].
      apply slice_upto_length.
    + injection H as <-. split; [reflexivity|]. intros Hf. discriminate.
Qed.

Definition small_catalog : list dict :=
  [[("id", PInt 1); ("product_name", PStr "Plank")];
   [("id", PInt 2); ("product_name", PStr "Tile")];
   [("id", PInt 3); ("product_name", PStr "Panel")]].

Definition fresh_tile : scored :=
  {| sp_product := [("id", PInt 2); ("product_name", PStr "Tile")];
     similarity_score := 4 # 5 |}.

Definition history_with_mentions : list pyval :=
  [PDict [("role", PStr "user"); ("content", PStr "flooring?")];
   PDict [("role", PStr "assistant");
          ("content", PStr "Acme Plank (ID: 1), Birch Tile (ID:2) and Panel (ID:  3)")]].

(** A follow-up about prices after three products were mentioned, with a
    fresh result that is one of them: the other two are recalled, last of
    the catalog first, and with two slots the fresh result is dropped. *)
Lemma chat_candidates_merge_witness :
  exists out,
    chat_candidates small_catalog [fresh_tile] "What about pricing?"
      history_with_mentions 2 = Ok out
    /\ map (fun c => get (item_product c) "id") out = [PInt 3; PInt 1]
    /\ Z.of_nat (length out) <= 2.
Proof.
  eexists. split; [vm_compute; reflexivity|]. split; [reflexivity|].
  destruct (chat_candidates_merge small_catalog [fresh_tile] "What about pricing?"
              history_with_mentions 2 _ eq_refl) as (mentioned & Hm & _ & H).
  injection Hm as <-.
  destruct (H eq_refl ltac:(discriminate)) as (ids & _ & _ & Hlen).
  apply Hlen. discriminate.
Defined.

End ChatContextProps.

(** ** search_engine.py: [search], and the listing of app.py *)
Module SearchPipeline.
Import PyStr Py SearchEngine.

Section WithParser.

Variable json_loads : string -> option pyval.

(** [search]: [provider] is the generative provider seen from the
    refiner, from the candidates it is shown to what its call gives. *)
Definition search (has_client : bool) (products : list dict) (scores : list Q)
    (filters : pyval) (use_llm_refinement : bool)
    (provider : list scored -> result (option string))
  : result (list ranked) :=
  semantic_results <- semantic_search has_client products scores None filters ;;
  match semantic_results with
  | [] => Ok []
  | _ =>
      if use_llm_refinement && has_client
      then llm_refine_results json_loads has_client
             (provider semantic_results) semantic_results
      else Ok (fallback semantic_results)
  end.

End WithParser.

(** The loop of [get_all_products]: the filters are applied to every
    product, and the loop leaves once [limit] products are gathered. *)
Fixpoint take_passing (filters : pyval) (limit : Z) (all_products : list dict)
    (filtered_products : list dict) : result (list dict) :=
  match all_products with
  | [] => Ok filtered_products
  | product :: rest =>
      pass <- _passes_filters product filters ;;
      if pass then
        let filtered_products' := (filtered_products ++ [product])%list in
        if Z.of_nat (length filtered_products') >=? limit
        then Ok filtered_products'
        else take_passing filters limit rest filtered_products'
      else take_passing filters limit rest filtered_products
  end.

(** [get_all_products] once the query string is read: [filters] is the
    dict built from it and [limit] the integer it gives. *)
Definition get_all_products (products : list dict) (filters : dict) (limit : Z)
  : result (list dict) :=
  take_passing (PDict filters) limit products [].

End SearchPipeline.

Module SearchPipelineProps.
Import PyStr Py SearchEngine SemanticSearchProps SemanticSearchMore RefineMore
       SearchPipeline.

Lemma semantic_results_eligible (has_client : bool) (products : list dict)
    (scores : list Q) (top_k : option Z) (filters : pyval) (r : list scored) :
  semantic_search has_client products scores top_k filters = Ok r ->
  Forall (fun x => In (sp_product x) products
                   /\ (Config.SIMILARITY_THRESHOLD <= similarity_score x)%Q) r
  /\ (Z.of_nat (length r) <= Z.max 1 (effective_top_k top_k)).
Proof.
  intros H. unfold semantic_search in H.
  destruct has_client; [|discriminate]. cbn [negb] in H.
  apply collect_spec in H. cbn [length app] in H. subst r. split.
  - apply Forall_forall. intros x Hx. apply in_map_iff in Hx.
    destruct Hx as [e [<- He]]. apply in_firstn in He. apply filter_In in He.
    destruct He as [_ Hel]. cbn [scored_at sp_product similarity_score]. split.
    + unfold eligible in Hel. apply andb_prop in Hel. destruct Hel as [_ Hel].
      destruct (nth_error products (fst e)) as [product|] eqn:En; [|discriminate].
      rewrite (nth_error_nth _ _ _ En). eapply nth_error_In. exact En.
    + eapply eligible_above_threshold. exact Hel.
  - rewrite length_map.
    pose proof (firstn_le_length
                  (Z.to_nat (Z.max 1 (effective_top_k top_k - Z.of_nat 0)))
                  (filter (eligible products filters)
                     (sort_desc (enumerate_from 0 scores)))).
    lia.
Qed.

Section WithParser.

Variable json_loads : string -> option pyval.

(** What [search] returns is made of semantic results: at most
    [TOP_K_FINAL] of them, each a catalog product whose similarity is not
    below the threshold, whether the refiner ran or not; without
    refinement it is the first [TOP_K_FINAL] semantic results in their
    order.  And [search] raises only what the semantic search raises, or
    the [UnboundLocalError] of the refiner. *)
Theorem search_results_are_semantic (has_client : bool) (products : list dict)
    (scores : list Q) (filters : pyval) (use_llm_refinement : bool)
    (provider : list scored -> result (option string)) :
  (forall out,
     search json_loads has_client products scores filters use_llm_refinement provider
     = Ok out ->
     exists semantic,
       semantic_search has_client products scores None filters = Ok semantic
       /\ (length out <= Config.TOP_K_FINAL)%nat
       /\ Forall (fun x => In (r_product x) semantic
                           /\ In (sp_product (r_product x)) products
                           /\ (Config.SIMILARITY_THRESHOLD
                               <= similarity_score (r_product x))%Q) out
       /\ (use_llm_refinement = false -> out = fallback semantic))
  /\ (forall e,
        search json_loads has_client products scores filters use_llm_refinement provider
        = Raise e ->
        semantic_search has_client products scores None filters = Raise e
        \/ e = UnboundLocalError).
Proof.
  unfold search. split.
  - intros out H.
    destruct (semantic_search has_client products scores None filters)
      as [semantic|] eqn:S; cbn [bind] in H; [|discriminate].
    exists semantic. split; [reflexivity|].
    pose proof (semantic_results_eligible _ _ _ _ _ _ S) as [Hel _].
    rewrite Forall_forall in Hel.
    assert (Hshape : (length out <= Config.TOP_K_FINAL)%nat
                     /\ Forall (fun x => In (r_product x) semantic) out
                     /\ (use_llm_refinement = false -> out = fallback semantic)).
    { destruct semantic as [|s0 rest].
      - injection H as <-. split; [apply Nat.le_0_l|]. split; [constructor|].
        intros _. reflexivity.
      - destruct (use_llm_refinement && has_client) eqn:U.
        + apply refine_results_shape in H. destruct H as [H1 H2].
          split; [exact H1|]. split; [exact H2|]. intros ->. discriminate.
        + injection H as <-. destruct (fallback_shape (s0 :: rest)) as [H1 H2].
          split; [exact H1|]. split; [exact H2|]. intros _. reflexivity. }
    destruct Hshape as (H1 & H2 & H3). split; [exact H1|]. split; [|exact H3].
    apply Forall_forall. intros x Hx. rewrite Forall_forall in H2.
    specialize (H2 x Hx). split; [exact H2|]. apply (Hel _ H2).
  - intros e H.
    destruct (semantic_search has_client products scores None filters)
      as [semantic|] eqn:S; cbn [bind] in H;
      [|left; injection H as <-; reflexivity].
    right. destruct semantic as [|s0 rest]; [discriminate|].
    destruct (use_llm_refinement && has_client); [|discriminate].
    unfold llm_refine_results in H.
    destruct has_client; cbn [negb] in H; [|discriminate].
    destruct (provider (s0 :: rest)) as [[raw|]|e']; try discriminate.
    + destruct (refine_parsed json_loads (strip raw) (s0 :: rest)); discriminate.
    + destruct e'; try discriminate. injection H as <-. reflexivity.
Qed.

End WithParser.

(** The listing filter on one product, with a raise counted as a
    refusal. *)
Definition listed (filters : pyval) (product : dict) : bool :=
  match _passes_filters product filters with
  | Ok true => true
  | _ => false
  end.

Lemma take_passing_spec (filters : pyval) (limit : Z) (all_products : list dict) :
  forall acc out,
    take_passing filters limit all_products acc = Ok out ->
    out = (acc ++ firstn (Z.to_nat (Z.max 1 (limit - Z.of_nat (length acc))))
                    (filter (listed filters) all_products))%list.
Proof.
  induction all_products as [|p rest IH]; intros acc out H; simpl in H.
  - injection H as <-. simpl. rewrite firstn_nil, app_nil_r. reflexivity.
  - cbn [filter]. unfold listed at 1.
    destruct (_passes_filters p filters) as [[|]|]; cbn [bind] in H;
      [| apply IH; exact H | discriminate].
    rewrite length_app in H. cbn [length] in H.
    pose proof (Zge_cases (Z.of_nat (length acc + 1)) limit) as Hc.
    destruct (Z.of_nat (length acc + 1) >=? limit).
    + injection H as <-.
      replace (Z.max 1 (limit - Z.of_nat (length acc))) with 1 by lia.
      reflexivity.
    + apply IH in H. rewrite H, length_app. cbn [length].
      replace (Z.to_nat (Z.max 1 (limit - Z.of_nat (length acc))))
        with (S (Z.to_nat (Z.max 1 (limit - Z.of_nat (length acc + 1))))) by lia.
      cbn [firstn]. rewrite <- app_assoc. reflexivity.
Qed.

(** On a well-formed catalog and filter dict the listing never raises and
    returns the first products the filters accept, in catalog order:
    [limit] of them, but one when [limit] is zero or negative, so a limit
    of 0 does not give an empty list. *)
Theorem get_all_products_first_accepted (products : list dict) (filters : dict)
    (limit : Z) :
  forallb wf_product products = true ->
  wf_filters (PDict filters) = true ->
  get_all_products products filters limit
  = Ok (firstn (Z.to_nat (Z.max 1 limit))
          (filter (fun p => accepts p filters) products)).
Proof.
  intros Hp Hf. unfold get_all_products.
  assert (Htotal : forall ps acc,
             forallb wf_product ps = true ->
             exists out, take_passing (PDict filters) limit ps acc = Ok out).
  { induction ps as [|p ps IH]; intros acc Hps; simpl.
    - eexists; reflexivity.
    - simpl in Hps. apply andb_prop in Hps. destruct Hps as [Hw Hps].
      rewrite (passes_filters_value p filters Hw Hf). cbn [bind].
      destruct (accepts p filters); [|apply IH; exact Hps].
      destruct (_ >=? limit); [eexists; reflexivity | apply IH; exact Hps]. }
  destruct (Htotal products [] Hp) as [out Hout]. rewrite Hout.
  apply take_passing_spec in Hout. cbn [length app] in Hout.
  replace (limit - Z.of_nat 0) with limit in Hout by lia. subst out.
  f_equal. f_equal. apply filter_ext_in. intros p Hin. unfold listed.
  rewrite forallb_forall in Hp.
  rewrite (passes_filters_value p filters (Hp p Hin) Hf).
  destruct (accepts p filters); reflexivity.
Qed.

(** The demo catalog listed for the manufacturer Acme with limit 0: one
    product comes back. *)
Lemma get_all_products_first_accepted_witness :
  get_all_products demo_products [("manufacturers", PList [PStr "Acme"])] 0
  = Ok [[("id", PInt 1); ("manufacturer_name", PStr "Acme")]].
Proof.
  rewrite (get_all_products_first_accepted demo_products
             [("manufacturers", PList [PStr "Acme"])] 0 eq_refl eq_refl).
  reflexivity.
Defined.

End SearchPipelineProps.

(** ** app.py: [assess_products] *)
Module Assess.
Import PyStr Py RuleEngine.

(** An entry of the assessed list. *)
Record assessment : Type := {
  a_product_id : pyval;
  a_product_name : pyval;
  a_manufacturer : pyval;
  a_has_epd : bool;
  a_epd_url : pyval;
  a_has_issue_date : bool;
  a_risk_level : string;
  a_risk_reason : string
}.

(** The summary of the response. *)
Record summary : Type := {
  s_total : Z;
  s_red : Z;
  s_yellow : Z;
  s_green : Z
}.

(** [bool((v or '').strip())] *)
Definition nonblank_text (v : pyval) : result bool :=
  match py_or v (PStr "") with
  | PStr s => Ok (negb (is_empty (strip s)))
  | _ => Raise AttributeError
  end.

(** [(v or '').lower()] *)
Definition lowered_text (v : pyval) : result string :=
  match py_or v (PStr "") with
  | PStr s => Ok (lower s)
  | _ => Raise AttributeError
  end.

(** [risk_order.get(level, 3)] *)
Definition risk_rank (level : string) : Z :=
  if String.eqb level "red" then 0
  else if String.eqb level "yellow" then 1
  else if String.eqb level "green" then 2
  else 3.

(** The sort key: the rank of the tier, then whether there is an EPD
    (none first), then the lowered name. *)
Definition sort_key (a : assessment) : result (Z * bool * string) :=
  name <- lowered_text (a_product_name a) ;;
  Ok (risk_rank (a_risk_level a), a_has_epd a, name).

(** [k1 <= k2] on keys, as tuples compare. *)
Definition key_le (k1 k2 : Z * bool * string) : bool :=
  let '(r1, e1, n1) := k1 in
  let '(r2, e2, n2) := k2 in
  if r1 <? r2 then true
  else if r2 <? r1 then false
  else if negb e1 && e2 then true
  else if e1 && negb e2 then false
  else String.leb n1 n2.

(** [list.sort(key=...)]: stable, on keys computed beforehand. *)
Fixpoint insert_by_key (x : (Z * bool * string) * assessment)
    (l : list ((Z * bool * string) * assessment))
  : list ((Z * bool * string) * assessment) :=
  match l with
  | [] => [x]
  | y :: l' => if key_le (fst x) (fst y) then x :: l else y :: insert_by_key x l'
  end.

Fixpoint sort_by_key (l : list ((Z * bool * string) * assessment))
  : list ((Z * bool * string) * assessment) :=
  match l with
  | [] => []
  | x :: l' => insert_by_key x (sort_by_key l')
  end.

Definition count_level (level : string) (assessed : list assessment) : Z :=
  Z.of_nat (length (filter (fun a => String.eqb (a_risk_level a) level) assessed)).

Section WithSeparator.

(** The separator written between several reasons; its last character
    has a code point above 255. *)
Variable reason_separator : string.

(** The body of the loop, for one element of ['products']. *)
Definition assess_one (p : pyval) : result assessment :=
  match p with
  | PDict d =>
      evaluation <- evaluate_product d ;;
      let '(risk, reasons, advisories) := evaluation in
      has_epd <- nonblank_text (get d "epd_url") ;;
      has_issue_date <- nonblank_text (get d "epd_issue_date") ;;
      Ok {| a_product_id := py_or (get d "id") (get d "product_id");
            a_product_name := py_or (get d "product_name") (get d "name");
            a_manufacturer := py_or (get d "manufacturer_name") (get d "manufacturer");
            a_has_epd := has_epd;
            a_epd_url := get d "epd_url";
            a_has_issue_date := has_issue_date;
            a_risk_level := lower risk;
            a_risk_reason :=
              match reasons with
              | [] => EmptyString
              | _ => join reason_separator reasons
              end |}
  | _ => Raise AttributeError
  end.

(** [assess_products] on the list under ['products']; a raise is what the
    handler turns into the response with status 500. *)
Definition assess_products (products : list pyval)
  : result (list assessment * summary) :=
  assessed <- mapM assess_one products ;;
  keys <- mapM sort_key assessed ;;
  let sorted := map snd (sort_by_key (combine keys assessed)) in
  Ok (sorted,
      {| s_total := Z.of_nat (length sorted);
         s_red := count_level "red" sorted;
         s_yellow := count_level "yellow" sorted;
         s_green := count_level "green" sorted |}).

End WithSeparator.

End Assess.

Module AssessProps.
Import PyStr Py RuleEngine RuleEngineProps Assess.

(** A value that is falsy or a string. *)
Definition text_or_falsy (v : pyval) : Prop :=
  truthy v = false \/ exists s, v = PStr s.

(** What [assess_products] needs of an element: a dict whose EPD link,
    issue date and display name are each falsy or a string. *)
Definition assessable (p : pyval) : Prop :=
  exists d,
    p = PDict d
    /\ text_or_falsy (get d "epd_url")
    /\ text_or_falsy (get d "epd_issue_date")
    /\ text_or_falsy (py_or (get d "product_name") (get d "name")).

Lemma or_text_ok (v : pyval) :
  text_or_falsy v <-> exists s, py_or v (PStr "") = PStr s.
Proof.
  unfold text_or_falsy, py_or. split.
  - intros [H | [s ->]].
    + rewrite H. eexists; reflexivity.
    + destruct (truthy (PStr s)); eexists; reflexivity.
  - intros [s H]. destruct (truthy v) eqn:T; [right | left; reflexivity].
    exists s. exact H.
Qed.

Lemma nonblank_text_ok (v : pyval) :
  (exists b, nonblank_text v = Ok b) <-> text_or_falsy v.
Proof.
  rewrite or_text_ok. unfold nonblank_text. split.
  - intros [b H]. destruct (py_or v (PStr "")); try discriminate. eexists; reflexivity.
  - intros [s ->]. eexists; reflexivity.
Qed.

Lemma lowered_text_ok (v : pyval) :
  (exists s, lowered_text v = Ok s) <-> text_or_falsy v.
Proof.
  rewrite or_text_ok. unfold lowered_text. split.
  - intros [b H]. destruct (py_or v (PStr "")); try discriminate. eexists; reflexivity.
  - intros [s ->]. eexists; reflexivity.
Qed.

Lemma evaluate_ok (d : dict) :
  (exists r, evaluate_product d = Ok r) <-> text_or_falsy (get d "epd_url").
Proof.
  unfold text_or_falsy. split.
  - intros [r H]. destruct (truthy (get d "epd_url")) eqn:T; [right | left; reflexivity].
    destruct (get d "epd_url") as [| | |s| |] eqn:U; try (exists s; reflexivity);
      rewrite RuleEngineMore.evaluate_nonstring_raises in H;
      try discriminate; rewrite U; try exact T; intros; discriminate.
  - intros [T | [s Hs]].
    + eexists. apply evaluate_missing. left. exact T.
    + destruct (all_space s) eqn:Hb.
      * eexists. apply evaluate_missing. right. exists s. split; assumption.
      * eexists. apply (evaluate_present d s Hs Hb).
Qed.

Lemma evaluate_level (d : dict) (tier : string) (rs ads : list string) :
  evaluate_product d = Ok (tier, rs, ads) ->
  lower tier = "red" \/ lower tier = "yellow" \/ lower tier = "green".
Proof.
  intros H.
  assert (Ht : text_or_falsy (get d "epd_url")) by (apply evaluate_ok; eexists; exact H).
  destruct Ht as [T | [s Hs]].
  - rewrite evaluate_missing in H by (left; exact T). injection H as <- _ _. auto.
  - destruct (all_space s) eqn:Hb.
    + rewrite evaluate_missing in H by (right; exists s; split; assumption).
      injection H as <- _ _. auto.
    + rewrite (evaluate_present d s Hs Hb) in H.
      destruct (is_absolute s), (has_issue_date d); injection H as <- _ _; auto.
Qed.

Lemma mapM_ok {A B : Type} (f : A -> result B) (l : list A) :
  (exists out, mapM f l = Ok out) <-> Forall (fun x => exists y, f x = Ok y) l.
Proof.
  induction l as [|x l IH]; simpl.
  - split; [constructor | eexists; reflexivity].
  - split.
    + intros [out H]. destruct (f x) as [y|] eqn:E; cbn [bind] in H; [|discriminate].
      destruct (mapM f l) as [ys|]; cbn [bind] in H; [|discriminate].
      constructor; [exists y; exact E | apply IH; eexists; reflexivity].
    + intros H. inversion H as [|? ? [y Hy] Hl]; subst.
      apply IH in Hl. destruct Hl as [ys ->]. rewrite Hy. eexists; reflexivity.
Qed.

Lemma mapM_pairs {A B : Type} (f : A -> result B) (l : list A) :
  forall out, mapM f l = Ok out -> Forall2 (fun x y => f x = Ok y) l out.
Proof.
  induction l as [|x l IH]; intros out H; simpl in H.
  - injection H as <-. constructor.
  - destruct (f x) as [y|] eqn:E; cbn [bind] in H; [|discriminate].
    destruct (mapM f l) as [ys|]; cbn [bind] in H; [|discriminate].
    injection H as <-. constructor; [exact E | apply IH; reflexivity].
Qed.

Section WithSeparator.

Variable reason_separator : string.

Lemma assess_one_ok (p : pyval) :
  (exists a, assess_one reason_separator p = Ok a
             /\ text_or_falsy (a_product_name a))
  <-> assessable p.
Proof.
  unfold assessable, assess_one. split.
  - intros (a & H & Hn). destruct p as [| | | | |d]; try discriminate.
    exists d. split; [reflexivity|].
    destruct (evaluate_product d) as [[[risk rs] ads]|] eqn:E; cbn [bind] in H;
      [|discriminate].
    destruct (nonblank_text (get d "epd_url")) as [b1|] eqn:N1; cbn [bind] in H;
      [|discriminate].
    destruct (nonblank_text (get d "epd_issue_date")) as [b2|] eqn:N2; cbn [bind] in H;
      [|discriminate].
    injection H as <-. cbn [a_product_name] in Hn.
    split; [apply nonblank_text_ok; eexists; exact N1|].
    split; [apply nonblank_text_ok; eexists; exact N2 | exact Hn].
  - intros (d & -> & H1 & H2 & H3).
    apply evaluate_ok in H1 as He. destruct He as [[[risk rs] ads] ->].
    apply nonblank_text_ok in H1. destruct H1 as [b1 ->].
    apply nonblank_text_ok in H2. destruct H2 as [b2 ->].
    cbn [bind]. eexists. split; [reflexivity | exact H3].
Qed.

(** [assess_products] answers (instead of failing with status 500)
    exactly when every element is a dict whose EPD link, issue date and
    display name are each falsy or a string; so a numeric issue date,
    which [evaluate_product] accepts, makes the whole request fail. *)
Theorem assess_products_succeeds_iff (products : list pyval) :
  (exists r, assess_products reason_separator products = Ok r)
  <-> Forall assessable products.
Proof.
  unfold assess_products. split.
  - intros [r H].
    destruct (mapM (assess_one reason_separator) products) as [assessed|] eqn:M;
      cbn [bind] in H; [|discriminate].
    destruct (mapM sort_key assessed) as [keys|] eqn:K; cbn [bind] in H; [|discriminate].
    assert (Hk : Forall (fun a => exists k, sort_key a = Ok k) assessed)
      by (apply mapM_ok; eexists; exact K).
    apply mapM_pairs in M. clear K H.
    induction M as [|p a ps as' Hpa _ IH]; constructor.
    + apply assess_one_ok. exists a. split; [exact Hpa|].
      inversion Hk as [|? ? [k Hka] _]; subst. unfold sort_key in Hka.
      apply lowered_text_ok.
      destruct (lowered_text (a_product_name a)) as [s|]; [eexists; reflexivity|].
      discriminate.
    + apply IH. inversion Hk; assumption.
  - intros H.
    assert (Hm : exists assessed,
               mapM (assess_one reason_separator) products = Ok assessed
               /\ Forall (fun a => text_or_falsy (a_product_name a)) assessed).
    { induction H as [|p ps Hp _ IH].
      - exists []. split; [reflexivity | constructor].
      - apply assess_one_ok in Hp. destruct Hp as (a & Ha & Hn).
        destruct IH as (assessed & Hs & Hf). exists (a :: assessed). split.
        + cbn [mapM]. rewrite Ha, Hs. reflexivity.
        + constructor; assumption. }
    destruct Hm as (assessed & -> & Hf). cbn [bind].
    assert (Hk : exists keys, mapM sort_key assessed = Ok keys).
    { apply mapM_ok. eapply Forall_impl; [|exact Hf]. intros a Ha.
      unfold sort_key. apply lowered_text_ok in Ha. destruct Ha as [s ->].
      eexists; reflexivity. }
    destruct Hk as [keys ->]. cbn [bind]. eexists; reflexivity.
Qed.

End WithSeparator.

(** The rank stored in a computed key. *)
Definition key_rank (x : (Z * bool * string) * assessment) : Z := fst (fst (fst x)).

Lemma key_le_rank (k1 k2 : Z * bool * string) :
  (key_le k1 k2 = true -> fst (fst k1) <= fst (fst k2))
  /\ (key_le k1 k2 = false -> fst (fst k2) <= fst (fst k1)).
Proof.
  destruct k1 as [[r1 e1] n1], k2 as [[r2 e2] n2]. cbn [key_le fst].
  destruct (Z.ltb_spec r1 r2); [split; [lia | discriminate]|].
  destruct (Z.ltb_spec r2 r1); [split; [discriminate | lia]|].
  split; intros _; lia.
Qed.

Lemma insert_by_key_perm (x : (Z * bool * string) * assessment) l :
  Permutation (insert_by_key x l) (x :: l).
Proof.
  induction l as [|y l IH]; simpl; [reflexivity|].
  destruct (key_le (fst x) (fst y)); [reflexivity|].
  rewrite IH. apply perm_swap.
Qed.

Lemma sort_by_key_perm l : Permutation (sort_by_key l) l.
Proof.
  induction l as [|x l IH]; simpl; [reflexivity|].
  rewrite insert_by_key_perm, IH. reflexivity.
Qed.

Lemma insert_by_key_sorted (x : (Z * bool * string) * assessment) l :
  StronglySorted (fun a b => key_rank a <= key_rank b) l ->
  StronglySorted (fun a b => key_rank a <= key_rank b) (insert_by_key x l).
Proof.
  induction l as [|y l IH]; intros Hs; simpl.
  - constructor; constructor.
  - inversion Hs as [|? ? Hl Hy]; subst.
    destruct (key_le (fst x) (fst y)) eqn:E.
    + apply (proj1 (key_le_rank _ _)) in E. constructor; [exact Hs|].
      constructor; [exact E|]. eapply Forall_impl; [|exact Hy].
      intros z Hz. unfold key_rank in *. lia.
    + apply (proj2 (key_le_rank _ _)) in E. constructor; [apply IH; exact Hl|].
      eapply Permutation_Forall; [symmetry; apply insert_by_key_perm|].
      constructor; [exact E | exact Hy].
Qed.

Lemma sort_by_key_sorted l :
  StronglySorted (fun a b => key_rank a <= key_rank b) (sort_by_key l).
Proof.
  induction l as [|x l IH]; simpl; [constructor|].
  apply insert_by_key_sorted. exact IH.
Qed.

Lemma combine_keys (assessed : list assessment) :
  forall keys,
    mapM sort_key assessed = Ok keys ->
    map snd (combine keys assessed) = assessed
    /\ Forall (fun x => key_rank x = risk_rank (a_risk_level (snd x)))
         (combine keys assessed).
Proof.
  induction assessed as [|a l IH]; intros keys H; simpl in H.
  - injection H as <-. split; [reflexivity | constructor].
  - destruct (sort_key a) as [k|] eqn:K; cbn [bind] in H; [|discriminate].
    destruct (mapM sort_key l) as [ks|]; cbn [bind] in H; [|discriminate].
    injection H as <-. destruct (IH ks eq_refl) as [H1 H2]. cbn [combine map].
    split; [rewrite H1; reflexivity|]. constructor; [|exact H2].
    unfold sort_key in K. destruct (lowered_text (a_product_name a)); [|discriminate].
    injection K as <-. reflexivity.
Qed.

Lemma sorted_by_rank (l : list ((Z * bool * string) * assessment)) :
  StronglySorted (fun a b => key_rank a <= key_rank b) l ->
  Forall (fun x => key_rank x = risk_rank (a_risk_level (snd x))) l ->
  StronglySorted
    (fun a b => risk_rank (a_risk_level a) <= risk_rank (a_risk_level b))
    (map snd l).
Proof.
  induction 1 as [|x l Hs IH Hx]; intros Hr; [constructor|].
  inversion Hr as [|? ? Hx0 Hl0]; subst. cbn [map]. constructor; [apply IH; exact Hl0|].
  apply Forall_forall. intros b Hb. apply in_map_iff in Hb.
  destruct Hb as [y [<- Hy]]. rewrite Forall_forall in Hx, Hl0.
  rewrite <- Hx0, <- (Hl0 y Hy). apply Hx. exact Hy.
Qed.

Lemma count_levels (l : list assessment) :
  Forall (fun a => a_risk_level a = "red" \/ a_risk_level a = "yellow"
                   \/ a_risk_level a = "green") l ->
  count_level "red" l + count_level "yellow" l + count_level "green" l
  = Z.of_nat (length l).
Proof.
  unfold count_level. induction 1 as [|a l Ha _ IH]; [reflexivity|].
  cbn [filter length].
  destruct Ha as [-> | [-> | ->]]; cbn -[Z.of_nat Z.add]; lia.
Qed.

Section WithSeparator.

Variable reason_separator : string.

Lemma assess_one_level (p : pyval) (a : assessment) :
  assess_one reason_separator p = Ok a ->
  a_risk_level a = "red" \/ a_risk_level a = "yellow" \/ a_risk_level a = "green".
Proof.
  unfold assess_one. destruct p as [| | | | |d]; try discriminate. intros H.
  destruct (evaluate_product d) as [[[risk rs] ads]|] eqn:E; cbn [bind] in H;
    [|discriminate].
  destruct (nonblank_text (get d "epd_url")); cbn [bind] in H; [|discriminate].
  destruct (nonblank_text (get d "epd_issue_date")); cbn [bind] in H; [|discriminate].
  injection H as <-. cbn [a_risk_level]. eapply evaluate_level. exact E.
Qed.

(** When [assess_products] answers: the list returned holds the
    assessments of the products, one each, rearranged so that red entries
    come before yellow ones and yellow before green; and the summary's
    three counts add up to its total, which is the number of products. *)
Theorem assess_products_sorted_and_counted (products : list pyval)
    (sorted : list assessment) (sm : summary) :
  assess_products reason_separator products = Ok (sorted, sm) ->
  (exists assessed,
     mapM (assess_one reason_separator) products = Ok assessed
     /\ Permutation sorted assessed)
  /\ StronglySorted
       (fun a b => risk_rank (a_risk_level a) <= risk_rank (a_risk_level b)) sorted
  /\ s_red sm + s_yellow sm + s_green sm = s_total sm
  /\ s_total sm = Z.of_nat (length products).
Proof.
  unfold assess_products. intros H.
  destruct (mapM (assess_one reason_separator) products) as [assessed|] eqn:M;
    cbn [bind] in H; [|discriminate].
  destruct (mapM sort_key assessed) as [keys|] eqn:K; cbn [bind] in H; [|discriminate].
  injection H as <- <-. cbn [s_red s_yellow s_green s_total].
  destruct (combine_keys assessed keys K) as [Hsnd Hrank].
  set (paired := combine keys assessed) in *.
  assert (Hperm : Permutation (map snd (sort_by_key paired)) assessed).
  { rewrite <- Hsnd. apply Permutation_map, sort_by_key_perm. }
  assert (Hlevels : Forall (fun a => a_risk_level a = "red" \/ a_risk_level a = "yellow"
                                     \/ a_risk_level a = "green") assessed).
  { apply mapM_pairs in M. clear -M.
    induction M as [|p a ps as' Hpa _ IH]; constructor; [|exact IH].
    eapply assess_one_level. exact Hpa. }
  split; [exists assessed; split; [reflexivity | exact Hperm]|].
  split; [|split].
  - apply sorted_by_rank; [apply sort_by_key_sorted|].
    eapply Permutation_Forall; [symmetry; apply sort_by_key_perm | exact Hrank].
  - apply count_levels. eapply Permutation_Forall; [symmetry; exact Hperm | exact Hlevels].
  - rewrite (Permutation_length Hperm). apply mapM_pairs in M.
    rewrite (Forall2_length M). reflexivity.
Qed.

End WithSeparator.

Definition two_products : list pyval :=
  [PDict [("id", PInt 1); ("product_name", PStr "Plank");
          ("epd_url", PStr "https://epd.example/p.pdf");
          ("epd_issue_date", PStr "2021-05-01")];
   PDict [("id", PInt 2); ("product_name", PStr "Tile")]].

(** A Green product listed before a Red one: the answer puts the Red one
    first. *)
Lemma assess_products_sorted_and_counted_witness :
  exists sorted sm,
    assess_products "; " two_products = Ok (sorted, sm)
    /\ map a_risk_level sorted = ["red"; "green"]
    /\ s_red sm + s_yellow sm + s_green sm = s_total sm.
Proof.
  eexists. eexists. split; [vm_compute; reflexivity|]. split; [reflexivity|].
  destruct (assess_products_sorted_and_counted "; " two_products _ _ eq_refl)
    as (_ & _ & H & _).
  exact H.
Defined.

End AssessProps.

(** ** search_engine.py: unwrapping a fenced reply *)
Module UnwrapProps.
Import PyStr Py SearchEngine.

Fixpoint occurs (c : ascii) (s : string) : bool :=
  match s with
  | EmptyString => false
  | String x s' => Ascii.eqb x c || occurs c s'
  end.

Lemma prefix_stops_at (c : ascii) (rest : string) :
  forall sep s,
    occurs c sep = false ->
    String.prefix sep (s ++ String c rest) = true -> String.prefix sep s = true.
Proof.
  induction sep as [|x sep IH]; intros s Hc H; [destruct s; reflexivity|].
  simpl in Hc. apply orb_false_elim in Hc. destruct Hc as [Hx Hc].
  destruct s as [|y s]; simpl in *.
  - destruct (ascii_dec x c) as [->|Hne]; [|discriminate].
    rewrite Ascii.eqb_refl in Hx. discriminate.
  - destruct (ascii_dec x y); [|discriminate]. apply IH; assumption.
Qed.

Lemma before_sep_app (sep : string) (c : ascii) (rest : string) :
  occurs c sep = false ->
  forall a,
    contains a sep = false ->
    before_sep sep (a ++ String c rest) = (a ++ before_sep sep (String c rest))%string.
Proof.
  intros Hc. induction a as [|y a IH]; intros Ha; [reflexivity|].
  cbn [contains] in Ha. apply orb_false_elim in Ha. destruct Ha as [Hp Ha].
  cbn [append before_sep].
  destruct (String.prefix sep (String y (a ++ String c rest))) eqn:E.
  - apply (prefix_stops_at c rest sep (String y a) Hc) in E. congruence.
  - rewrite (IH Ha). reflexivity.
Qed.

Lemma rstrip_newline (q : string) :
  rstrip (q ++ String (ascii_of_N 10) EmptyString) = rstrip q.
Proof.
  induction q as [|c q IH]; [reflexivity|].
  cbn [append rstrip]. rewrite IH. reflexivity.
Qed.

Lemma lstrip_app_newline (p : string) :
  rstrip (lstrip (p ++ String (ascii_of_N 10) EmptyString)) = rstrip (lstrip p).
Proof.
  induction p as [|c p IH]; [reflexivity|].
  cbn [append lstrip]. destruct (is_space c); [exact IH|].
  apply (rstrip_newline (String c p)).
Qed.

Lemma strip_between_newlines (p : string) :
  strip (String (ascii_of_N 10) (p ++ String (ascii_of_N 10) EmptyString)) = strip p.
Proof.
  unfold strip. change (lstrip (String (ascii_of_N 10) ?x)) with (lstrip x).
  apply lstrip_app_newline.
Qed.

Definition newline : string := String (ascii_of_N 10) EmptyString.

(** The reply format the refiner tolerates.  A payload that holds no
    fence, written between an opening fence, bare or tagged [json], and a
    closing fence, each on a line of its own, is unwrapped to the payload
    stripped, whatever follows the closing fence. *)
Theorem unwrap_markdown_fenced (payload tail : string) :
  contains payload fence = false ->
  unwrap_markdown (fence ++ "json" ++ newline ++ payload ++ newline ++ fence ++ tail)
  = strip payload
  /\ unwrap_markdown (fence ++ newline ++ payload ++ newline ++ fence ++ tail)
     = strip payload.
Proof.
  intros Hp.
  assert (Hnl : occurs (ascii_of_N 10) fence = false) by reflexivity.
  assert (Hclose : before_sep fence (String (ascii_of_N 10) (fence ++ tail))
                   = newline).
  { cbn [before_sep]. change (String.prefix fence (String (ascii_of_N 10) (fence ++ tail)))
      with false. cbn iota.
    assert (Hpre : String.prefix fence (fence ++ tail) = true)
      by (simpl; destruct tail; reflexivity).
    unfold before_sep. destruct (fence ++ tail)%string; rewrite Hpre; reflexivity. }
  unfold unwrap_markdown, newline. split.
  - change (startswith (fence ++ "json" ++ String (ascii_of_N 10) EmptyString ++ payload
                        ++ String (ascii_of_N 10) EmptyString ++ fence ++ tail) fence)
      with true. cbn iota.
    change (drop 3 (fence ++ "json" ++ String (ascii_of_N 10) EmptyString ++ payload
                    ++ String (ascii_of_N 10) EmptyString ++ fence ++ tail))
      with (("json" ++ String (ascii_of_N 10) payload)
            ++ String (ascii_of_N 10) (fence ++ tail))%string.
    rewrite (before_sep_app fence (ascii_of_N 10) (fence ++ tail) Hnl).
    + rewrite Hclose.
      change (startswith (("json" ++ String (ascii_of_N 10) payload) ++ newline) "json")
        with true. cbn iota.
      change (drop 4 (("json" ++ String (ascii_of_N 10) payload) ++ newline))
        with (String (ascii_of_N 10) (payload ++ newline)).
      apply strip_between_newlines.
    + simpl. exact Hp.
  - change (startswith (fence ++ String (ascii_of_N 10) EmptyString ++ payload
                        ++ String (ascii_of_N 10) EmptyString ++ fence ++ tail) fence)
      with true. cbn iota.
    change (drop 3 (fence ++ String (ascii_of_N 10) EmptyString ++ payload
                    ++ String (ascii_of_N 10) EmptyString ++ fence ++ tail))
      with ((String (ascii_of_N 10) payload)
            ++ String (ascii_of_N 10) (fence ++ tail))%string.
    rewrite (before_sep_app fence (ascii_of_N 10) (fence ++ tail) Hnl).
    + rewrite Hclose.
      change (startswith (String (ascii_of_N 10) payload ++ newline) "json") with false.
      cbn iota. apply strip_between_newlines.
    + simpl. exact Hp.
Qed.

Lemma unwrap_markdown_fenced_witness :
  unwrap_markdown
    (fence ++ "json" ++ newline ++ "[{'product_id': 7}]" ++ newline ++ fence ++ "")
  = "[{'product_id': 7}]".
Proof.
  rewrite (proj1 (unwrap_markdown_fenced "[{'product_id': 7}]" "" eq_refl)).
  reflexivity.
Defined.

End UnwrapProps.

(** ** product_indexer.py: [_build_filter_indexes] *)
Module FilterIndexes.
Import PyStr Py.

(** [self.filter_indexes]: the two dicts as the lists of their bindings in
    insertion order, the set as the list of its members. *)
Record indexes : Type := {
  categories : list (pyval * list pyval);
  manufacturers : list (pyval * list pyval);
  certifications : list pyval
}.

(** The indexes of a new [ProductIndexer]. *)
Definition empty_indexes : indexes :=
  {| categories := []; manufacturers := []; certifications := [] |}.

(** [if key not in d: d[key] = []] followed by [d[key].append(id)]. *)
Fixpoint bucket_append (key id : pyval) (d : list (pyval * list pyval))
  : list (pyval * list pyval) :=
  match d with
  | [] => [(key, [id])]
  | (k, ids) :: rest =>
      if py_eq k key then (k, (ids ++ [id])%list) :: rest
      else (k, ids) :: bucket_append key id rest
  end.

(** The indexing of a product under a name: nothing for a falsy name. *)
Definition add_named (name : pyval) (product : dict) (d : list (pyval * list pyval))
  : result (list (pyval * list pyval)) :=
  if truthy name then
    if hashable name then
      id <- subscript product "id" ;;
      Ok (bucket_append name id d)
    else Raise TypeError
  else Ok d.

(** [s.add(x)] for a truthy name. *)
Definition add_certification (name : pyval) (s : list pyval) : result (list pyval) :=
  if truthy name then
    if hashable name
    then Ok (if existsb (py_eq name) s then s else (s ++ [name])%list)
    else Raise TypeError
  else Ok s.

(** A loop over the records of a list field. *)
Fixpoint for_each {S : Type} (step : pyval -> S -> result S) (records : list pyval)
    (st : S) : result S :=
  match records with
  | [] => Ok st
  | r :: rest => st' <- step r st ;; for_each step rest st'
  end.

(** The body of the loop for one product. *)
Definition index_product (product : dict) (st : indexes) : result indexes :=
  cats <- iterate (get_default product "product_categories" (PList [])) ;;
  categories' <-
    for_each (fun cat d =>
                cat_name <- method_get cat "category_name" ;;
                add_named cat_name product d)
      cats (categories st) ;;
  manufacturers' <-
    add_named (get product "manufacturer_name") product (manufacturers st) ;;
  certs <- iterate (get_default product "certifications" (PList [])) ;;
  certifications' <-
    for_each (fun cert s =>
                cert_name <- method_get cert "certification" ;;
                add_certification cert_name s)
      certs (certifications st) ;;
  Ok {| categories := categories';
        manufacturers := manufacturers';
        certifications := certifications' |}.

(** [_build_filter_indexes], from the indexes as they are when it is
    called. *)
Fixpoint _build_filter_indexes (products : list dict) (st : indexes) : result indexes :=
  match products with
  | [] => Ok st
  | product :: rest =>
      st' <- index_product product st ;;
      _build_filter_indexes rest st'
  end.

End FilterIndexes.

Module FilterIndexesProps.
Import PyStr Py FilterIndexes.

(** Every id of every bucket satisfies [P] with the bucket's key. *)
Definition all_ids (P : pyval -> pyval -> Prop) (d : list (pyval * list pyval)) : Prop :=
  forall k ids id, In (k, ids) d -> In id ids -> P k id.

(** Each bucket of [d] is still there in [d'], at the same place and with
    the ids it had at the head of its list. *)
Inductive grows : list (pyval * list pyval) -> list (pyval * list pyval) -> Prop :=
| grows_nil : forall d', grows [] d'
| grows_cons : forall k ids more d d',
    grows d d' -> grows ((k, ids) :: d) ((k, (ids ++ more)%list) :: d').

Lemma grows_refl (d : list (pyval * list pyval)) : grows d d.
Proof.
  induction d as [|[k ids] d IH]; [constructor|].
  rewrite <- (app_nil_r ids) at 2. constructor. exact IH.
Qed.

Lemma grows_trans (a b c : list (pyval * list pyval)) :
  grows a b -> grows b c -> grows a c.
Proof.
  intros Hab. revert c. induction Hab as [|k ids more d d' _ IH]; intros c Hbc.
  - constructor.
  - inversion Hbc as [|? ? more' ? c' Hc']; subst.
    rewrite <- app_assoc. constructor. apply IH. exact Hc'.
Qed.

Lemma bucket_append_grows (key id : pyval) (d : list (pyval * list pyval)) :
  grows d (bucket_append key id d).
Proof.
  induction d as [|[k ids] d IH]; simpl; [constructor|].
  destruct (py_eq k key).
  - constructor. apply grows_refl.
  - rewrite <- (app_nil_r ids) at 2. constructor. exact IH.
Qed.

Lemma bucket_append_ids (P : pyval -> pyval -> Prop) (key id : pyval)
    (d : list (pyval * list pyval)) :
  all_ids P d ->
  (forall k, py_eq k key = true -> P k id) ->
  P key id ->
  all_ids P (bucket_append key id d).
Proof.
  unfold all_ids. induction d as [|[k ids] d IH]; intros Hd Heq Hkey k' ids' id' Hin Hid.
  - simpl in Hin. destruct Hin as [Hin | []]. injection Hin as <- <-.
    destruct Hid as [<- | []]. exact Hkey.
  - simpl in Hin. destruct (py_eq k key) eqn:E.
    + destruct Hin as [Hin | Hin].
      * injection Hin as <- <-. apply in_app_or in Hid. destruct Hid as [Hid | [<- | []]].
        -- apply (Hd k ids id'); [left; reflexivity | exact Hid].
        -- apply Heq. exact E.
      * apply (Hd k' ids' id'); [right; exact Hin | exact Hid].
    + destruct Hin as [Hin | Hin].
      * injection Hin as <- <-. apply (Hd k ids id'); [left; reflexivity | exact Hid].
      * apply (IH (fun k0 ids0 id0 H1 H2 => Hd k0 ids0 id0 (or_intror H1) H2)
                  Heq Hkey k' ids' id' Hin Hid).
Qed.

(** The product carries the id and, as manufacturer, a name equal to
    [k]. *)
Definition made_by (products : list dict) (k id : pyval) : Prop :=
  exists p, In p products /\ lookup "id" p = Some id
            /\ py_eq k (get p "manufacturer_name") = true.

(** The product carries the id and a category record named by a name
    equal to [k]. *)
Definition categorized (products : list dict) (k id : pyval) : Prop :=
  exists p records c,
    In p products /\ lookup "id" p = Some id
    /\ get_default p "product_categories" (PList []) = records
    /\ iterate records = Ok c
    /\ exists cat name, In cat c /\ method_get cat "category_name" = Ok name
                        /\ py_eq k name = true.

Lemma py_eq_hashable_refl (v : pyval) : hashable v = true -> py_eq v v = true.
Proof.
  destruct v; simpl; try discriminate; intros _; try reflexivity.
  - destruct b; reflexivity.
  - apply Z.eqb_refl.
  - apply String.eqb_refl.
Qed.

Lemma add_named_spec (P : pyval -> pyval -> Prop) (name : pyval) (product : dict)
    (d d' : list (pyval * list pyval)) :
  add_named name product d = Ok d' ->
  all_ids P d ->
  (forall k id, lookup "id" product = Some id -> py_eq k name = true -> P k id) ->
  grows d d' /\ all_ids P d'.
Proof.
  unfold add_named, subscript. intros H Hd HP.
  destruct (truthy name); [|injection H as <-; split; [apply grows_refl | exact Hd]].
  destruct (hashable name) eqn:Hh; [|discriminate].
  destruct (lookup "id" product) as [id|] eqn:L; cbn [bind] in H; [|discriminate].
  injection H as <-. split; [apply bucket_append_grows|].
  apply bucket_append_ids; [exact Hd | |].
  - intros k Hk. apply HP; [reflexivity | exact Hk].
  - apply HP; [reflexivity | apply py_eq_hashable_refl; exact Hh].
Qed.

Lemma category_loop (P : pyval -> pyval -> Prop) (product : dict) (cats : list pyval) :
  forall d d',
    for_each (fun cat d0 =>
                cat_name <- method_get cat "category_name" ;;
                add_named cat_name product d0) cats d = Ok d' ->
    all_ids P d ->
    (forall cat name k id,
       In cat cats -> method_get cat "category_name" = Ok name ->
       lookup "id" product = Some id -> py_eq k name = true -> P k id) ->
    grows d d' /\ all_ids P d'.
Proof.
  induction cats as [|cat rest IH]; intros d d' H Hd HP; simpl in H.
  - injection H as <-. split; [apply grows_refl | exact Hd].
  - destruct (method_get cat "category_name") as [name|] eqn:M; cbn [bind] in H;
      [|discriminate].
    destruct (add_named name product d) as [d1|] eqn:A; cbn [bind] in H; [|discriminate].
    destruct (add_named_spec P name product d d1 A Hd) as [G1 I1].
    { intros k id Hl Hk. apply (HP cat name k id); auto. left. reflexivity. }
    destruct (IH d1 d' H I1) as [G2 I2].
    { intros c n k id Hc. apply HP. right. exact Hc. }
    split; [eapply grows_trans; eassumption | exact I2].
Qed.

Lemma index_product_spec (products : list dict) (product : dict) (st st' : indexes) :
  index_product product st = Ok st' ->
  In product products ->
  all_ids (made_by products) (manufacturers st) ->
  all_ids (categorized products) (categories st) ->
  (grows (manufacturers st) (manufacturers st')
   /\ all_ids (made_by products) (manufacturers st'))
  /\ (grows (categories st) (categories st')
      /\ all_ids (categorized products) (categories st')).
Proof.
  unfold index_product. intros H Hin Hm Hc.
  destruct (iterate (get_default product "product_categories" (PList []))) as [cats|] eqn:I;
    cbn [bind] in H; [|discriminate].
  destruct (for_each _ cats (categories st)) as [c'|] eqn:F; cbn [bind] in H;
    [|discriminate].
  destruct (add_named (get product "manufacturer_name") product (manufacturers st))
    as [m'|] eqn:A; cbn [bind] in H; [|discriminate].
  destruct (iterate (get_default product "certifications" (PList []))) as [certs|];
    cbn [bind] in H; [|discriminate].
  destruct (for_each _ certs (certifications st)) as [s'|]; cbn [bind] in H;
    [|discriminate].
  injection H as <-. cbn [manufacturers categories]. split.
  - apply (add_named_spec (made_by products) _ product _ _ A Hm).
    intros k id Hl Hk. exists product. repeat split; assumption.
  - apply (category_loop (categorized products) product cats _ _ F Hc).
    intros cat name k id Hcat Hn Hl Hk.
    exists product, (get_default product "product_categories" (PList [])), cats.
    repeat split; try assumption. exists cat, name. repeat split; assumption.
Qed.

Lemma build_spec (products : list dict) (todo : list dict) :
  forall st st',
    _build_filter_indexes todo st = Ok st' ->
    (forall p, In p todo -> In p products) ->
    all_ids (made_by products) (manufacturers st) ->
    all_ids (categorized products) (categories st) ->
    (grows (manufacturers st) (manufacturers st')
     /\ all_ids (made_by products) (manufacturers st'))
    /\ (grows (categories st) (categories st')
        /\ all_ids (categorized products) (categories st')).
Proof.
  induction todo as [|p rest IH]; intros st st' H Hsub Hm Hc; simpl in H.
  - injection H as <-. repeat split; try apply grows_refl; assumption.
  - destruct (index_product p st) as [st1|] eqn:E; cbn [bind] in H; [|discriminate].
    destruct (index_product_spec products p st st1 E (Hsub p (or_introl eq_refl)) Hm Hc)
      as [[G1 I1] [G2 I2]].
    destruct (IH st1 st' H (fun q Hq => Hsub q (or_intror Hq)) I1 I2)
      as [[G3 I3] [G4 I4]].
    repeat split; try assumption; eapply grows_trans; eassumption.
Qed.

(** Referential integrity of the indexes built for a catalog from a new
    indexer: every id in a manufacturer bucket is the ['id'] of a catalog
    product made by a manufacturer equal to the bucket's key, and every id
    in a category bucket is the ['id'] of a catalog product with a
    category record of a name equal to the key. *)
Theorem built_indexes_reference_catalog (products : list dict) (st : indexes) :
  _build_filter_indexes products empty_indexes = Ok st ->
  all_ids (made_by products) (manufacturers st)
  /\ all_ids (categorized products) (categories st).
Proof.
  intros H.
  destruct (build_spec products products empty_indexes st H (fun p Hp => Hp))
    as [[_ Hm] [_ Hc]].
  - intros k ids id [].
  - intros k ids id [].
  - split; assumption.
Qed.

Definition two_makers : list dict :=
  [[("id", PInt 1); ("manufacturer_name", PStr "Acme")];
   [("id", PInt 2); ("manufacturer_name", PStr "Birch")];
   [("id", PInt 3); ("manufacturer_name", PStr "Acme")]].

Lemma built_indexes_reference_catalog_witness :
  exists st,
    _build_filter_indexes two_makers empty_indexes = Ok st
    /\ manufacturers st = [(PStr "Acme", [PInt 1; PInt 3]); (PStr "Birch", [PInt 2])]
    /\ all_ids (made_by two_makers) (manufacturers st).
Proof.
  eexists. split; [reflexivity|]. split; [reflexivity|].
  apply (built_indexes_reference_catalog two_makers _ eq_refl).
Defined.

(** A build starts from the indexes as they are and only adds to them:
    each bucket present before is still there, at its place, with the ids
    it had at the head of its list.  A second load of the same catalog
    therefore does not rebuild the indexes but lists every id a second
    time. *)
Theorem build_only_adds (products : list dict) (st st' : indexes) :
  _build_filter_indexes products st = Ok st' ->
  grows (manufacturers st) (manufacturers st')
  /\ grows (categories st) (categories st').
Proof.
  intros H.
  assert (Htriv : forall d, all_ids (fun _ _ => True) d) by (intros d k ids id _ _; exact I).
  revert st st' H. induction products as [|p rest IH]; intros st st' H; simpl in H.
  - injection H as <-. split; apply grows_refl.
  - destruct (index_product p st) as [st1|] eqn:E; cbn [bind] in H; [|discriminate].
    destruct (IH st1 st' H) as [G3 G4].
    unfold index_product in E.
    destruct (iterate (get_default p "product_categories" (PList []))) as [cats|];
      cbn [bind] in E; [|discriminate].
    destruct (for_each _ cats (categories st)) as [c'|] eqn:F; cbn [bind] in E;
      [|discriminate].
    destruct (add_named (get p "manufacturer_name") p (manufacturers st))
      as [m'|] eqn:A; cbn [bind] in E; [|discriminate].
    destruct (iterate (get_default p "certifications" (PList []))) as [certs|];
      cbn [bind] in E; [|discriminate].
    destruct (for_each _ certs (certifications st)) as [s'|]; cbn [bind] in E;
      [|discriminate].
    injection E as <-. cbn [manufacturers categories] in *.
    destruct (add_named_spec (fun _ _ => True) _ p _ _ A (Htriv _)) as [G1 _];
      [intros; exact I|].
    destruct (category_loop (fun _ _ => True) p cats _ _ F (Htriv _)) as [G2 _];
      [intros; exact I|].
    split; eapply grows_trans; eassumption.
Qed.

(** The catalog of two makers loaded twice. *)
Lemma build_only_adds_witness :
  exists st st',
    _build_filter_indexes two_makers empty_indexes = Ok st
    /\ _build_filter_indexes two_makers st = Ok st'
    /\ manufacturers st'
       = [(PStr "Acme", [PInt 1; PInt 3; PInt 1; PInt 3]);
          (PStr "Birch", [PInt 2; PInt 2])]
    /\ grows (manufacturers st) (manufacturers st').
Proof.
  eexists. eexists. split; [reflexivity|]. split; [reflexivity|].
  split; [reflexivity|].
  apply (build_only_adds two_makers _ _ eq_refl).
Defined.

End FilterIndexesProps.

(** ** epd_api.py and app.py: thumbnail links *)
Module ThumbnailProps.
Import PyStr Py EpdApi.

(** The prefix test of [proxy_image] on the path it is asked for. *)
Definition proxy_allows (rel_path : string) : bool :=
  startswith rel_path "/products/" || startswith rel_path "products/"
  || startswith rel_path "/media/products/" || startswith rel_path "media/products/".

Definition proxy_link : string := "/api/proxy-image?path=".

Lemma prefix_cons (a c : ascii) (p s : string) :
  String.prefix (String a p) (String c s)
  = if ascii_dec a c then String.prefix p s else false.
Proof. reflexivity. Qed.

Lemma slash_prefix (url p : string) :
  startswith url p = true ->
  startswith (String "/" url) (String "/" p) = true.
Proof.
  unfold startswith. intros H. rewrite prefix_cons.
  destruct (ascii_dec "/" "/"); [exact H | contradiction].
Qed.

(** The test of [first_usable] for a relative path. *)
Definition relative_product_path (url : string) : bool :=
  existsb (startswith url)
    ["/products/"; "products/"; "/media/products/"; "media/products/"].

Lemma first_usable_cons (url : string) (rest : list string) :
  first_usable (url :: rest) =
  if _is_http_url url && _is_image_url url then Some url
  else if relative_product_path url && _is_image_url url
  then Some (proxy_link ++ (if startswith url "/" then url else String "/" url))%string
  else first_usable rest.
Proof. reflexivity. Qed.

Lemma no_slash_prefix (url p : string) :
  startswith url "/" = false -> startswith url (String "/" p) = false.
Proof.
  unfold startswith. destruct url as [|c url]; [reflexivity|].
  rewrite !prefix_cons. destruct (ascii_dec "/" c); [|reflexivity].
  destruct url; discriminate.
Qed.

Lemma relative_path_allowed (url : string) :
  relative_product_path url = true ->
  exists path,
    (if startswith url "/" then url else String "/" url) = path
    /\ (path = url \/ path = String "/" url)
    /\ startswith path "/" = true
    /\ proxy_allows path = true.
Proof.
  unfold relative_product_path. cbn [existsb]. rewrite orb_false_r. intros Hp.
  destruct (startswith url "/") eqn:Hs.
  - exists url. split; [reflexivity|]. split; [left; reflexivity|].
    split; [exact Hs|]. unfold proxy_allows. rewrite <- !orb_assoc. exact Hp.
  - exists (String "/" url). split; [reflexivity|]. split; [right; reflexivity|].
    split; [apply (slash_prefix url EmptyString); unfold startswith;
            destruct url; reflexivity|].
    unfold proxy_allows.
    rewrite (no_slash_prefix url "products/" Hs) in Hp.
    rewrite (no_slash_prefix url "media/products/" Hs) in Hp.
    cbn [orb] in Hp. apply orb_prop in Hp. destruct Hp as [Hp | Hp].
    + rewrite (slash_prefix url "products/" Hp). reflexivity.
    + rewrite (slash_prefix url "media/products/" Hp).
      rewrite !orb_true_r. reflexivity.
Qed.

Lemma first_usable_shape (candidates : list string) (u : string) :
  first_usable candidates = Some u ->
  exists url,
    In url candidates /\ _is_image_url url = true
    /\ ((u = url /\ _is_http_url url = true)
        \/ exists path,
             u = (proxy_link ++ path)%string
             /\ (path = url \/ path = String "/" url)
             /\ startswith path "/" = true
             /\ proxy_allows path = true).
Proof.
  induction candidates as [|url rest IH]; intros H; [discriminate|].
  rewrite first_usable_cons in H.
  destruct (_is_http_url url && _is_image_url url) eqn:E1.
  - injection H as <-. apply andb_prop in E1. destruct E1 as [Hh Hi].
    exists url. split; [left; reflexivity|]. split; [exact Hi|]. left. split; auto.
  - destruct (relative_product_path url && _is_image_url url) eqn:E2.
    + injection H as <-. apply andb_prop in E2. destruct E2 as [Hp Hi].
      exists url. split; [left; reflexivity|]. split; [exact Hi|]. right.
      destruct (relative_path_allowed url Hp) as (path & -> & Hpath).
      exists path. split; [reflexivity | exact Hpath].
    + destruct (IH H) as (url' & Hin & Hrest). exists url'.
      split; [right; exact Hin | exact Hrest].
Qed.

(** A thumbnail link is never anything but an image link.  When
    [_extract_first_image_url] returns a link, it is either an absolute
    [http] or [https] URL with an image extension, or the proxy link to a
    relative path with an image extension; the path the proxy is then
    asked for starts with a slash and has one of the prefixes
    [proxy_image] allows.  A product that is the empty record has no
    thumbnail. *)
Theorem thumbnail_is_image_link (product : dict) (u : string) :
  _extract_first_image_url product = Ok (Some u) ->
  product <> []
  /\ exists url,
       _is_image_url url = true
       /\ ((u = url /\ _is_http_url url = true)
           \/ exists path,
                u = (proxy_link ++ path)%string
                /\ (path = url \/ path = String "/" url)
                /\ startswith path "/" = true
                /\ proxy_allows path = true).
Proof.
  unfold _extract_first_image_url. destruct product as [|kv product]; [discriminate|].
  set (p := kv :: product). intros H. split; [discriminate|].
  destruct (method_get (py_or (get p "media") (PDict [])) "images") as [m|];
    cbn [bind] in H; [|discriminate].
  destruct (method_get (py_or (get p "assets") (PDict [])) "images") as [a|];
    cbn [bind] in H; [|discriminate].
  injection H as H. apply first_usable_shape in H.
  destruct H as (url & _ & Hi & Hshape). exists url. split; assumption.
Qed.

Lemma thumbnail_is_image_link_witness :
  exists u,
    _extract_first_image_url
      [("images", PList [PStr "notes.txt"; PStr " products/Acme/plank.JPG "])] = Ok (Some u)
    /\ u = "/api/proxy-image?path=/products/Acme/plank.JPG".
Proof.
  eexists. split; [vm_compute; reflexivity|].
  destruct (thumbnail_is_image_link
              [("images", PList [PStr "notes.txt"; PStr " products/Acme/plank.JPG "])]
              _ eq_refl) as [_ _].
  reflexivity.
Defined.

End ThumbnailProps.
